(** * Shamela extractor: the document reconstruction engine of [build_jsons.py]

    A shallow embedding of [JSONBuilder]'s pure core (text normalisation,
    footnote separation, page aggregation, author resolution, the title
    tree builder and document assembly), and theorems about it. *)

From Stdlib Require Import String Ascii DecimalString DecimalPos DecimalZ.
From Stdlib Require Import List ZArith NArith Bool Arith Lia.
Import ListNotations.

Set Implicit Arguments.

(** ** Python strings

    A Python [str] is a sequence of Unicode code points. *)

Definition str := list N.

Definition u (s : string) : str :=
  map N_of_ascii (list_ascii_of_string s).

Fixpoint str_eqb (a b : str) : bool :=
  match a, b with
  | [], [] => true
  | x :: a', y :: b' => N.eqb x y && str_eqb a' b'
  | _, _ => false
  end.

(** [x in xs] on a list of strings. *)
Definition mem (x : str) (xs : list str) : bool := existsb (str_eqb x) xs.

(** Characters that [str.strip()], called without argument, removes: the
    code points for which [str.isspace] holds. *)
Definition is_space (c : N) : bool :=
  ((9 <=? c) && (c <=? 13) || (28 <=? c) && (c <=? 32)
   || (c =? 133) || (c =? 160) || (c =? 5760)
   || (8192 <=? c) && (c <=? 8202)
   || (c =? 8232) || (c =? 8233) || (c =? 8239) || (c =? 8287)
   || (c =? 12288))%N.

Fixpoint lstrip (s : str) : str :=
  match s with
  | c :: s' => if is_space c then lstrip s' else s
  | [] => []
  end.

Definition rstrip (s : str) : str := rev (lstrip (rev s)).

(** [s.strip()] *)
Definition strip (s : str) : str := rstrip (lstrip s).

(** White space that [int] passes over at either end of its argument:
    the ASCII white space and the white space beyond ASCII.  Unlike
    [str.strip], [int] leaves the separators U+001C to U+001F where they
    are. *)
Definition is_int_space (c : N) : bool :=
  (is_space c && negb ((28 <=? c) && (c <=? 31)))%N.

Fixpoint int_lstrip (s : str) : str :=
  match s with
  | c :: s' => if is_int_space c then int_lstrip s' else s
  | [] => []
  end.

Definition int_strip (s : str) : str := rev (int_lstrip (rev (int_lstrip s))).

(** [s.split(sep)] for a one-character separator: every occurrence splits,
    empty pieces are kept, and the empty string gives one empty piece. *)
Fixpoint split_on (sep : N) (s : str) : list str :=
  match s with
  | [] => [[]]
  | c :: s' =>
      if N.eqb c sep then [] :: split_on sep s'
      else match split_on sep s' with
           | p :: ps => (c :: p) :: ps
           | [] => [[c]]
           end
  end.

(** [s.replace(a, b)] for single characters. *)
Definition replace_char (a b : N) (s : str) : str :=
  map (fun c => if N.eqb c a then b else c) s.

(** [str(z)] for an [int]. *)
Definition str_of_Z (z : Z) : str := u (NilEmpty.string_of_int (Z.to_int z)).

Definition cr : N := 13.
Definition lf : N := 10.
Definition comma : N := 44.
Definition underscore : N := 95.
Definition lt_sign : N := 60.
Definition gt_sign : N := 62.

(** ** Python values found in the rows pandas hands over

    A cell of a data frame row is [None], a NaN, an [int], a finite
    [float] or a [str].  A finite float is kept through the three
    observations the code makes of one: [int(f)], whether it is an
    integer value, and [str(f)]. *)

Record pyfloat := {
  f_trunc : Z;
  f_integral : bool;
  f_repr : str
}.

Inductive pyval :=
| PyNone
| PyNaN
| PyInt (z : Z)
| PyFloat (f : pyfloat)
| PyStr (s : str).

(** [str(v)] *)
Definition py_str (v : pyval) : str :=
  match v with
  | PyNone => u "None"
  | PyNaN => u "nan"
  | PyInt z => str_of_Z z
  | PyFloat f => f_repr f
  | PyStr s => s
  end.

(** Truth value of [v] in a condition. *)
Definition py_truthy (v : pyval) : bool :=
  match v with
  | PyNone => false
  | PyNaN => true
  | PyInt z => negb (Z.eqb z 0)
  | PyFloat f => negb (f_integral f && Z.eqb (f_trunc f) 0)
  | PyStr s => match s with [] => false | _ :: _ => true end
  end.

(** [pd.isna(v)] on a scalar. *)
Definition pd_isna (v : pyval) : bool :=
  match v with
  | PyNone | PyNaN => true
  | _ => false
  end.

(** [v or ''] *)
Definition or_empty (v : pyval) : pyval :=
  if py_truthy v then v else PyStr [].

(** [n == v] for an [int] [n]. *)
Definition int_eq (n : Z) (v : pyval) : bool :=
  match v with
  | PyInt z => Z.eqb n z
  | PyFloat f => f_integral f && Z.eqb n (f_trunc f)
  | _ => false
  end.

(** A row of a data frame as a [dict]: column name to cell. *)
Definition row := list (string * pyval).

Fixpoint row_get (r : row) (k : string) : option pyval :=
  match r with
  | [] => None
  | (k', v) :: r' => if String.eqb k' k then Some v else row_get r' k
  end.

(** [r.get(k, default)] *)
Definition row_get_or (r : row) (k : string) (default : pyval) : pyval :=
  match row_get r k with
  | Some v => v
  | None => default
  end.

(** ** Dictionaries keyed by strings

    A [dict] keeps its keys in insertion order; it is a list of pairs
    whose keys are pairwise distinct. *)

Definition dict (V : Type) := list (str * V).

Fixpoint dict_get {V} (d : dict V) (k : str) : option V :=
  match d with
  | [] => None
  | (k', v) :: d' => if str_eqb k' k then Some v else dict_get d' k
  end.

Definition dict_get_or {V} (d : dict V) (k : str) (default : V) : V :=
  match dict_get d k with
  | Some v => v
  | None => default
  end.

Definition keys {V} (d : dict V) : list str := map fst d.

(** ** Exceptions and results *)

Inductive exn := RecursionError | AttributeError | ValueError.

Inductive res (A : Type) :=
| Ok (a : A)
| Raise (e : exn).

Arguments Ok {A} a.
Arguments Raise {A} e.

Definition bind {A B} (m : res A) (f : A -> res B) : res B :=
  match m with
  | Ok a => f a
  | Raise e => Raise e
  end.

Notation "x <- m ;; k" := (bind m (fun x => k))
  (at level 61, m at next level, right associativity).

(** ** The regular expressions of the program

    The patterns the program hands to [re] are sequences of literal
    characters, one-character classes, an optional character and
    repetitions [c{min,}] of a class, greedy or lazy, some of them
    captured.  [match_here] is the backtracking matcher of [re] on this
    fragment: it gives the first way to match in the order [re] tries
    them. *)

Inductive item :=
| Lit (c : N)
| Cls (p : N -> bool)
| Opt (c : N)
| Rep (p : N -> bool) (min : nat) (greedy capture : bool).

Definition pattern := list item.

Definition lits (s : string) : pattern := map Lit (u s).

Section Repetition.
Variable A : Type.
Variable p : N -> bool.
(** What follows the repetition in the pattern. *)
Variable k : str -> option A.

(** Leave the repetition here, when it has run [min] times. *)
Definition rep_stop (min : nat) (s : str) : option (str * A) :=
  match min with
  | O => match k s with
         | Some a => Some ([], a)
         | None => None
         end
  | S _ => None
  end.

(** Longest repetition first, giving characters back one at a time. *)
Fixpoint rep_greedy (min : nat) (s : str) : option (str * A) :=
  match s with
  | c :: s' =>
      if p c then
        match rep_greedy (pred min) s' with
        | Some (w, a) => Some (c :: w, a)
        | None => rep_stop min s
        end
      else rep_stop min s
  | [] => rep_stop min s
  end.

(** Shortest repetition first, taking one more character at a time. *)
Fixpoint rep_lazy (min : nat) (s : str) : option (str * A) :=
  match rep_stop min s with
  | Some r => Some r
  | None =>
      match s with
      | c :: s' =>
          if p c then
            match rep_lazy (pred min) s' with
            | Some (w, a) => Some (c :: w, a)
            | None => None
            end
          else None
      | [] => None
      end
  end.
End Repetition.

(** A match at the start of [s]: the captured groups in order, and the
    input left after the match. *)
Fixpoint match_here (pat : pattern) : str -> option (list str * str) :=
  match pat with
  | [] => fun s => Some ([], s)
  | Lit c :: pat' => fun s =>
      match s with
      | x :: s' => if N.eqb x c then match_here pat' s' else None
      | [] => None
      end
  | Cls p :: pat' => fun s =>
      match s with
      | x :: s' => if p x then match_here pat' s' else None
      | [] => None
      end
  | Opt c :: pat' => fun s =>
      let taken :=
        match s with
        | x :: s' => if N.eqb x c then match_here pat' s' else None
        | [] => None
        end in
      match taken with
      | Some r => Some r
      | None => match_here pat' s
      end
  | Rep p min greedy capture :: pat' => fun s =>
      let run := if greedy then rep_greedy p (match_here pat') min s
                 else rep_lazy p (match_here pat') min s in
      match run with
      | Some (w, (groups, rest)) =>
          Some (if capture then w :: groups else groups, rest)
      | None => None
      end
  end.

(** [re.search(pat, s)]: the leftmost match, as the text before it, its
    groups and the text after it. *)
Fixpoint re_search (pat : pattern) (s : str) : option (str * list str * str) :=
  match match_here pat s with
  | Some (groups, rest) => Some ([], groups, rest)
  | None =>
      match s with
      | c :: s' =>
          match re_search pat s' with
          | Some (before, groups, rest) => Some (c :: before, groups, rest)
          | None => None
          end
      | [] => None
      end
  end.

(** [re.split(pat, s, 1)] for a pattern without groups. *)
Definition re_split1 (pat : pattern) (s : str) : list str :=
  match re_search pat s with
  | Some (before, _, rest) => [before; rest]
  | None => [s]
  end.

(** [re.sub(pat, repl, s)]: the matches are found from left to right and do
    not overlap; [skip] counts the characters of the current match still
    to be passed over.  A match that consumed nothing leaves the character
    where it is. *)
Fixpoint sub_loop (pat : pattern) (repl : list str -> str)
    (s : str) (skip : nat) : str :=
  match s with
  | [] => []
  | c :: s' =>
      match skip with
      | S n => sub_loop pat repl s' n
      | O =>
          match match_here pat s with
          | Some (groups, rest) =>
              match length s - length rest with
              | S n => repl groups ++ sub_loop pat repl s' n
              | O => repl groups ++ c :: sub_loop pat repl s' 0
              end
          | None => c :: sub_loop pat repl s' 0
          end
      end
  end.

Definition re_sub (pat : pattern) (repl : list str -> str) (s : str) : str :=
  sub_loop pat repl s 0.

(** The replacement template [r'\1']. *)
Definition group1 (groups : list str) : str := nth 0 groups [].

(** The replacement [''] *)
Definition no_text (groups : list str) : str := [].

Definition any_char (c : N) : bool := true.
Definition not_gt (c : N) : bool := negb (N.eqb c gt_sign).
Definition is_underscore (c : N) : bool := N.eqb c underscore.
Definition is_quote (c : N) : bool := N.eqb c 39 || N.eqb c 34.

(** [r'_{5,}'] *)
Definition separator_pattern : pattern := [Rep is_underscore 5 true false].

(** [r'<img[^>]*/?>'] *)
Definition img_pattern : pattern :=
  lits "<img" ++ [Rep not_gt 0 true false; Opt 47; Lit gt_sign].

(** [r'<span[\s\S]*?>([\s\S]*?)</span>'] *)
Definition span_pattern : pattern :=
  lits "<span" ++ [Rep any_char 0 false false; Lit gt_sign;
                   Rep any_char 0 false true] ++ lits "</span>".

(** [r'<title[^>]*>([\s\S]*?)</title>'] *)
Definition title_pattern : pattern :=
  lits "<title" ++ [Rep not_gt 0 true false; Lit gt_sign;
                    Rep any_char 0 false true] ++ lits "</title>".

(** [r'<[^>]+>'] *)
Definition tag_pattern : pattern :=
  [Lit lt_sign; Rep not_gt 1 true false; Lit gt_sign].

(** ** Footnote separator: [_separate_body_footnote] *)

(** [str(v) if v and not pd.isna(v) else ""] *)
Definition text_of (v : pyval) : str :=
  if py_truthy v && negb (pd_isna v) then py_str v else [].

Definition separate_body_footnote (body foot : pyval) : str * str :=
  let body := strip (text_of body) in
  let foot := strip (text_of foot) in
  match body, foot with
  | _ :: _, _ => (body, foot)
  | [], _ :: _ =>
      match re_search separator_pattern foot with
      | Some _ =>
          let parts := re_split1 separator_pattern foot in
          (strip (nth 0 parts []),
           match parts with
           | _ :: after :: _ => strip after
           | _ => []
           end)
      | None => (foot, [])
      end
  | [], [] => (body, foot)
  end.

(** ** Title tree builder *)

(** An entry of the table of contents:
    [{"page": ..., "title": ..., "chapters": [...]}]. *)
#[warnings="-register-all"]
Inductive toc_item :=
| TocItem (page title : str) (chapters : list toc_item).

Definition toc_page (t : toc_item) : str :=
  match t with TocItem p _ _ => p end.
Definition toc_title (t : toc_item) : str :=
  match t with TocItem _ t _ => t end.
Definition toc_chapters (t : toc_item) : list toc_item :=
  match t with TocItem _ _ c => c end.

(** The sentinel parent id of a top-level title. *)
Definition root_id : str := u "0".

(** [title_hierarchy.get(title_id, "0")] *)
Definition parent_of (title_hierarchy : dict str) (title_id : str) : str :=
  dict_get_or title_hierarchy title_id root_id.

(** [f"{book_id}/{page_number}"] with
    [page_number = title_page_mapping.get(title_id, "1")]. *)
Definition page_locator (book_id : str) (title_page_mapping : dict str)
    (title_id : str) : str :=
  book_id ++ u "/" ++ dict_get_or title_page_mapping title_id (u "1").

(** [title_text.strip()] on a cell of the titles file: a cell that is no
    text has no [strip]. *)
Definition strip_cell (title_text : pyval) : res str :=
  match title_text with
  | PyStr s => Ok (strip s)
  | _ => Raise AttributeError
  end.

Section TitleTree.
Variable title_hierarchy : dict str.
(** The title data, as [_load_title_data] returns it: the cells of the
    [body] column, whatever they hold. *)
Variable title_data : dict pyval.
Variable title_page_mapping : dict str.
Variable book_id : str.

(** The loop of [_find_title_children] over [title_data.items()];
    [descend] is the recursive call.  The entry of a child is built, and
    its text stripped, before the call that finds its own children. *)
Fixpoint collect_children (descend : str -> res (list toc_item))
    (parent_id : str) (items : dict pyval) : res (list toc_item) :=
  match items with
  | [] => Ok []
  | (title_id, title_text) :: items' =>
      if str_eqb (parent_of title_hierarchy title_id) parent_id then
        title <- strip_cell title_text ;;
        grandchildren <- descend title_id ;;
        children <- collect_children descend parent_id items' ;;
        Ok (TocItem (page_locator book_id title_page_mapping title_id)
                    title grandchildren :: children)
      else collect_children descend parent_id items'
  end.

(** [_find_title_children]. Python gives the call stack a bounded number
    of frames and raises [RecursionError] when a call would exceed it;
    [depth] is the number of frames left. *)
Fixpoint find_title_children (depth : nat) (parent_id : str)
    : res (list toc_item) :=
  match depth with
  | O => Raise RecursionError
  | S d =>
      collect_children (find_title_children d) parent_id title_data
  end.

(** [processed_titles.add(title_id)] *)
Definition set_add (x : str) (s : list str) : list str :=
  if mem x s then s else x :: s.

(** The loop of [_mark_children_processed] over the keys of
    [title_hierarchy]. *)
Fixpoint mark_loop (descend : str -> list str -> res (list str))
    (parent_id : str) (ids : list str) (processed : list str)
    : res (list str) :=
  match ids with
  | [] => Ok processed
  | title_id :: ids' =>
      if str_eqb (parent_of title_hierarchy title_id) parent_id then
        processed' <- descend title_id (set_add title_id processed) ;;
        mark_loop descend parent_id ids' processed'
      else mark_loop descend parent_id ids' processed
  end.

(** [_mark_children_processed], which returns the set it updates. *)
Fixpoint mark_children_processed (depth : nat) (parent_id : str)
    (processed : list str) : res (list str) :=
  match depth with
  | O => Raise RecursionError
  | S d =>
      mark_loop (mark_children_processed d) parent_id
        (keys title_hierarchy) processed
  end.

(** The loop of [_build_table_of_contents] over [title_data.items()],
    with [processed_titles] threaded through; it returns [toc_items]. *)
Fixpoint toc_loop (depth : nat) (items : dict pyval) (processed : list str)
    : res (list toc_item) :=
  match items with
  | [] => Ok []
  | (title_id, title_text) :: items' =>
      if mem title_id processed then toc_loop depth items' processed
      else if str_eqb (parent_of title_hierarchy title_id) root_id then
        title <- strip_cell title_text ;;
        children <- find_title_children depth title_id ;;
        processed' <- mark_children_processed depth title_id
                        (set_add title_id processed) ;;
        toc_items <- toc_loop depth items' processed' ;;
        Ok (TocItem (page_locator book_id title_page_mapping title_id)
                    title children :: toc_items)
      else toc_loop depth items' processed
  end.

(** The forest [_build_table_of_contents] builds from this title data,
    [processed_titles] being empty at first. *)
Definition toc_forest (depth : nat) : res (list toc_item) :=
  toc_loop depth title_data [].
End TitleTree.

(** ** Page records and the page structure *)

(** A record of the page-content sequence; [None] is a missing column. *)
Record page_row := {
  row_PageID : option pyval;
  row_body : option pyval;
  row_foot : option pyval
}.

(** A row of the per-book [page] table without its [id]: the [part]
    column holds text ([None]: NULL or no such column), the [page] column
    any cell ([None]: no such column). *)
Record page_info := {
  info_part : option str;
  info_page : option pyval
}.

(** The empty dict that [page_structure.get(page_id, {})] falls back on. *)
Definition no_structure : page_info :=
  {| info_part := None; info_page := None |}.

(** [str(page_number)] after the NaN and float adjustments. *)
Definition page_number_text (page_number : pyval) : str :=
  if pd_isna page_number then []
  else match page_number with
       | PyFloat f => str_of_Z (f_trunc f)
       | v => py_str v
       end.

(** A page object of the output, a [dict] from field name to text. *)
Definition page := list (string * str).

Definition page_field (p : page) (k : string) : option str :=
  match find (fun kv => String.eqb (fst kv) k) p with
  | Some kv => Some (snd kv)
  | None => None
  end.

(** [del page[k]] when [k in page]. *)
Definition page_del (k : string) (p : page) : page :=
  filter (fun kv => negb (String.eqb (fst kv) k)) p.

(** [pages_by_part[part].append(page_data)] on a [defaultdict(list)]: a new
    key goes last. *)
Fixpoint dict_append {V} (d : dict (list V)) (k : str) (v : V)
    : dict (list V) :=
  match d with
  | [] => [(k, [v])]
  | (k', vs) :: d' =>
      if str_eqb k' k then (k', vs ++ [v]) :: d'
      else (k', vs) :: dict_append d' k v
  end.

(** [{"part": part_name, "pages": pages}] *)
Record part_entry := {
  part_name : str;
  part_pages : list page
}.

(** ** Author ids *)

(** The ids parsed from the comma-separated [authors] field. *)
Definition parse_author_ids (author_ids_str : str) : list str :=
  if match author_ids_str with [] => false | _ :: _ => true end
     && negb (mem author_ids_str [[]; u "[]"; u "None"])
  then
    map strip
      (filter (fun aid => match strip aid with [] => false | _ :: _ => true end)
         (split_on comma author_ids_str))
  else [].

(** [author_ids] once the main author has been added. *)
Definition author_id_list (book_data : row) : list str :=
  let author_ids_str := strip (py_str (row_get_or book_data "authors" (PyStr []))) in
  let main_author_id := row_get_or book_data "main_author" (PyStr []) in
  let author_ids := parse_author_ids author_ids_str in
  if py_truthy main_author_id && negb (mem (py_str main_author_id) author_ids)
  then author_ids ++ [py_str main_author_id]
  else author_ids.

(** An entry of [authors_info]. *)
Record author_info := {
  author_id : str;
  author_name : pyval;
  death_number : pyval;
  death_text : pyval;
  is_main_author : bool
}.

(** A lookup table indexed by an integer column. *)
Definition table := list (Z * row).

Fixpoint table_get (t : table) (k : Z) : option row :=
  match t with
  | [] => None
  | (k', r) :: t' => if Z.eqb k' k then Some r else table_get t' k
  end.

(** [t.get(k, {})] for any cell [k]: a cell equal to an integer key finds
    its row. *)
Definition table_get_cell (t : table) (k : pyval) : row :=
  let found :=
    match k with
    | PyInt z => table_get t z
    | PyFloat f => if f_integral f then table_get t (f_trunc f) else None
    | _ => None
    end in
  match found with
  | Some r => r
  | None => []
  end.

(** [d[k] = v]: an existing key keeps its place. *)
Fixpoint dict_set {V} (d : dict V) (k : str) (v : V) : dict V :=
  match d with
  | [] => [(k, v)]
  | (k', v') :: d' =>
      if str_eqb k' k then (k', v) :: d' else (k', v') :: dict_set d' k v
  end.

(** ** The builder and the files it reads *)

(** A row of the per-book [title] table. *)
Record title_row := {
  title_row_id : pyval;
  title_row_page : pyval;
  title_row_parent : option pyval
}.

(** A per-book database; [None] is a table that cannot be read. *)
Record database := {
  page_table : option (list (pyval * page_info));
  title_table : option (list title_row)
}.

(** [self]: the two flags that matter here, and what the paths of the
    builder lead to, by book id.  [frames] is the number of stack frames
    Python leaves to the recursive helpers.  A row of the titles file is
    its [id] cell and its [body] cell. *)
Record builder := {
  generate_toc : bool;
  frames : nat;
  book_content_csv : str -> option (list page_row);
  title_csv : str -> option (list (pyval * pyval));
  book_db : str -> option database
}.

(** [_load_title_data]: the [body] cell of each title, as it is, keyed by
    the part of its id that follows the dash. *)
Definition load_title_data (self : builder) (book_id : str) : dict pyval :=
  match title_csv self book_id with
  | None => []
  | Some rows =>
      fold_left
        (fun title_mapping r =>
           if negb (pd_isna (snd r)) then
             let full_id := py_str (fst r) in
             if existsb (N.eqb 45) full_id
             then dict_set title_mapping (nth 1 (split_on 45 full_id) [])
                    (snd r)
             else title_mapping
           else title_mapping)
        rows []
  end.

(** [_build_title_page_mapping_from_sqlite] *)
Definition build_title_page_mapping_from_sqlite (self : builder)
    (book_id : str) (page_structure : dict page_info) : dict str :=
  match book_db self book_id with
  | None => []
  | Some db =>
      match title_table db with
      | None => []
      | Some rows =>
          fold_left
            (fun m r => dict_set m (py_str (title_row_id r))
                                   (py_str (title_row_page r)))
            rows []
      end
  end.

(** [_build_table_of_contents]; [None] is Python's [None]. *)
Definition build_table_of_contents (self : builder) (book_id : str)
    (title_hierarchy : dict str) (book_content : list page_row)
    (page_structure : dict page_info) : res (option (list toc_item)) :=
  if negb (generate_toc self) then Ok None
  else
    let title_data := load_title_data self book_id in
    match title_data with
    | [] => Ok None
    | _ :: _ =>
        let title_page_mapping :=
          build_title_page_mapping_from_sqlite self book_id page_structure in
        toc_items <- toc_forest title_hierarchy title_data title_page_mapping
                       book_id (frames self) ;;
        Ok (Some toc_items)
    end.

(** ** The metadata files *)

(** The byte-order mark, which a file written as [utf-8-sig] and read as
    [utf-8] keeps at the head of its first column name. *)
Definition bom : N := 65279.

(** [_get_field_name], on the columns of the frame. *)
Definition get_field_name (columns : list str) (base_name : str) : str :=
  if mem base_name columns then base_name
  else if mem (bom :: base_name) columns then bom :: base_name
  else base_name.

(** [_load_meta_csv]: [None] is a file that is missing, cannot be read or
    lacks one of the two columns; a row is its [id] cell and its
    [body_store] cell, [None] when that one is missing. *)
Definition load_meta_csv (file : option (list (pyval * option str)))
    : dict str :=
  match file with
  | None => []
  | Some rows =>
      fold_left
        (fun d r =>
           match snd r with
           | Some body => dict_set d (py_str (fst r)) body
           | None => d
           end)
        rows []
  end.

(** ** Text normaliser, author resolver and document assembler

    Two things come from the Python runtime and its libraries rather than
    from the program: which characters beyond ASCII are decimal digits
    (and their values), and [json.loads]. *)

(** The metadata tables, as [_load_metadata] leaves them. *)
Record metadata := {
  books_lookup : table;
  authors_lookup : table;
  categories_lookup : table;
  book_meta_lookup : dict str;
  author_meta_lookup : dict str
}.

Section Runtime.
Variable unicode_digit : N -> option N.
Variable json : Type.
(** [json.loads] on a text that it reads within the recursion limit;
    [None] when it raises [JSONDecodeError]. *)
Variable json_loads : str -> option json.
Variable json_truthy : json -> bool.
(** [{}] *)
Variable empty_object : json.

Definition digit_value (c : N) : option N :=
  if (c <? 128)%N then
    if ((48 <=? c) && (c <=? 57))%N then Some (c - 48)%N else None
  else unicode_digit c.

(** The class [\d]. *)
Definition is_digit (c : N) : bool :=
  match digit_value c with Some _ => true | None => false end.

(** [r'<span data-type=[\'"]title[\'"] id=toc-(\d+)>([\s\S]*?)</span>'] *)
Definition title_span_pattern : pattern :=
  lits "<span data-type=" ++ [Cls is_quote] ++ lits "title"
    ++ [Cls is_quote] ++ lits " id=toc-"
    ++ [Rep is_digit 1 true true; Lit gt_sign; Rep any_char 0 false true]
    ++ lits "</span>".

(** [replace_title_span] *)
Definition replace_title_span (title_hierarchy : dict str)
    (groups : list str) : str :=
  let title_id := nth 0 groups [] in
  let title_content := nth 1 groups [] in
  let parent_id := parent_of title_hierarchy title_id in
  u "<title id=" ++ title_id ++ u " parent=" ++ parent_id ++ u ">"
    ++ title_content ++ u "</title>".

(** [_process_text] *)
Definition process_text (self : builder) (text : pyval)
    (title_hierarchy : dict str) : str :=
  if negb (py_truthy text) || pd_isna text then []
  else
    let text := py_str text in
    let text := replace_char cr lf text in
    let text := re_sub img_pattern no_text text in
    let text := re_sub title_span_pattern
                  (replace_title_span title_hierarchy) text in
    let text := re_sub span_pattern group1 text in
    if generate_toc self then
      let text := re_sub title_pattern group1 text in
      re_sub tag_pattern no_text text
    else text.

(** The digits of an integer literal, single underscores allowed between
    them. *)
Fixpoint digits_value (acc : Z) (after_digit : bool) (s : str) : option Z :=
  match s with
  | [] => if after_digit then Some acc else None
  | c :: s' =>
      match digit_value c with
      | Some d => digits_value (10 * acc + Z.of_N d) true s'
      | None =>
          if N.eqb c underscore && after_digit
          then digits_value acc false s'
          else None
      end
  end.

(** [int(s)]; [None] when it raises [ValueError].  The bound that [int]
    puts on the number of digits of its argument is taken as lifted. *)
Definition py_int (s : str) : option Z :=
  match int_strip s with
  | 45%N :: ds => option_map Z.opp (digits_value 0 false ds)
  | 43%N :: ds => digits_value 0 false ds
  | ds => digits_value 0 false ds
  end.

(** The loop that fills [authors_info]. *)
Fixpoint authors_info_of (authors : table) (main_author_id : pyval)
    (author_ids : list str) : list author_info :=
  match author_ids with
  | [] => []
  | author_id_str :: author_ids' =>
      let rest := authors_info_of authors main_author_id author_ids' in
      match author_id_str with
      | [] => rest
      | _ :: _ =>
          match py_int author_id_str with
          | None => rest
          | Some author_id_int =>
              match table_get_cell authors (PyInt author_id_int) with
              | [] => rest
              | author =>
                  {| author_id := str_of_Z author_id_int;
                     author_name := row_get_or author "author_name" (PyStr []);
                     death_number := row_get_or author "death_number" (PyStr []);
                     death_text :=
                       or_empty (row_get_or author "death_text" (PyStr []));
                     is_main_author := int_eq author_id_int main_author_id |}
                  :: rest
              end
          end
      end
  end.

(** [_parse_json_field]; a cell that is neither text nor empty has no
    [strip]. *)
Definition parse_json_field (json_str : pyval) : res (option json) :=
  if negb (py_truthy json_str) || pd_isna json_str then Ok None
  else match json_str with
       | PyStr s =>
           match strip s with
           | [] => Ok None
           | s' => Ok (json_loads s')
           end
       | _ => Raise AttributeError
       end.

(** [parsed or {}] *)
Definition or_empty_object (parsed : option json) : json :=
  match parsed with
  | Some j => if json_truthy j then j else empty_object
  | None => empty_object
  end.

(** One turn of the page loop of [_build_book_json]: the part of the page
    and its [page_data]. *)
Definition page_data_of (self : builder) (title_hierarchy : dict str)
    (page_structure : dict page_info) (r : page_row) : str * page :=
  let page_id :=
    py_str (match row_PageID r with Some v => v | None => PyStr [] end) in
  let structure := dict_get_or page_structure page_id no_structure in
  let raw_body := match row_body r with Some v => v | None => PyStr [] end in
  let raw_foot := match row_foot r with Some v => v | None => PyStr [] end in
  let separated := separate_body_footnote raw_body raw_foot in
  let original_body := fst separated in
  let body := process_text self (PyStr (fst separated)) title_hierarchy in
  let footnote := process_text self (PyStr (snd separated)) title_hierarchy in
  let part := match info_part structure with Some s => s | None => [] end in
  let page_number :=
    match info_page structure with Some v => v | None => PyStr page_id end in
  (part,
   [("page_id", page_id); ("page_number", page_number_text page_number);
    ("body", body); ("footnote", footnote);
    ("original_body", original_body)]%string).

(** [pages_by_part] after the page loop. *)
Definition pages_by_part (self : builder) (title_hierarchy : dict str)
    (page_structure : dict page_info) (book_content : list page_row)
    : dict (list page) :=
  fold_left
    (fun d r =>
       let pd := page_data_of self title_hierarchy page_structure r in
       dict_append d (fst pd) (snd pd))
    book_content [].

Definition parts_list_of (d : dict (list page)) : list part_entry :=
  map (fun kv => {| part_name := fst kv; part_pages := snd kv |}) d.

(** The clean-up loop that drops [original_body] from every page. *)
Definition clean_parts (parts_list : list part_entry) : list part_entry :=
  map (fun p => {| part_name := part_name p;
                   part_pages := map (page_del "original_body") (part_pages p) |})
      parts_list.

(** The document; [doc_table_of_contents] is [None] when the key
    [table_of_contents] is absent. *)
Record book_json := {
  doc_book_id : str;
  doc_title : pyval;
  doc_book_date : pyval;
  doc_category_id : pyval;
  doc_category_name : pyval;
  doc_book_type : pyval;
  doc_printed : pyval;
  doc_pdf_links : json;
  doc_meta_data : json;
  doc_authors : list author_info;
  doc_book_meta : list str;
  doc_author_meta : list str;
  doc_parts : list part_entry;
  doc_table_of_contents : option (list toc_item)
}.

(** [_build_book_json] *)
Definition build_book_json (self : builder) (book_id : str) (book_data : row)
    (book_content : list page_row) (page_structure : dict page_info)
    (title_hierarchy : dict str) (md : metadata)
    (book_meta_content author_meta_content : list str) : res book_json :=
  let parts_list :=
    parts_list_of
      (pages_by_part self title_hierarchy page_structure book_content) in
  let category_id := row_get_or book_data "book_category" (PyStr []) in
  let category := table_get_cell (categories_lookup md) category_id in
  let main_author_id := row_get_or book_data "main_author" (PyStr []) in
  let authors_info :=
    authors_info_of (authors_lookup md) main_author_id
      (author_id_list book_data) in
  toc <- build_table_of_contents self book_id title_hierarchy book_content
           page_structure ;;
  let parts_list := clean_parts parts_list in
  pdf_links <- parse_json_field (row_get_or book_data "pdf_links" (PyStr [])) ;;
  meta_data <- parse_json_field (row_get_or book_data "meta_data" (PyStr [])) ;;
  Ok {| doc_book_id := book_id;
        doc_title := row_get_or book_data "book_name" (PyStr []);
        doc_book_date := row_get_or book_data "book_date" (PyStr []);
        doc_category_id := category_id;
        doc_category_name := row_get_or category "category_name" (PyStr []);
        doc_book_type := row_get_or book_data "book_type" (PyStr []);
        doc_printed := row_get_or book_data "printed" (PyStr []);
        doc_pdf_links := or_empty_object pdf_links;
        doc_meta_data := or_empty_object meta_data;
        doc_authors := authors_info;
        doc_book_meta := book_meta_content;
        doc_author_meta := author_meta_content;
        doc_parts := parts_list;
        doc_table_of_contents :=
          match toc with
          | Some (t :: ts) => Some (t :: ts)
          | _ => None
          end |}.

(** The non-blank lines of a meta entry, stripped. *)
Definition meta_lines (text : str) : list str :=
  map strip
    (filter (fun line => match strip line with [] => false | _ :: _ => true end)
       (split_on cr text)).

(** The page structure and the title hierarchy read from the per-book
    database; both are empty when there is none. *)
Definition load_page_structure (self : builder) (book_id : str)
    : dict page_info :=
  match book_db self book_id with
  | Some {| page_table := Some rows |} =>
      fold_left (fun d r => dict_set d (py_str (fst r)) (snd r)) rows []
  | _ => []
  end.

Definition load_title_hierarchy (self : builder) (book_id : str) : dict str :=
  match book_db self book_id with
  | Some {| title_table := Some rows |} =>
      fold_left
        (fun d r =>
           dict_set d (py_str (title_row_id r))
             (py_str (match title_row_parent r with
                      | Some v => v
                      | None => PyStr root_id
                      end)))
        rows []
  | _ => []
  end.

(** [_process_single_book]; [Ok None] is the book that yields no
    document. *)
Definition process_single_book (self : builder) (book_id : str)
    (md : metadata) : res (option book_json) :=
  match py_int book_id with
  | None => Raise ValueError
  | Some n =>
      match table_get (books_lookup md) n with
      | None | Some [] => Ok None
      | Some book_row =>
          match book_content_csv self book_id with
          | None => Ok None
          | Some book_content =>
              let page_structure := load_page_structure self book_id in
              let title_hierarchy := load_title_hierarchy self book_id in
              let book_meta_content :=
                match dict_get (book_meta_lookup md) book_id with
                | Some text => meta_lines text
                | None => []
                end in
              let main_author_id :=
                py_str (row_get_or book_row "main_author" (PyStr [])) in
              let author_meta_content :=
                match main_author_id with
                | [] => []
                | _ :: _ =>
                    match dict_get (author_meta_lookup md) main_author_id with
                    | Some text => meta_lines text
                    | None => []
                    end
                end in
              doc <- build_book_json self book_id book_row book_content
                       page_structure title_hierarchy md
                       book_meta_content author_meta_content ;;
              Ok (Some doc)
          end
      end
  end.
End Runtime.

(** ** Notions the statements use *)

(** The labels of a sequence in the order they are first seen. *)
Fixpoint first_seen (labels : list str) : list str :=
  match labels with
  | [] => []
  | l :: labels' =>
      l :: filter (fun x => negb (str_eqb x l)) (first_seen labels')
  end.

(** The items filed under label [l], in the order of the sequence. *)
Definition filed_under {V} (l : str) (items : list (str * V)) : list V :=
  map snd (filter (fun kv => str_eqb (fst kv) l) items).

(** The longest prefix of [s] made of characters of class [p], and what
    follows it. *)
Fixpoint leading (p : N -> bool) (s : str) : str :=
  match s with
  | c :: s' => if p c then c :: leading p s' else []
  | [] => []
  end.

Fixpoint after_leading (p : N -> bool) (s : str) : str :=
  match s with
  | c :: s' => if p c then after_leading p s' else s
  | [] => []
  end.

(** The next character of [s], if any, is outside class [p]. *)
Definition stops (p : N -> bool) (s : str) : Prop :=
  match s with
  | [] => True
  | c :: _ => p c = false
  end.

(** [s] holds five underscores in a row, as a test. *)
Fixpoint holds_separator (s : str) : bool :=
  match s with
  | [] => false
  | _ :: s' =>
      (5 <=? length (leading is_underscore s)) || holds_separator s'
  end.

(** [s] holds no five underscores in a row. *)
Definition no_separator (s : str) : Prop :=
  forall before after, s <> before ++ repeat underscore 5 ++ after.

(** [s] begins, or ends, with a character that [strip] keeps, unless it is
    empty. *)
Definition starts_solid (s : str) : Prop :=
  match s with
  | [] => True
  | c :: _ => is_space c = false
  end.

Definition ends_solid (s : str) : Prop := starts_solid (rev s).

(** The ancestor of a title [n] steps up the parent relation. *)
Fixpoint nth_parent (title_hierarchy : dict str) (n : nat) (title_id : str)
    : str :=
  match n with
  | O => title_id
  | S n' => nth_parent title_hierarchy n' (parent_of title_hierarchy title_id)
  end.

(** The ancestors of a title: itself, its parent, and so on, [n] of
    them. *)
Fixpoint ancestors (title_hierarchy : dict str) (n : nat) (title_id : str)
    : list str :=
  match n with
  | O => []
  | S n' =>
      title_id :: ancestors title_hierarchy n' (parent_of title_hierarchy title_id)
  end.

(** A title that is [n] steps below the sentinel, itself and its ancestors
    up to there being among [ids]. *)
Definition below_root (title_hierarchy : dict str) (ids : list str)
    (n : nat) (title_id : str) : Prop :=
  nth_parent title_hierarchy n title_id = root_id
  /\ Forall (fun x => In x ids) (ancestors title_hierarchy n title_id).

(** The title data without the titles that [drop] selects. *)
Definition without (drop : str -> bool) (title_data : dict pyval)
    : dict pyval :=
  filter (fun kv => negb (drop (fst kv))) title_data.

(** A cell that holds text. *)
Definition is_text (v : pyval) : Prop :=
  match v with
  | PyStr _ => True
  | _ => False
  end.

(** A cell that [_parse_json_field] accepts: text, or nothing. *)
Definition text_or_null (v : pyval) : Prop :=
  match v with
  | PyStr _ | PyNone | PyNaN => True
  | PyInt _ | PyFloat _ => False
  end.

(** The four fields of a page of the output. *)
Definition page_fields : list string :=
  ["page_id"; "page_number"; "body"; "footnote"]%string.

(** [s] begins with [prefix]. *)
Fixpoint starts_with (prefix s : str) : bool :=
  match prefix, s with
  | [], _ => true
  | c :: prefix', d :: s' => N.eqb c d && starts_with prefix' s'
  | _ :: _, [] => false
  end.

(** The pattern begins with a literal [<]. *)
Definition opens_with_lt (pat : pattern) : bool :=
  match pat with
  | Lit c :: _ => N.eqb c lt_sign
  | _ => false
  end.

(** No [<] of [s] is followed by the character [c]. *)
Fixpoint no_open (c : N) (s : str) : bool :=
  match s with
  | [] => true
  | a :: s' =>
      (if N.eqb a lt_sign
       then match s' with
            | b :: _ => negb (N.eqb b c)
            | [] => true
            end
       else true)
      && no_open c s'
  end.

(** The heading span [<span data-type="title" id=toc-N>TEXT</span>]. *)
Definition heading_span (n text : str) : str :=
  u "<span data-type=" ++ [34%N] ++ u "title" ++ [34%N] ++ u " id=toc-"
    ++ n ++ [gt_sign] ++ text ++ u "</span>".

(** Text without [<] and without carriage return. *)
Definition plain_text (s : str) : bool :=
  forallb (fun c => negb (N.eqb c lt_sign) && negb (N.eqb c cr)) s.

(** Text without [<] and [>]. *)
Definition no_bracket (s : str) : bool :=
  forallb (fun c => negb (N.eqb c lt_sign) && negb (N.eqb c gt_sign)) s.

(** The page that a record gives when the page structure says nothing
    about it: the page number is the page id. *)
Definition page_without_structure (unicode_digit : N -> option N)
    (self : builder) (title_hierarchy : dict str) (r : page_row) : page :=
  let page_id :=
    py_str (match row_PageID r with Some v => v | None => PyStr [] end) in
  let separated :=
    separate_body_footnote
      (match row_body r with Some v => v | None => PyStr [] end)
      (match row_foot r with Some v => v | None => PyStr [] end) in
  [("page_id", page_id); ("page_number", page_id);
   ("body", process_text unicode_digit self (PyStr (fst separated)) title_hierarchy);
   ("footnote", process_text unicode_digit self (PyStr (snd separated)) title_hierarchy)
  ]%string.

(** ** Sample inputs *)

(** A runtime whose only decimal digits are the ASCII ones, and whose
    [json.loads] accepts nothing. *)
Definition ascii_digits : N -> option N := fun _ => None.
Definition no_json : str -> option unit := fun _ => None.
Definition unit_truthy : unit -> bool := fun _ => false.

(** A builder that finds no file at all. *)
Definition bare_builder (toc : bool) : builder :=
  {| generate_toc := toc;
     frames := 900;
     book_content_csv := fun _ => None;
     title_csv := fun _ => None;
     book_db := fun _ => None |}.

Definition no_metadata : metadata :=
  {| books_lookup := [];
     authors_lookup := [];
     categories_lookup := [];
     book_meta_lookup := [];
     author_meta_lookup := [] |}.

(** The single page of the end-to-end example of the specification, with
    page id 12. *)
Definition hello_page : page_row :=
  {| row_PageID := Some (PyInt 12);
     row_body := Some (PyStr (u "Hello"));
     row_foot := Some (PyStr []) |}.

(** A builder that finds the content of one book, a single page, and
    nothing else: no per-book database and no title data. *)
Definition hello_builder (toc : bool) : builder :=
  {| generate_toc := toc;
     frames := 900;
     book_content_csv := fun _ => Some [hello_page];
     title_csv := fun _ => None;
     book_db := fun _ => None |}.

Definition hello_metadata : metadata :=
  {| books_lookup := [(1%Z, [("book_name"%string, PyStr (u "Book"))])];
     authors_lookup := [];
     categories_lookup := [];
     book_meta_lookup := [];
     author_meta_lookup := [] |}.

(** A second page, and a page structure that puts the two pages in two
    parts. *)
Definition second_page : page_row :=
  {| row_PageID := Some (PyInt 13);
     row_body := Some (PyStr (u "World"));
     row_foot := None |}.

Definition two_parts : dict page_info :=
  [(u "12", {| info_part := Some (u "1"); info_page := Some (PyInt 1) |});
   (u "13", {| info_part := Some (u "2"); info_page := Some (PyInt 2) |})].

(** A book that cites author 7 and has author 5 as its main author, with
    a PDF field that is no JSON; and the metadata in which it is book 1:
    author 5 is in the authors table, author 7 is not. *)
Definition cited_book : row :=
  [("book_name", PyStr (u "Book")); ("main_author", PyInt 5);
   ("authors", PyStr (u "7, 5")); ("pdf_links", PyStr (u "{oops"))]%string.

Definition cited_metadata : metadata :=
  {| books_lookup := [(1%Z, cited_book)];
     authors_lookup := [(5%Z, [("author_name"%string, PyStr (u "Author"))])];
     categories_lookup := [];
     book_meta_lookup := [(u "1", u " first " ++ [cr; cr] ++ u "second")];
     author_meta_lookup := [(u "5", u "born")] |}.

(** The same book with its main author given as text. *)
Definition texted_book : row :=
  [("authors", PyStr (u "5")); ("main_author", PyStr (u "5"))]%string.

(** A per-book database and a titles file in which an id comes twice, and
    a builder that finds them. *)
Definition twice_database : database :=
  {| page_table :=
       Some [(PyInt 12, {| info_part := Some (u "1");
                           info_page := Some (PyInt 1) |});
             (PyInt 12, {| info_part := Some (u "2");
                           info_page := Some (PyInt 2) |})];
     title_table :=
       Some [{| title_row_id := PyInt 8; title_row_page := PyInt 3;
                title_row_parent := Some (PyInt 0) |};
             {| title_row_id := PyInt 8; title_row_page := PyInt 4;
                title_row_parent := Some (PyInt 7) |}] |}.

Definition twice_titles : list (pyval * pyval) :=
  [(PyStr (u "1-8"), PyStr (u "Old")); (PyStr (u "8"), PyStr (u "Undashed"));
   (PyStr (u "2-8"), PyStr (u "New")); (PyStr (u "1-9"), PyNaN)].

Definition twice_builder : builder :=
  {| generate_toc := true;
     frames := 900;
     book_content_csv := fun _ => Some [hello_page];
     title_csv := fun _ => Some twice_titles;
     book_db := fun _ => Some twice_database |}.

(** A page whose body has a line that ends in carriage return and line
    feed. *)
Definition crlf_page : page_row :=
  {| row_PageID := Some (PyInt 14);
     row_body := Some (PyStr (u "one" ++ [cr; lf] ++ u "<b>two</b>"));
     row_foot := Some (PyStr (u "note" ++ [cr])) |}.

(** * Properties *)

(** ** Strings *)

Lemma str_eqb_spec (a b : str) : reflect (a = b) (str_eqb a b).
Proof.
  revert b; induction a as [|x a IH]; intros [|y b]; simpl;
    try (constructor; congruence).
  destruct (N.eqb_spec x y) as [->|Hxy]; simpl.
  - destruct (IH b) as [->|Hab]; constructor; congruence.
  - constructor; congruence.
Qed.

Lemma str_eqb_refl (a : str) : str_eqb a a = true.
Proof. destruct (str_eqb_spec a a); congruence. Qed.

Lemma str_eqb_eq (a b : str) : str_eqb a b = true <-> a = b.
Proof. destruct (str_eqb_spec a b); split; congruence. Qed.

Lemma str_eqb_neq (a b : str) : str_eqb a b = false <-> a <> b.
Proof. destruct (str_eqb_spec a b); split; congruence. Qed.

Lemma mem_In (x : str) (xs : list str) : mem x xs = true <-> In x xs.
Proof.
  unfold mem; rewrite existsb_exists; split.
  - intros (y & Hy & E); apply str_eqb_eq in E; now subst.
  - intros H; exists x; split; [assumption | apply str_eqb_refl].
Qed.

Lemma mem_not_In (x : str) (xs : list str) : mem x xs = false <-> ~ In x xs.
Proof.
  rewrite <- mem_In; destruct (mem x xs); split; congruence.
Qed.

Lemma lstrip_spaces (w s : str) :
  forallb is_space w = true -> lstrip (w ++ s) = lstrip s.
Proof.
  induction w as [|c w IH]; simpl; intros H; [reflexivity|].
  apply andb_true_iff in H as [Hc Hw]; rewrite Hc; auto.
Qed.

Lemma lstrip_solid (s : str) : starts_solid s -> lstrip s = s.
Proof. destruct s as [|c s]; simpl; intros H; [|rewrite H]; reflexivity. Qed.

Lemma lstrip_split (s : str) :
  exists w, forallb is_space w = true /\ s = w ++ lstrip s
            /\ starts_solid (lstrip s).
Proof.
  induction s as [|c s (w & Hw & Hs & Hl)]; simpl.
  - exists []; simpl; auto.
  - destruct (is_space c) eqn:Hc.
    + exists (c :: w); simpl; rewrite Hc, Hw; repeat split; auto.
      now rewrite <- Hs.
    + exists []; simpl; auto.
Qed.

Lemma forallb_rev {A} (p : A -> bool) (l : list A) :
  forallb p (rev l) = forallb p l.
Proof.
  induction l as [|x l IH]; simpl; [reflexivity|].
  rewrite forallb_app, IH; simpl; rewrite andb_true_r; apply andb_comm.
Qed.

Lemma rstrip_spaces (s w : str) :
  forallb is_space w = true -> rstrip (s ++ w) = rstrip s.
Proof.
  intros H; unfold rstrip; rewrite rev_app_distr, lstrip_spaces; auto.
  now rewrite forallb_rev.
Qed.

Lemma rstrip_solid (s : str) : ends_solid s -> rstrip s = s.
Proof.
  intros H; unfold rstrip; rewrite lstrip_solid by exact H; apply rev_involutive.
Qed.

Lemma rstrip_split (s : str) :
  exists w, forallb is_space w = true /\ s = rstrip s ++ w
            /\ ends_solid (rstrip s).
Proof.
  destruct (lstrip_split (rev s)) as (w & Hw & Hs & Hl).
  exists (rev w); unfold rstrip, ends_solid; repeat split.
  - now rewrite forallb_rev.
  - rewrite <- rev_app_distr, <- Hs; symmetry; apply rev_involutive.
  - now rewrite rev_involutive.
Qed.

Lemma starts_solid_app (a b : str) :
  starts_solid a -> a <> [] -> starts_solid (a ++ b).
Proof. destruct a; simpl; congruence. Qed.

Lemma ends_solid_app (a b : str) :
  ends_solid b -> b <> [] -> ends_solid (a ++ b).
Proof.
  unfold ends_solid; intros H Hb; rewrite rev_app_distr.
  apply starts_solid_app; auto.
  intros E; apply Hb; rewrite <- (rev_involutive b), E; reflexivity.
Qed.

Lemma strip_spaces_l (w s : str) :
  forallb is_space w = true -> strip (w ++ s) = strip s.
Proof. intros H; unfold strip; now rewrite lstrip_spaces. Qed.

Lemma lstrip_all_spaces (w : str) : forallb is_space w = true -> lstrip w = [].
Proof.
  intros H; rewrite <- (app_nil_r w); now rewrite lstrip_spaces.
Qed.

Lemma strip_spaces_r (s w : str) :
  forallb is_space w = true -> strip (s ++ w) = strip s.
Proof.
  intros H; unfold strip.
  destruct (lstrip_split s) as (v & Hv & Hs & Hl).
  rewrite Hs at 1; rewrite <- app_assoc, lstrip_spaces by exact Hv.
  destruct (lstrip s) as [|c t] eqn:E.
  - simpl; now rewrite lstrip_all_spaces.
  - rewrite lstrip_solid by (apply starts_solid_app; [exact Hl | discriminate]).
    now apply rstrip_spaces.
Qed.

Lemma rstrip_keeps_start (s : str) : starts_solid s -> starts_solid (rstrip s).
Proof.
  intros H; destruct (rstrip_split s) as (w & _ & Hs & _).
  destruct (rstrip s) as [|c t]; simpl; [exact I|].
  rewrite Hs in H; exact H.
Qed.

Lemma strip_starts_solid (s : str) : starts_solid (strip s).
Proof.
  unfold strip; apply rstrip_keeps_start.
  now destruct (lstrip_split s) as (w & _ & _ & H).
Qed.

Lemma strip_ends_solid (s : str) : ends_solid (strip s).
Proof.
  unfold strip; now destruct (rstrip_split (lstrip s)) as (w & _ & _ & H).
Qed.

Lemma strip_solid (s : str) : starts_solid s -> ends_solid s -> strip s = s.
Proof.
  intros H1 H2; unfold strip; rewrite lstrip_solid by exact H1.
  now apply rstrip_solid.
Qed.

Lemma strip_idempotent (s : str) : strip (strip s) = strip s.
Proof. apply strip_solid; [apply strip_starts_solid | apply strip_ends_solid]. Qed.

Lemma strip_lstrip (s : str) : strip (lstrip s) = strip s.
Proof.
  destruct (lstrip_split s) as (w & Hw & Hs & _).
  rewrite Hs at 2; now rewrite strip_spaces_l.
Qed.

Lemma strip_rstrip (s : str) : strip (rstrip s) = strip s.
Proof.
  destruct (rstrip_split s) as (w & Hw & Hs & _).
  rewrite Hs at 2; now rewrite strip_spaces_r.
Qed.

(** ** The matcher *)

Lemma leading_split (p : N -> bool) (s : str) :
  s = leading p s ++ after_leading p s.
Proof.
  induction s as [|c s IH]; simpl; [reflexivity|].
  destruct (p c); simpl; [now rewrite <- IH | reflexivity].
Qed.

Lemma leading_all (p : N -> bool) (s : str) : forallb p (leading p s) = true.
Proof.
  induction s as [|c s IH]; simpl; [reflexivity|].
  destruct (p c) eqn:E; simpl; [now rewrite E | reflexivity].
Qed.

Lemma after_leading_stops (p : N -> bool) (s : str) (d : N) (r : str) :
  after_leading p s = d :: r -> p d = false.
Proof.
  induction s as [|c s IH]; simpl; [discriminate|].
  destruct (p c) eqn:E; [exact IH | congruence].
Qed.

Lemma leading_stops (p : N -> bool) (w : str) (d : N) (z : str) :
  forallb p w = true -> p d = false -> leading p (w ++ d :: z) = w.
Proof.
  induction w as [|c w IH]; simpl; intros Hw Hd.
  - now rewrite Hd.
  - apply andb_true_iff in Hw as [Hc Hw]; rewrite Hc, IH; auto.
Qed.

(** A greedy repetition that can stop at the end of the run [w] and go on
    from there takes the whole run. *)
Lemma rep_greedy_run {A} (p : N -> bool) (k : str -> option A)
    (w s : str) (a : A) (min : nat) :
  forallb p w = true -> stops p s -> k s = Some a -> min <= length w ->
  rep_greedy p k min (w ++ s) = Some (w, a).
Proof.
  revert min; induction w as [|c w IH]; simpl; intros min Hw Hs Hk Hmin.
  - assert (min = 0) as -> by lia.
    destruct s as [|x s]; simpl in *; [now rewrite Hk|].
    now rewrite Hs, Hk.
  - apply andb_true_iff in Hw as [Hc Hw]; rewrite Hc.
    rewrite IH; auto; lia.
Qed.

(** A run shorter than [min] gives no match. *)
Lemma rep_greedy_short {A} (p : N -> bool) (k : str -> option A)
    (s : str) (min : nat) :
  length (leading p s) < min -> rep_greedy p k min s = None.
Proof.
  revert min; induction s as [|c s IH]; simpl; intros min H.
  - destruct min; [lia | reflexivity].
  - destruct (p c); simpl in H.
    + destruct min as [|m]; [lia|]; simpl.
      rewrite IH by lia; reflexivity.
    + destruct min; [lia | reflexivity].
Qed.

Lemma underscores_repeat (w : str) :
  forallb is_underscore w = true -> w = repeat underscore (length w).
Proof.
  induction w as [|c w IH]; simpl; intros H; [reflexivity|].
  apply andb_true_iff in H as [Hc Hw].
  apply N.eqb_eq in Hc; subst c; now rewrite <- IH.
Qed.

Lemma no_separator_tail (c : N) (s : str) :
  no_separator (c :: s) -> no_separator s.
Proof.
  intros H before after E; apply (H (c :: before) after); now rewrite E.
Qed.

Lemma no_separator_suffix (w s : str) : no_separator (w ++ s) -> no_separator s.
Proof.
  induction w as [|c w IH]; simpl; intros H; [exact H|].
  apply IH; eapply no_separator_tail; exact H.
Qed.

(** Within text that holds no separator and does not end with an
    underscore, no run of underscores reaches five, whatever follows. *)
Lemma short_run (x y : str) :
  no_separator x -> last x 0%N <> underscore -> x <> [] ->
  length (leading is_underscore (x ++ y)) < 5.
Proof.
  intros Hsep Hlast Hx.
  pose proof (leading_split is_underscore x) as Hsplit.
  pose proof (leading_all is_underscore x) as Hall.
  destruct (after_leading is_underscore x) as [|d r] eqn:Er.
  - exfalso; apply Hlast.
    rewrite app_nil_r in Hsplit; rewrite Hsplit in Hx |- *.
    apply underscores_repeat in Hall; rewrite Hall in Hx |- *.
    destruct (length (leading is_underscore x)) as [|m]; [now contradiction Hx|].
    clear; induction m as [|m IH]; simpl in *; auto.
  - apply after_leading_stops in Er as Hd.
    rewrite Hsplit, <- app_assoc; simpl.
    rewrite leading_stops by assumption.
    destruct (Nat.lt_ge_cases (length (leading is_underscore x)) 5) as [Hlt|Hge];
      [exact Hlt|exfalso].
    apply underscores_repeat in Hall.
    apply (Hsep [] (repeat underscore (length (leading is_underscore x) - 5) ++ d :: r)).
    rewrite Hsplit at 1; rewrite Hall at 1.
    replace (length (leading is_underscore x))
      with (5 + (length (leading is_underscore x) - 5)) at 1 by lia.
    now rewrite repeat_app, <- app_assoc.
Qed.

Lemma match_separator (s : str) :
  match_here separator_pattern s
  = if 5 <=? length (leading is_underscore s)
    then Some ([], after_leading is_underscore s) else None.
Proof.
  change (match_here separator_pattern s)
    with (match rep_greedy is_underscore (match_here []) 5 s with
          | Some (w, (groups, rest)) => Some (groups, rest)
          | None => None
          end).
  destruct (Nat.leb_spec 5 (length (leading is_underscore s))) as [E|E].
  - rewrite (leading_split is_underscore s) at 1.
    rewrite (@rep_greedy_run _ is_underscore (match_here []) _ _
               ([], after_leading is_underscore s)); auto.
    + apply leading_all.
    + destruct (after_leading is_underscore s) eqn:Er; simpl; auto.
      eapply after_leading_stops; eauto.
  - now rewrite rep_greedy_short.
Qed.

Lemma re_search_unfold (pat : pattern) (s : str) :
  re_search pat s
  = match match_here pat s with
    | Some (groups, rest) => Some ([], groups, rest)
    | None =>
        match s with
        | c :: s' =>
            match re_search pat s' with
            | Some (before, groups, rest) => Some (c :: before, groups, rest)
            | None => None
            end
        | [] => None
        end
    end.
Proof. destruct s; reflexivity. Qed.

(** [re.search] finds the first run of five underscores or more, whole. *)
Lemma search_separator (before after : str) (n : nat) :
  no_separator before -> last before 0%N <> underscore ->
  hd 0%N after <> underscore -> 5 <= n ->
  re_search separator_pattern (before ++ repeat underscore n ++ after)
  = Some (before, [], after).
Proof.
  intros Hsep Hlast Hhd Hn.
  assert (Hstop : stops is_underscore after).
  { destruct after as [|c a]; simpl in *; [exact I|]. now apply N.eqb_neq. }
  assert (Hrun : forallb is_underscore (repeat underscore n) = true).
  { clear; induction n; simpl; auto. }
  induction before as [|c b IH].
  - cbn [app]; rewrite re_search_unfold, match_separator.
    destruct after as [|d a].
    + rewrite app_nil_r.
      replace (leading is_underscore (repeat underscore n)) with (repeat underscore n).
      2:{ clear; induction n; simpl; congruence. }
      replace (after_leading is_underscore (repeat underscore n)) with (@nil N).
      2:{ clear; induction n; simpl; congruence. }
      rewrite repeat_length; apply Nat.leb_le in Hn; now rewrite Hn.
    + simpl in Hstop.
      rewrite leading_stops by assumption.
      replace (after_leading is_underscore (repeat underscore n ++ d :: a)) with (d :: a).
      2:{ clear - Hstop; induction n; simpl; [now rewrite Hstop | assumption]. }
      rewrite repeat_length; apply Nat.leb_le in Hn; now rewrite Hn.
  - change ((c :: b) ++ repeat underscore n ++ after)
      with (c :: (b ++ repeat underscore n ++ after)).
    rewrite re_search_unfold.
    change (c :: (b ++ repeat underscore n ++ after))
      with ((c :: b) ++ repeat underscore n ++ after).
    rewrite match_separator.
    pose proof (@short_run (c :: b) (repeat underscore n ++ after) Hsep Hlast) as Hshort.
    apply Nat.leb_gt in Hshort; [|discriminate]; rewrite Hshort.
    rewrite IH; [reflexivity | eapply no_separator_tail; eauto |].
    destruct b; simpl in *; [cbv; discriminate | exact Hlast].
Qed.

(** ** Footnote separator *)

Lemma text_of_str (s : str) : text_of (PyStr s) = s.
Proof. destruct s; reflexivity. Qed.

Lemma last_app_solid (w s : str) (d : N) : s <> [] -> last (w ++ s) d = last s d.
Proof.
  intros Hs; induction w as [|c w IH]; simpl; [reflexivity|].
  rewrite IH; destruct (w ++ s) eqn:E; [|reflexivity].
  apply app_eq_nil in E as [_ E]; contradiction.
Qed.

Lemma no_underscore_no_separator (s : str) :
  forallb (fun c => negb (is_underscore c)) s = true -> no_separator s.
Proof.
  intros H before after E; rewrite E in H.
  rewrite !forallb_app in H; simpl in H.
  rewrite andb_false_r in H; discriminate.
Qed.

(** The foot, stripped, is its text from the first kept character to the
    last one; the run of underscores stays where it is. *)
Lemma strip_around_run (before after : str) (n : nat) :
  0 < n ->
  strip (before ++ repeat underscore n ++ after)
  = lstrip before ++ repeat underscore n ++ rstrip after.
Proof.
  intros Hn.
  destruct (lstrip_split before) as (w1 & Hw1 & Hb & Hsb).
  destruct (rstrip_split after) as (w2 & Hw2 & Ha & Hsa).
  assert (Hrun : repeat underscore n = underscore :: repeat underscore (n - 1)).
  { destruct n; [lia|]; simpl; now rewrite Nat.sub_0_r. }
  assert (Hrev : rev (repeat underscore n) = underscore :: repeat underscore (n - 1)).
  { rewrite <- Hrun; clear; induction n; simpl; [reflexivity|].
    rewrite IHn; clear; induction n; simpl; congruence. }
  rewrite Hb at 1; rewrite Ha at 1.
  rewrite <- app_assoc, strip_spaces_l by exact Hw1.
  replace (lstrip before ++ repeat underscore n ++ rstrip after ++ w2)
    with ((lstrip before ++ repeat underscore n ++ rstrip after) ++ w2)
    by now rewrite <- !app_assoc.
  rewrite strip_spaces_r by exact Hw2.
  apply strip_solid.
  - destruct (lstrip before) as [|c b]; [|exact Hsb].
    simpl; rewrite Hrun; reflexivity.
  - rewrite app_assoc.
    destruct (rstrip after) as [|c a] eqn:E.
    + rewrite app_nil_r; unfold ends_solid.
      rewrite rev_app_distr, Hrev; reflexivity.
    + apply ends_solid_app; [exact Hsa | discriminate].
Qed.

Lemma leading_underscores (n : nat) (s : str) :
  n <= length (leading is_underscore (repeat underscore n ++ s)).
Proof.
  induction n as [|n IH]; simpl; [lia|].
  apply le_n_S, IH.
Qed.

(** A foot that holds five underscores in a row has a first run of five
    underscores or more, taken whole. *)
Lemma first_run_exists (foot : str) :
  (exists b a, foot = b ++ repeat underscore 5 ++ a) ->
  exists before n after,
    foot = before ++ repeat underscore n ++ after
    /\ 5 <= n
    /\ no_separator before
    /\ last before 0%N <> underscore
    /\ hd 0%N after <> underscore.
Proof.
  induction foot as [|c f IH]; intros (b & a & Hfoot).
  - destruct b; discriminate.
  - destruct (Nat.lt_ge_cases (length (leading is_underscore (c :: f))) 5)
      as [Hshort|Hlong].
    + destruct b as [|c' b].
      { exfalso; rewrite Hfoot in Hshort.
        pose proof (leading_underscores 5 a); simpl app in *; lia. }
      injection Hfoot as <- Hf.
      assert (Hhas : exists b0 a0, f = b0 ++ repeat underscore 5 ++ a0)
        by (exists b, a; exact Hf).
      destruct (IH Hhas) as (before & n & after & Hf' & Hn & Hsep & Hlast & Hhd).
      exists (c :: before), n, after; repeat split; auto.
      * now rewrite Hf'.
      * intros p q E; destruct p as [|c' p].
        -- exfalso; simpl in E; injection E as Ec Eb.
           rewrite Hf', Ec, Eb in Hshort; simpl in Hshort; lia.
        -- injection E as _ E; exact (Hsep p q E).
      * destruct before as [|d before]; [|exact Hlast].
        simpl; intros Ec; rewrite Hf', Ec in Hshort.
        pose proof (leading_underscores (S n) after) as Hrun.
        change (repeat underscore (S n) ++ after)
          with (underscore :: [] ++ repeat underscore n ++ after) in Hrun.
        lia.
    + exists [], (length (leading is_underscore (c :: f))),
        (after_leading is_underscore (c :: f)); repeat split; auto.
      * rewrite <- underscores_repeat by apply leading_all.
        apply leading_split.
      * intros p q E; destruct p; discriminate.
      * cbv; discriminate.
      * destruct (after_leading is_underscore (c :: f)) as [|d r] eqn:E;
          [cbv; discriminate|].
        apply after_leading_stops in E; simpl.
        now apply N.eqb_neq.
Qed.

(** C4, as the code has it: when the body, once stripped, is not empty,
    footnote separation returns the stripped body and the stripped foot, and
    looks for no separator in the foot. *)
Theorem separator_keeps_present_body (raw_body raw_foot : pyval) :
  strip (text_of raw_body) <> [] ->
  separate_body_footnote raw_body raw_foot
  = (strip (text_of raw_body), strip (text_of raw_foot)).
Proof.
  intros H; unfold separate_body_footnote.
  destruct (strip (text_of raw_body)); [contradiction | reflexivity].
Qed.

(** C5: with an empty body, a foot made of [before], a run of five
    underscores or more, and [after], where the run is the first such run
    of the foot and is whole, is split at that run: the body is [before]
    stripped and the footnote is [after] stripped, whatever runs [after]
    holds.  By [first_run_exists] every foot that holds five underscores
    in a row is of this form. *)
Theorem separator_splits_at_first_run (raw_body : pyval)
    (before after : str) (n : nat) :
  strip (text_of raw_body) = [] ->
  5 <= n ->
  no_separator before ->
  last before 0%N <> underscore ->
  hd 0%N after <> underscore ->
  separate_body_footnote raw_body
    (PyStr (before ++ repeat underscore n ++ after))
  = (strip before, strip after).
Proof.
  intros Hbody Hn Hsep Hlast Hhd.
  unfold separate_body_footnote.
  rewrite Hbody, text_of_str, strip_around_run by lia.
  destruct (lstrip_split before) as (w1 & Hw1 & Hb & Hsb).
  destruct (rstrip_split after) as (w2 & Hw2 & Ha & Hsa).
  assert (Hfound :
    re_search separator_pattern
      (lstrip before ++ repeat underscore n ++ rstrip after)
    = Some (lstrip before, [], rstrip after)).
  { apply search_separator; auto.
    - apply no_separator_suffix with (w := w1); now rewrite <- Hb.
    - destruct (lstrip before) as [|c b] eqn:E; [cbv; discriminate|].
      rewrite Hb in Hlast; now rewrite last_app_solid in Hlast by discriminate.
    - destruct (rstrip after) as [|c a] eqn:E; [cbv; discriminate|].
      rewrite Ha in Hhd; exact Hhd. }
  unfold re_split1; rewrite Hfound.
  destruct (lstrip before ++ repeat underscore n ++ rstrip after) eqn:E.
  - exfalso. apply app_eq_nil in E as [_ E]; apply app_eq_nil in E as [E _].
    destruct n; [lia | discriminate].
  - simpl; now rewrite strip_lstrip, strip_rstrip.
Qed.

Lemma separator_keeps_present_body_witness :
  strip (text_of (PyStr (u " Hello"))) <> []
  /\ separate_body_footnote (PyStr (u " Hello")) (PyStr (u "x "))
     = (u "Hello", u "x").
Proof.
  split; [vm_compute; discriminate|].
  apply (@separator_keeps_present_body (PyStr (u " Hello")) (PyStr (u "x "))).
  vm_compute; discriminate.
Defined.

(** C4, as stated, fails: a body and a foot with blanks around them are
    not returned unchanged. *)
Lemma separator_changes_present_body :
  u " Hello" <> []
  /\ separate_body_footnote (PyStr (u " Hello")) (PyStr (u "x "))
     <> (u " Hello", u "x ").
Proof. split; vm_compute; discriminate. Qed.

Lemma separator_splits_at_first_run_witness :
  separate_body_footnote (PyStr [])
    (PyStr (u "Line A" ++ repeat underscore 5 ++ u "Line B___Line C"))
  = (strip (u "Line A"), strip (u "Line B___Line C")).
Proof.
  apply (@separator_splits_at_first_run (PyStr []) (u "Line A")
           (u "Line B___Line C") 5).
  - reflexivity.
  - lia.
  - apply no_underscore_no_separator; reflexivity.
  - vm_compute; discriminate.
  - vm_compute; discriminate.
Defined.

(** The example of C5, evaluated. *)
Example separator_example :
  separate_body_footnote (PyStr []) (PyStr (u "Line A_____Line B___Line C"))
  = (u "Line A", u "Line B___Line C").
Proof. reflexivity. Qed.

(** ** Author ids *)



(** ** Grouping by label *)

Lemma str_eqb_sym (a b : str) : str_eqb a b = str_eqb b a.
Proof.
  destruct (str_eqb_spec a b) as [->|H]; [now rewrite str_eqb_refl|].
  symmetry; apply str_eqb_neq; congruence.
Qed.

Lemma first_seen_In (x : str) (labels : list str) :
  In x (first_seen labels) <-> In x labels.
Proof.
  induction labels as [|l labels IH]; simpl; [tauto|].
  rewrite filter_In, IH.
  destruct (str_eqb_spec x l) as [->|H]; simpl; intuition congruence.
Qed.

Lemma first_seen_NoDup (labels : list str) : NoDup (first_seen labels).
Proof.
  induction labels as [|l labels IH]; simpl; constructor.
  - rewrite filter_In, str_eqb_refl; simpl; intros [_ H]; discriminate.
  - now apply NoDup_filter.
Qed.

Lemma first_seen_snoc (labels : list str) (k : str) :
  first_seen (labels ++ [k])
  = if mem k labels then first_seen labels else first_seen labels ++ [k].
Proof.
  induction labels as [|l labels IH]; simpl; [reflexivity|].
  rewrite IH; destruct (str_eqb_spec k l) as [->|Hkl]; simpl.
  - destruct (mem l labels); [reflexivity|].
    rewrite filter_app; simpl; rewrite str_eqb_refl; simpl.
    now rewrite app_nil_r.
  - destruct (mem k labels); [reflexivity|].
    rewrite filter_app; simpl.
    apply str_eqb_neq in Hkl; now rewrite Hkl.
Qed.

Lemma filed_under_snoc {V} (l : str) (x : str * V) (items : list (str * V)) :
  filed_under l (items ++ [x])
  = filed_under l items ++ (if str_eqb (fst x) l then [snd x] else []).
Proof.
  unfold filed_under; rewrite filter_app, map_app; simpl.
  now destruct (str_eqb (fst x) l).
Qed.

Lemma filed_under_absent {V} (l : str) (items : list (str * V)) :
  ~ In l (map fst items) -> filed_under l items = [].
Proof.
  unfold filed_under; induction items as [|[k v] items IH]; simpl; intros H;
    [reflexivity|].
  destruct (str_eqb_spec k l) as [->|Hkl]; [tauto|]; apply IH; tauto.
Qed.

Lemma dict_append_labels {V} (g : str -> list V) (labels : list str)
    (k : str) (v : V) :
  NoDup labels ->
  dict_append (map (fun l => (l, g l)) labels) k v
  = map (fun l => (l, g l ++ (if str_eqb k l then [v] else []))) labels
    ++ (if mem k labels then [] else [(k, [v])]).
Proof.
  induction labels as [|l labels IH]; simpl; intros Hnd; [reflexivity|].
  inversion Hnd as [|? ? Hl Hnd']; subst.
  rewrite (str_eqb_sym k l).
  destruct (str_eqb_spec l k) as [->|Hlk]; simpl.
  - rewrite app_nil_r; f_equal.
    apply map_ext_in; intros l' Hl'.
    destruct (str_eqb_spec k l') as [->|_]; [contradiction|].
    now rewrite app_nil_r.
  - rewrite app_nil_r at 1; now rewrite IH.
Qed.

(** Filing items one after the other under their labels gives the labels
    in first-seen order, each with its items in the order they came. *)
Lemma grouping {R V} (f : R -> str * V) (rows : list R) :
  fold_left (fun d r => dict_append d (fst (f r)) (snd (f r))) rows []
  = map (fun l => (l, filed_under l (map f rows)))
        (first_seen (map fst (map f rows))).
Proof.
  induction rows as [|r rows IH] using rev_ind; [reflexivity|].
  rewrite fold_left_app; simpl; rewrite IH.
  rewrite dict_append_labels by apply first_seen_NoDup.
  rewrite !map_app; simpl; rewrite first_seen_snoc.
  assert (Hmem : mem (fst (f r)) (first_seen (map fst (map f rows)))
                 = mem (fst (f r)) (map fst (map f rows))).
  { destruct (mem (fst (f r)) (map fst (map f rows))) eqn:E.
    - apply mem_In; apply first_seen_In; now apply mem_In.
    - apply mem_not_In; rewrite first_seen_In; now apply mem_not_In. }
  rewrite Hmem.
  assert (Hsame : forall labels,
    map (fun l => (l, filed_under l (map f rows)
                      ++ (if str_eqb (fst (f r)) l then [snd (f r)] else [])))
        labels
    = map (fun l => (l, filed_under l (map f rows ++ [f r]))) labels).
  { intros labels; apply map_ext; intros l.
    now rewrite filed_under_snoc. }
  rewrite Hsame.
  destruct (mem (fst (f r)) (map fst (map f rows))) eqn:E.
  - now rewrite app_nil_r.
  - rewrite map_app; simpl; do 2 f_equal.
    rewrite filed_under_snoc, str_eqb_refl, filed_under_absent; [reflexivity|].
    now apply mem_not_In.
Qed.

(** ** Document assembly *)

Section DocumentProperties.
Variable unicode_digit : N -> option N.
Variable json : Type.
Variable json_loads : str -> option json.
Variable json_truthy : json -> bool.
Variable empty_object : json.

Abbreviation build :=
  (build_book_json unicode_digit json_loads json_truthy empty_object).
Abbreviation page_data := (page_data_of unicode_digit).

Lemma parts_list_grouped (self : builder)
    (title_hierarchy : dict str) (page_structure : dict page_info)
    (book_content : list page_row) :
  parts_list_of
    (pages_by_part unicode_digit self title_hierarchy page_structure book_content)
  = map (fun l =>
           {| part_name := l;
              part_pages :=
                filed_under l
                  (map (page_data self title_hierarchy page_structure)
                     book_content) |})
        (first_seen
           (map fst
              (map (page_data self title_hierarchy page_structure)
                 book_content))).
Proof.
  unfold parts_list_of, pages_by_part.
  rewrite (grouping (page_data self title_hierarchy page_structure)).
  now rewrite map_map.
Qed.

(** C7: the parts list holds one group per part label, the labels in the
    order they are first seen among the page records (the empty label is a
    label like any other), and each group holds the pages of its label in
    the order of the records, every record once; so the labels
    ["", "1", "", "2"] give the groups ["", "1", "2"]. *)
Theorem pages_grouped_in_first_seen_order (self : builder)
    (title_hierarchy : dict str) (page_structure : dict page_info)
    (book_content : list page_row) :
  let filed := map (page_data self title_hierarchy page_structure) book_content in
  parts_list_of
    (pages_by_part unicode_digit self title_hierarchy page_structure book_content)
  = map (fun l => {| part_name := l; part_pages := filed_under l filed |})
        (first_seen (map fst filed))
  /\ first_seen [u ""; u "1"; u ""; u "2"] = [u ""; u "1"; u "2"].
Proof. split; [apply parts_list_grouped | reflexivity]. Qed.

Lemma doc_parts_built (self : builder) (book_id : str) (book_data : row)
    (book_content : list page_row) (page_structure : dict page_info)
    (title_hierarchy : dict str) (md : metadata)
    (book_meta_content author_meta_content : list str) (doc : book_json json) :
  build self book_id book_data book_content page_structure title_hierarchy md
    book_meta_content author_meta_content = Ok doc ->
  doc_parts doc
  = clean_parts
      (parts_list_of
         (pages_by_part unicode_digit self title_hierarchy page_structure
            book_content)).
Proof.
  unfold build_book_json.
  destruct (build_table_of_contents _ _ _ _ _); simpl; [|discriminate].
  destruct (parse_json_field _ _); simpl; [|discriminate].
  destruct (parse_json_field _ _); simpl; [|discriminate].
  intros [= <-]; reflexivity.
Qed.

Lemma doc_toc_built (self : builder) (book_id : str) (book_data : row)
    (book_content : list page_row) (page_structure : dict page_info)
    (title_hierarchy : dict str) (md : metadata)
    (book_meta_content author_meta_content : list str) (doc : book_json json) :
  build self book_id book_data book_content page_structure title_hierarchy md
    book_meta_content author_meta_content = Ok doc ->
  exists toc,
    build_table_of_contents self book_id title_hierarchy book_content
      page_structure = Ok toc
    /\ doc_table_of_contents doc
       = match toc with
         | Some (t :: ts) => Some (t :: ts)
         | _ => None
         end.
Proof.
  unfold build_book_json.
  destruct (build_table_of_contents _ _ _ _ _) as [toc|]; simpl; [|discriminate].
  destruct (parse_json_field _ _); simpl; [|discriminate].
  destruct (parse_json_field _ _); simpl; [|discriminate].
  intros [= <-]; exists toc; split; reflexivity.
Qed.

(** C10: in a document that [_build_book_json] returns, every page of
    every part has the four fields [page_id], [page_number], [body] and
    [footnote], in this order, and no others: [original_body] is gone. *)
Theorem pages_have_four_fields (self : builder) (book_id : str)
    (book_data : row) (book_content : list page_row)
    (page_structure : dict page_info) (title_hierarchy : dict str)
    (md : metadata) (book_meta_content author_meta_content : list str)
    (doc : book_json json) :
  build self book_id book_data book_content page_structure title_hierarchy md
    book_meta_content author_meta_content = Ok doc ->
  Forall
    (fun part =>
       Forall (fun p => map fst p = page_fields
                        /\ page_field p "original_body" = None)
              (part_pages part))
    (doc_parts doc).
Proof.
  intros Hdoc; rewrite (doc_parts_built _ _ _ _ _ _ _ _ _ Hdoc).
  rewrite parts_list_grouped.
  unfold clean_parts; rewrite map_map.
  apply Forall_forall; intros part Hpart.
  apply in_map_iff in Hpart as (l & <- & _); simpl.
  apply Forall_forall; intros p Hp.
  apply in_map_iff in Hp as (q & <- & Hq).
  unfold filed_under in Hq.
  apply in_map_iff in Hq as (kv & <- & Hkv).
  apply filter_In in Hkv as [Hkv _].
  apply in_map_iff in Hkv as (r & <- & _).
  split; reflexivity.
Qed.

Lemma parse_json_field_text (v : pyval) :
  text_or_null v -> exists parsed, parse_json_field json_loads v = Ok parsed.
Proof.
  destruct v as [| |z|f|s]; simpl; try contradiction; intros _;
    unfold parse_json_field; simpl; eauto.
  destruct s as [|c s]; simpl; eauto.
  destruct (strip (c :: s)); eauto.
Qed.

Lemma first_seen_single (l : str) (labels : list str) :
  (forall x, In x labels -> x = l) -> labels <> [] -> first_seen labels = [l].
Proof.
  induction labels as [|k labels IH]; intros Hall Hne; [contradiction|].
  simpl; rewrite (Hall k) by now left.
  f_equal.
  destruct labels as [|k' labels']; [reflexivity|].
  rewrite IH; [|intros x Hx; apply Hall; now right | discriminate].
  simpl; now rewrite str_eqb_refl.
Qed.

(** C8, as the code has it: with an empty page-structure lookup, and
    provided the table of contents and the two JSON fields raise nothing,
    the document is assembled; its pages are all in one part with the empty
    label, in the order of the records, and the page number of each is its
    page id. *)
Theorem pages_without_structure (self : builder) (book_id : str)
    (book_data : row) (book_content : list page_row)
    (title_hierarchy : dict str) (md : metadata)
    (book_meta_content author_meta_content : list str)
    (toc : option (list toc_item)) :
  build_table_of_contents self book_id title_hierarchy book_content [] = Ok toc ->
  text_or_null (row_get_or book_data "pdf_links" (PyStr [])) ->
  text_or_null (row_get_or book_data "meta_data" (PyStr [])) ->
  exists doc,
    build self book_id book_data book_content [] title_hierarchy md
      book_meta_content author_meta_content = Ok doc
    /\ doc_parts doc
       = match book_content with
         | [] => []
         | _ :: _ =>
             [{| part_name := [];
                 part_pages :=
                   map (page_without_structure unicode_digit self title_hierarchy)
                       book_content |}]
         end.
Proof.
  intros Htoc Hpdf Hmeta.
  destruct (parse_json_field_text _ Hpdf) as (pdf & Epdf).
  destruct (parse_json_field_text _ Hmeta) as (meta & Emeta).
  eexists; split.
  - unfold build_book_json; rewrite Htoc; simpl.
    rewrite Epdf; simpl; rewrite Emeta; simpl; reflexivity.
  - simpl.
    rewrite parts_list_grouped.
    destruct book_content as [|r rows]; [reflexivity|].
    rewrite (@first_seen_single []); [| |discriminate].
    + simpl; f_equal; f_equal.
      change (page_del "original_body"
                (snd (page_data self title_hierarchy [] r))
              :: map (page_del "original_body")
                   (filed_under []
                      (map (page_data self title_hierarchy []) rows))
              = map (page_without_structure unicode_digit self title_hierarchy)
                  (r :: rows)).
      simpl; f_equal.
      unfold filed_under; clear.
      induction rows as [|r' rows IH]; [reflexivity|].
      simpl; now rewrite IH.
    + intros x Hx; apply in_map_iff in Hx as (kv & <- & Hkv).
      apply in_map_iff in Hkv as (r' & <- & _); reflexivity.
Qed.

(** C3, as the code has it: when the table-of-contents mode is off, or on
    with no title data for the book, the builder returns [None], raises
    nothing, and the document has no [table_of_contents] key; whatever the
    mode and the titles, no document has an empty [table_of_contents]. *)
Theorem no_titles_no_toc_key (self : builder) (book_id : str)
    (book_data : row) (book_content : list page_row)
    (page_structure : dict page_info) (title_hierarchy : dict str)
    (md : metadata) (book_meta_content author_meta_content : list str) :
  generate_toc self = false \/ load_title_data self book_id = [] ->
  build_table_of_contents self book_id title_hierarchy book_content
    page_structure = Ok None
  /\ forall doc,
       build self book_id book_data book_content page_structure
         title_hierarchy md book_meta_content author_meta_content = Ok doc ->
       doc_table_of_contents doc = None.
Proof.
  intros Hoff.
  assert (Hnone : build_table_of_contents self book_id title_hierarchy
                    book_content page_structure = Ok None).
  { unfold build_table_of_contents.
    destruct (generate_toc self); simpl; [|reflexivity].
    destruct Hoff as [Hoff|Hoff]; [discriminate | now rewrite Hoff]. }
  split; [exact Hnone|].
  intros doc Hdoc.
  destruct (doc_toc_built _ _ _ _ _ _ _ _ _ Hdoc) as (toc & Htoc & ->).
  rewrite Hnone in Htoc; now injection Htoc as <-.
Qed.

Lemma toc_key_never_empty (self : builder) (book_id : str)
    (book_data : row) (book_content : list page_row)
    (page_structure : dict page_info) (title_hierarchy : dict str)
    (md : metadata) (book_meta_content author_meta_content : list str)
    (doc : book_json json) :
  build self book_id book_data book_content page_structure
    title_hierarchy md book_meta_content author_meta_content = Ok doc ->
  doc_table_of_contents doc <> Some [].
Proof.
  intros Hdoc.
  destruct (doc_toc_built _ _ _ _ _ _ _ _ _ Hdoc) as (toc & _ & ->).
  destruct toc as [[|t ts]|]; discriminate.
Qed.

Lemma no_database_no_structure (self : builder) (book_id : str) :
  book_db self book_id = None ->
  load_page_structure self book_id = []
  /\ load_title_hierarchy self book_id = [].
Proof.
  intros H; unfold load_page_structure, load_title_hierarchy.
  now rewrite H.
Qed.

End DocumentProperties.

Lemma pages_have_four_fields_witness :
  exists doc,
    build_book_json ascii_digits no_json unit_truthy tt (hello_builder false)
      (u "1") [] [hello_page] [] [] no_metadata [] [] = Ok doc
    /\ Forall
         (fun part =>
            Forall (fun p => map fst p = page_fields
                             /\ page_field p "original_body" = None)
                   (part_pages part))
         (doc_parts doc).
Proof.
  eexists; split; [reflexivity|].
  apply (@pages_have_four_fields ascii_digits unit no_json unit_truthy tt
           (hello_builder false) (u "1") [] [hello_page] [] [] no_metadata
           [] []).
  reflexivity.
Defined.

Lemma pages_without_structure_witness :
  exists doc,
    build_book_json ascii_digits no_json unit_truthy tt (hello_builder false)
      (u "1") [] [hello_page] [] [] no_metadata [] [] = Ok doc
    /\ doc_parts doc
       = [{| part_name := [];
             part_pages :=
               [page_without_structure ascii_digits (hello_builder false) []
                  hello_page] |}].
Proof.
  apply (@pages_without_structure ascii_digits unit no_json unit_truthy tt
           (hello_builder false) (u "1") [] [hello_page] [] no_metadata [] []
           None).
  - reflexivity.
  - exact I.
  - exact I.
Defined.

(** C8, as stated, fails: without a per-book database the page of the
    sample book gets its page id, 12, as page number, not the empty
    string. *)
Lemma missing_structure_page_number :
  load_page_structure (hello_builder false) (u "1") = []
  /\ match process_single_book ascii_digits no_json unit_truthy tt
             (hello_builder false) (u "1") hello_metadata with
     | Ok (Some doc) =>
         doc_parts doc
         = [{| part_name := [];
               part_pages :=
                 [[("page_id", u "12"); ("page_number", u "12");
                   ("body", u "Hello"); ("footnote", [])]%string] |}]
     | _ => False
     end
  /\ u "12" <> [].
Proof. repeat split; vm_compute; try reflexivity; discriminate. Qed.

Lemma no_titles_no_toc_key_witness :
  (generate_toc (hello_builder true) = false
   \/ load_title_data (hello_builder true) (u "1") = [])
  /\ build_table_of_contents (hello_builder true) (u "1") [] [hello_page] []
     = Ok None
  /\ forall doc,
       build_book_json ascii_digits no_json unit_truthy tt (hello_builder true)
         (u "1") [] [hello_page] [] [] no_metadata [] [] = Ok doc ->
       doc_table_of_contents doc = None.
Proof.
  split; [right; reflexivity|].
  apply (@no_titles_no_toc_key ascii_digits unit no_json unit_truthy tt
           (hello_builder true) (u "1") [] [hello_page] [] [] no_metadata
           [] []).
  right; reflexivity.
Defined.

(** C3, as stated, fails: with the table-of-contents mode on and no title
    data, the builder returns [None], not an empty forest, and the document
    has no [table_of_contents] key, not an empty one. *)
Lemma no_titles_toc_is_absent :
  generate_toc (hello_builder true) = true
  /\ load_title_data (hello_builder true) (u "1") = []
  /\ build_table_of_contents (hello_builder true) (u "1") [] [hello_page] []
     <> Ok (Some [])
  /\ match build_book_json ascii_digits no_json unit_truthy tt
             (hello_builder true) (u "1") [] [hello_page] [] [] no_metadata
             [] [] with
     | Ok doc => doc_table_of_contents doc = None
                 /\ doc_table_of_contents doc <> Some []
     | Raise _ => False
     end.
Proof. repeat split; vm_compute; try reflexivity; discriminate. Qed.

(** ** The parent relation *)

Section ParentRelation.
Variable title_hierarchy : dict str.

Abbreviation parent := (parent_of title_hierarchy).
Abbreviation up := (nth_parent title_hierarchy).
Abbreviation chain := (ancestors title_hierarchy).

Lemma nth_parent_add (a b : nat) (t : str) : up (a + b) t = up b (up a t).
Proof. revert t; induction a as [|a IH]; intros t; simpl; auto. Qed.

Lemma nth_parent_succ (n : nat) (t : str) : up (S n) t = parent (up n t).
Proof. now rewrite <- Nat.add_1_r, nth_parent_add. Qed.

Lemma ancestors_In (n : nat) (t x : str) :
  In x (chain n t) <-> exists i, i < n /\ x = up i t.
Proof.
  revert t; induction n as [|n IH]; intros t; simpl.
  - split; [tauto | intros (i & Hi & _); lia].
  - rewrite IH; split.
    + intros [<-|(i & Hi & ->)]; [exists 0 | exists (S i)]; split; auto; lia.
    + intros ([|i] & Hi & ->); [now left | right].
      exists i; split; [lia | reflexivity].
Qed.

Lemma ancestors_length (n : nat) (t : str) : length (chain n t) = n.
Proof. revert t; induction n; intros t; simpl; auto. Qed.

(** On a cycle of length [m], every ancestor is one of the first [m]. *)
Lemma cycle_closed (m : nat) (t : str) :
  0 < m -> up m t = t -> forall k, In (up k t) (chain m t).
Proof.
  intros Hm Hcycle k; induction k as [k IH] using lt_wf_ind.
  destruct (Nat.lt_ge_cases k m) as [Hlt|Hge].
  - apply ancestors_In; eauto.
  - replace k with (m + (k - m)) by lia.
    rewrite nth_parent_add, Hcycle; apply IH; lia.
Qed.

(** A title whose ancestors reach the sentinel without passing through it
    before has pairwise distinct ancestors. *)
Lemma ancestors_NoDup (n : nat) (t : str) :
  up n t = root_id -> ~ In root_id (chain n t) -> NoDup (chain n t).
Proof.
  revert t; induction n as [|n IH]; intros t Hroot Hfree; simpl;
    constructor.
  - intros Hin; apply Hfree.
    apply ancestors_In in Hin as (i & Hi & Ht).
    assert (Hcycle : up (S i) t = t) by (simpl; congruence).
    pose proof (@cycle_closed (S i) t ltac:(lia) Hcycle (S n)) as Hin.
    rewrite Hroot in Hin.
    apply ancestors_In in Hin as (j & Hj & Hr).
    apply ancestors_In; exists j; split; [lia | exact Hr].
  - apply IH; [exact Hroot|].
    intros Hin; apply Hfree; now right.
Qed.

(** Such a chain is no longer than the list of ids it stays in. *)
Lemma chain_bound (ids : list str) (n : nat) (t : str) :
  ~ In root_id ids -> up n t = root_id ->
  Forall (fun x => In x ids) (chain n t) -> n <= length ids.
Proof.
  intros Hfree Hroot Hin.
  rewrite <- (ancestors_length n t).
  apply NoDup_incl_length.
  - apply ancestors_NoDup; [exact Hroot|].
    intros H; apply Hfree; rewrite Forall_forall in Hin; auto.
  - intros x Hx; rewrite Forall_forall in Hin; auto.
Qed.

Lemma parent_of_unmapped (t : str) :
  ~ In t (keys title_hierarchy) -> parent t = root_id.
Proof.
  unfold parent_of, dict_get_or.
  induction title_hierarchy as [|[k v] d IH]; simpl; [reflexivity|].
  intros H; destruct (str_eqb_spec k t) as [->|_]; [tauto|].
  apply IH; tauto.
Qed.

Lemma parent_of_mapped (t x : str) :
  dict_get title_hierarchy t = Some x -> parent t = x.
Proof. unfold parent_of, dict_get_or; now intros ->. Qed.

Lemma root_stays (n : nat) :
  ~ In root_id (keys title_hierarchy) -> up n root_id = root_id.
Proof.
  intros H; induction n as [|n IH]; simpl; [reflexivity|].
  now rewrite parent_of_unmapped.
Qed.

(** A cycle through a mapped title does not pass through the sentinel,
    when the sentinel is no key of the hierarchy. *)
Lemma cycle_avoids_root (m : nat) (c : str) :
  0 < m -> up m c = c -> In c (keys title_hierarchy) ->
  ~ In root_id (keys title_hierarchy) ->
  forall k, up k c <> root_id.
Proof.
  intros Hm Hcycle Hc Hfree k Hk.
  assert (Hall : forall j, up (k + j) c = root_id).
  { intros j; rewrite nth_parent_add, Hk; now apply root_stays. }
  assert (Hrep : forall q, up (q * m) c = c).
  { induction q as [|q IH]; simpl; [reflexivity|].
    now rewrite nth_parent_add, Hcycle. }
  specialize (Hall (S k * m - k)).
  replace (k + (S k * m - k)) with (S k * m) in Hall by nia.
  rewrite Hrep in Hall; subst c; contradiction.
Qed.
End ParentRelation.

(** ** The title tree builder *)

Section TitleTreeProperties.
Variable title_hierarchy : dict str.
Variable title_data : dict pyval.
Variable title_page_mapping : dict str.
Variable book_id : str.

Abbreviation parent := (parent_of title_hierarchy).
Abbreviation up := (nth_parent title_hierarchy).
Abbreviation chain := (ancestors title_hierarchy).
Abbreviation collect :=
  (collect_children title_hierarchy title_page_mapping book_id).
Abbreviation find :=
  (find_title_children title_hierarchy title_data title_page_mapping book_id).
Abbreviation mark := (mark_children_processed title_hierarchy).
Abbreviation loop :=
  (toc_loop title_hierarchy title_data title_page_mapping book_id).

Lemma key_In {V} (k : str) (v : V) (d : dict V) : In (k, v) d -> In k (keys d).
Proof. intros H; apply in_map_iff; exists (k, v); auto. Qed.

Lemma strip_cell_text (text : pyval) :
  is_text text -> exists title, strip_cell text = Ok title.
Proof. destruct text; simpl; try contradiction; eauto. Qed.

Lemma collect_children_ok (descend : str -> res (list toc_item))
    (parent_id : str) (items : dict pyval) :
  Forall (fun kv => is_text (snd kv)) items ->
  (forall t, In t (keys items) -> parent t = parent_id ->
             exists f, descend t = Ok f) ->
  exists f, collect descend parent_id items = Ok f.
Proof.
  induction items as [|[t text] items IH]; intros Htext Hd; simpl; [eauto|].
  inversion Htext as [|? ? Ht Hitems]; subst; simpl in Ht.
  destruct IH as (cs & Hcs);
    [exact Hitems | intros t' Ht'; apply Hd; now right|].
  destruct (str_eqb_spec (parent t) parent_id) as [Hp|_]; [|eauto].
  destruct (strip_cell_text _ Ht) as (title & Htitle).
  destruct (Hd t) as (gs & Hgs); [now left | exact Hp |].
  rewrite Htitle; simpl; rewrite Hgs; simpl; rewrite Hcs; simpl; eauto.
Qed.

Lemma mark_loop_ok (descend : str -> list str -> res (list str))
    (parent_id : str) (ids : list str) :
  (forall t processed, In t ids -> parent t = parent_id ->
                       exists s, descend t processed = Ok s) ->
  forall processed,
    exists s, mark_loop title_hierarchy descend parent_id ids processed = Ok s.
Proof.
  induction ids as [|t ids IH]; intros Hd processed; simpl; [eauto|].
  assert (Hrest : forall processed',
             exists s, mark_loop title_hierarchy descend parent_id ids processed'
                       = Ok s).
  { apply IH; intros t' p' Ht'; apply Hd; now right. }
  destruct (str_eqb_spec (parent t) parent_id) as [Hp|_]; [|apply Hrest].
  destruct (Hd t (set_add t processed)) as (s & Hs); [now left | exact Hp |].
  rewrite Hs; simpl; apply Hrest.
Qed.

Section Bounded.
(** The ids the recursion can visit: none of them is the sentinel. *)
Variable ids : list str.
Hypothesis ids_free : ~ In root_id ids.
(** Every title has a text. *)
Hypothesis texts : Forall (fun kv => is_text (snd kv)) title_data.

Abbreviation below := (below_root title_hierarchy ids).

Lemma below_root_child (n : nat) (p t : str) :
  below n p -> In t ids -> parent t = p -> below (S n) t.
Proof.
  intros [Hroot Hin] Ht Hp; split; simpl; rewrite Hp; auto.
Qed.

Lemma find_title_children_ok (depth n : nat) (p : str) :
  incl (keys title_data) ids ->
  below n p -> length ids < depth + n ->
  exists f, find depth p = Ok f.
Proof.
  intros Hkeys; revert n p; induction depth as [|d IH]; intros n p Hp Hlen.
  - destruct Hp as [Hroot Hin].
    pose proof (@chain_bound title_hierarchy ids n p ids_free Hroot Hin); lia.
  - simpl; apply collect_children_ok; [exact texts|]; intros t Ht Hpt.
    apply (IH (S n) t); [|lia].
    eapply below_root_child; eauto.
Qed.

Lemma mark_children_processed_ok (depth n : nat) (p : str) :
  incl (keys title_hierarchy) ids ->
  below n p -> length ids < depth + n ->
  forall processed, exists s, mark depth p processed = Ok s.
Proof.
  intros Hkeys; revert n p; induction depth as [|d IH]; intros n p Hp Hlen.
  - destruct Hp as [Hroot Hin].
    pose proof (@chain_bound title_hierarchy ids n p ids_free Hroot Hin); lia.
  - simpl; apply mark_loop_ok; intros t processed Ht Hpt.
    apply (IH (S n) t); [|lia].
    eapply below_root_child; eauto.
Qed.

Lemma toc_loop_ok (depth : nat) (items : dict pyval) :
  incl (keys title_data) ids -> incl (keys title_hierarchy) ids ->
  incl (keys items) (keys title_data) -> length ids <= depth ->
  Forall (fun kv => is_text (snd kv)) items ->
  forall processed, exists f, loop depth items processed = Ok f.
Proof.
  intros Htd Hth; induction items as [|[t text] items IH];
    intros Hitems Hlen Htext processed; simpl; [eauto|].
  inversion Htext as [|? ? Ht Htext']; subst; simpl in Ht.
  assert (Hrest : forall processed',
             exists f, loop depth items processed' = Ok f).
  { apply IH; [|exact Hlen|exact Htext'].
    intros x Hx; apply Hitems; now right. }
  destruct (mem t processed); [apply Hrest|].
  destruct (str_eqb_spec (parent t) root_id) as [Hp|_]; [|apply Hrest].
  destruct (strip_cell_text _ Ht) as (title & Htitle).
  rewrite Htitle; cbn [bind].
  assert (Hbelow : below 1 t).
  { split; simpl; [exact Hp|].
    repeat constructor; apply Htd, Hitems; now left. }
  destruct (@find_title_children_ok depth 1 t Htd Hbelow) as (cs & Hcs);
    [lia|].
  destruct (@mark_children_processed_ok depth 1 t Hth Hbelow ltac:(lia)
              (set_add t processed)) as (s & Hs).
  destruct (Hrest s) as (f & Hf).
  rewrite Hcs; simpl; rewrite Hs; simpl; rewrite Hf; simpl; eauto.
Qed.
End Bounded.

(** When every title has a text and the sentinel is neither a title id
    nor a key of the hierarchy, the builder returns a forest, given as many
    frames as there are titles and hierarchy entries. *)
Lemma toc_forest_ok (depth : nat) :
  Forall (fun kv => is_text (snd kv)) title_data ->
  ~ In root_id (keys title_data) -> ~ In root_id (keys title_hierarchy) ->
  length title_data + length title_hierarchy <= depth ->
  exists f,
    toc_forest title_hierarchy title_data title_page_mapping book_id depth
    = Ok f.
Proof.
  intros Htext Htd Hth Hlen; unfold toc_forest.
  apply (@toc_loop_ok (keys title_data ++ keys title_hierarchy)).
  - intros H; apply in_app_or in H; tauto.
  - exact Htext.
  - apply incl_appl, incl_refl.
  - apply incl_appr, incl_refl.
  - apply incl_refl.
  - unfold keys; now rewrite length_app, !length_map.
  - exact Htext.
Qed.

Section LeftOut.
(** Titles that no root reaches: none of them is top-level, and the parent
    of each is one of them or is no title at all. *)
Variable drop : str -> bool.
Hypothesis drop_closed :
  forall t, drop t = true -> In t (keys title_data) ->
    parent t <> root_id
    /\ (drop (parent t) = true \/ ~ In (parent t) (keys title_data)).

Abbreviation kept := (without drop title_data).

Lemma dropped_is_no_child (t p : str) :
  drop t = true -> In t (keys title_data) ->
  In p (keys title_data) -> drop p = false -> parent t <> p.
Proof.
  intros Ht Hin Hp Hdp E.
  destruct (drop_closed Ht Hin) as [_ [H|H]]; rewrite E in H;
    [congruence | contradiction].
Qed.

Lemma collect_children_without
    (descend descend' : str -> res (list toc_item)) (p : str)
    (items : dict pyval) :
  In p (keys title_data) -> drop p = false ->
  incl (keys items) (keys title_data) ->
  (forall t, In t (keys title_data) -> drop t = false ->
             descend t = descend' t) ->
  collect descend p items = collect descend' p (without drop items).
Proof.
  intros Hp Hdp Hitems Hsame.
  induction items as [|[t text] items IH]; simpl; [reflexivity|].
  assert (Ht : In t (keys title_data)) by (apply Hitems; now left).
  assert (IH' : collect descend p items = collect descend' p (without drop items)).
  { apply IH; intros x Hx; apply Hitems; now right. }
  destruct (drop t) eqn:Hdt; simpl.
  - destruct (str_eqb_spec (parent t) p) as [E|_]; [|exact IH'].
    now contradiction (dropped_is_no_child Hdt Ht Hp Hdp).
  - destruct (str_eqb (parent t) p); [|exact IH'].
    now rewrite (Hsame t Ht Hdt), IH'.
Qed.

Lemma find_title_children_without (depth : nat) (p : str) :
  In p (keys title_data) -> drop p = false ->
  find depth p
  = find_title_children title_hierarchy kept title_page_mapping book_id depth p.
Proof.
  revert p; induction depth as [|d IH]; intros p Hp Hdp; simpl;
    [reflexivity|].
  apply collect_children_without; auto using incl_refl.
Qed.

Lemma toc_loop_without (depth : nat) (items : dict pyval) :
  incl (keys items) (keys title_data) ->
  forall processed,
    loop depth items processed
    = toc_loop title_hierarchy kept title_page_mapping book_id depth
        (without drop items) processed.
Proof.
  induction items as [|[t text] items IH]; intros Hitems processed; simpl;
    [reflexivity|].
  assert (Ht : In t (keys title_data)) by (apply Hitems; now left).
  assert (IH' : forall processed',
             loop depth items processed'
             = toc_loop title_hierarchy kept title_page_mapping book_id depth
                 (without drop items) processed').
  { apply IH; intros x Hx; apply Hitems; now right. }
  destruct (drop t) eqn:Hdt; simpl.
  - destruct (mem t processed); [apply IH'|].
    destruct (str_eqb_spec (parent t) root_id) as [E|_]; [|apply IH'].
    now destruct (drop_closed Hdt Ht) as [H _].
  - destruct (mem t processed); [apply IH'|].
    destruct (str_eqb (parent t) root_id); [|apply IH'].
    destruct (strip_cell text); simpl; [|reflexivity].
    rewrite <- find_title_children_without by assumption.
    destruct (find depth t); simpl; [|reflexivity].
    destruct (mark depth t (set_add t processed)); simpl; [|reflexivity].
    now rewrite IH'.
Qed.

(** The forest is the one built from the title data without them. *)
Lemma toc_forest_without (depth : nat) :
  toc_forest title_hierarchy title_data title_page_mapping book_id depth
  = toc_forest title_hierarchy kept title_page_mapping book_id depth.
Proof. unfold toc_forest; apply toc_loop_without, incl_refl. Qed.
End LeftOut.

Lemma without_keys (drop : str -> bool) (t : str) :
  drop t = true -> ~ In t (keys (without drop title_data)).
Proof.
  intros Ht Hin; apply in_map_iff in Hin as ([k v] & <- & Hkv).
  apply filter_In in Hkv as [_ Hkv]; simpl in *.
  rewrite Ht in Hkv; discriminate.
Qed.

(** C2, as the code has it: a title whose parent is mapped to an id that is
    neither the sentinel nor the id of a known title is left out of the
    forest, at the root as anywhere else: the builder returns what it
    returns for the title data without that title. *)
Theorem orphan_title_left_out (t x : str) (depth : nat) :
  dict_get title_hierarchy t = Some x ->
  x <> root_id ->
  ~ In x (keys title_data) ->
  toc_forest title_hierarchy title_data title_page_mapping book_id depth
  = toc_forest title_hierarchy (without (str_eqb t) title_data)
      title_page_mapping book_id depth
  /\ ~ In t (keys (without (str_eqb t) title_data)).
Proof.
  intros Hmap Hx Hunknown; split.
  - apply toc_forest_without; intros t' Ht' _.
    apply str_eqb_eq in Ht'; subst t'.
    rewrite (parent_of_mapped _ _ Hmap); auto.
  - apply without_keys, str_eqb_refl.
Qed.

(** C1, as the code has it: when the parent relation has a cycle through a
    mapped title, every title has a text, and the sentinel is neither a
    title id nor a key of the hierarchy, the builder returns a forest
    within as many frames as there are titles and hierarchy entries; it
    reports no error, and the forest is the one it builds from the title
    data without the titles of the cycle, which it leaves out. *)
Theorem cyclic_titles_left_out (c : str) (m depth : nat) :
  0 < m ->
  up m c = c ->
  In c (keys title_hierarchy) ->
  Forall (fun kv => is_text (snd kv)) title_data ->
  ~ In root_id (keys title_data) ->
  ~ In root_id (keys title_hierarchy) ->
  length title_data + length title_hierarchy <= depth ->
  exists forest,
    toc_forest title_hierarchy title_data title_page_mapping book_id depth
    = Ok forest
    /\ toc_forest title_hierarchy
         (without (fun t => mem t (chain m c)) title_data)
         title_page_mapping book_id depth
       = Ok forest
    /\ Forall
         (fun t => ~ In t (keys (without (fun t => mem t (chain m c))
                                   title_data)))
         (chain m c).
Proof.
  intros Hm Hcycle Hc Htext Htd Hth Hlen.
  destruct (toc_forest_ok Htext Htd Hth Hlen) as (forest & Hforest).
  exists forest; split; [exact Hforest|]; split.
  - rewrite <- Hforest; symmetry.
    apply toc_forest_without; intros t Ht _.
    apply mem_In, ancestors_In in Ht as (i & Hi & ->).
    rewrite <- nth_parent_succ; split.
    + now apply (@cycle_avoids_root title_hierarchy m c Hm Hcycle Hc Hth).
    + left; apply mem_In; now apply cycle_closed.
  - apply Forall_forall; intros t Ht.
    apply without_keys; now apply mem_In.
Qed.
End TitleTreeProperties.

Lemma orphan_title_left_out_witness :
  toc_forest [(u "1", u "99")] [(u "1", PyStr (u "Orphan"));
                                (u "2", PyStr (u "Root"))]
    [] (u "7") 900
  = toc_forest [(u "1", u "99")]
      (without (str_eqb (u "1")) [(u "1", PyStr (u "Orphan"));
                                  (u "2", PyStr (u "Root"))])
      [] (u "7") 900
  /\ ~ In (u "1")
       (keys (without (str_eqb (u "1"))
                [(u "1", PyStr (u "Orphan")); (u "2", PyStr (u "Root"))])).
Proof.
  apply (@orphan_title_left_out [(u "1", u "99")]
           [(u "1", PyStr (u "Orphan")); (u "2", PyStr (u "Root"))] [] (u "7")
           (u "1") (u "99") 900).
  - reflexivity.
  - vm_compute; discriminate.
  - vm_compute; intros [H|[H|[]]]; discriminate.
Defined.

(** C2, as stated, fails: title 1, whose parent 99 is no title, is not
    placed at the root; the forest holds title 2 alone. *)
Lemma orphan_title_is_no_root :
  dict_get [(u "1", u "99")] (u "1") = Some (u "99")
  /\ ~ In (u "99") (keys [(u "1", PyStr (u "Orphan"));
                          (u "2", PyStr (u "Root"))])
  /\ toc_forest [(u "1", u "99")] [(u "1", PyStr (u "Orphan"));
                                   (u "2", PyStr (u "Root"))]
       [] (u "7") 900
     = Ok [TocItem (u "7/1") (u "Root") []].
Proof.
  split; [reflexivity|split; [|reflexivity]].
  vm_compute; intros [H|[H|[]]]; discriminate.
Qed.

Lemma cyclic_titles_left_out_witness :
  exists forest,
    toc_forest [(u "1", u "2"); (u "2", u "1"); (u "3", u "0")]
      [(u "1", PyStr (u "A")); (u "2", PyStr (u "B"));
       (u "3", PyStr (u "Root"))] [] (u "7") 6
    = Ok forest
    /\ toc_forest [(u "1", u "2"); (u "2", u "1"); (u "3", u "0")]
         (without
            (fun t =>
               mem t (ancestors [(u "1", u "2"); (u "2", u "1"); (u "3", u "0")]
                        2 (u "1")))
            [(u "1", PyStr (u "A")); (u "2", PyStr (u "B"));
             (u "3", PyStr (u "Root"))])
         [] (u "7") 6
       = Ok forest
    /\ Forall
         (fun t =>
            ~ In t
                (keys
                   (without
                      (fun t =>
                         mem t
                           (ancestors
                              [(u "1", u "2"); (u "2", u "1"); (u "3", u "0")]
                              2 (u "1")))
                      [(u "1", PyStr (u "A")); (u "2", PyStr (u "B"));
                       (u "3", PyStr (u "Root"))])))
         (ancestors [(u "1", u "2"); (u "2", u "1"); (u "3", u "0")] 2 (u "1")).
Proof.
  apply (@cyclic_titles_left_out
           [(u "1", u "2"); (u "2", u "1"); (u "3", u "0")]
           [(u "1", PyStr (u "A")); (u "2", PyStr (u "B"));
            (u "3", PyStr (u "Root"))] [] (u "7")
           (u "1") 2 6).
  - lia.
  - reflexivity.
  - now left.
  - repeat constructor.
  - vm_compute; intros [H|[H|[H|[]]]]; discriminate.
  - vm_compute; intros [H|[H|[H|[]]]]; discriminate.
  - simpl; lia.
Defined.

(** C1, as stated, fails: on the two-cycle 1 -> 2 -> 1, and on the
    self-loop 1 -> 1, the builder returns the empty forest: it reports no
    error and drops the titles of the cycle. *)
Lemma cycle_raises_no_error :
  nth_parent [(u "1", u "2"); (u "2", u "1")] 2 (u "1") = u "1"
  /\ toc_forest [(u "1", u "2"); (u "2", u "1")]
       [(u "1", PyStr (u "A")); (u "2", PyStr (u "B"))] [] (u "7") 900
     = Ok []
  /\ nth_parent [(u "1", u "1")] 1 (u "1") = u "1"
  /\ toc_forest [(u "1", u "1")]
    [(u "1", PyStr (u "A"))] [] (u "7") 900 = Ok [].
Proof. repeat split. Qed.

(** A title whose id is the sentinel is its own child: the recursion ends
    only when the stack is exhausted. *)
Example sentinel_title_exhausts_stack :
  toc_forest [] [(u "0", PyStr (u "A"))] [] (u "7") 900 = Raise RecursionError.
Proof. vm_compute; reflexivity. Qed.

(** The tree of the specification: 1 at the root, 2 and 3 under 1, 4 under
    2. *)
Example toc_forest_example :
  toc_forest
    [(u "1", u "0"); (u "2", u "1"); (u "3", u "1"); (u "4", u "2")]
    [(u "1", PyStr (u "A")); (u "2", PyStr (u "B")); (u "3", PyStr (u "C"));
     (u "4", PyStr (u "D"))]
    [(u "1", u "10"); (u "2", u "20")] (u "7") 900
  = Ok [TocItem (u "7/10") (u "A")
          [TocItem (u "7/20") (u "B") [TocItem (u "7/1") (u "D") []];
           TocItem (u "7/1") (u "C") []]].
Proof. vm_compute; reflexivity. Qed.

(** ** Substitution *)

Lemma match_lits (x : str) (pat : pattern) (s : str) :
  match_here (map Lit x ++ pat) (x ++ s) = match_here pat s.
Proof.
  induction x as [|c x IH]; simpl; [reflexivity|].
  now rewrite N.eqb_refl.
Qed.

Lemma match_lit (c : N) (pat : pattern) (s : str) :
  match_here (Lit c :: pat) (c :: s) = match_here pat s.
Proof. simpl; now rewrite N.eqb_refl. Qed.

Lemma match_cls (p : N -> bool) (c : N) (pat : pattern) (s : str) :
  p c = true -> match_here (Cls p :: pat) (c :: s) = match_here pat s.
Proof. intros H; simpl; now rewrite H. Qed.

Lemma match_rep_greedy (p : N -> bool) (min : nat) (capture : bool)
    (pat : pattern) (w s : str) (groups : list str) (rest : str) :
  forallb p w = true -> stops p s ->
  match_here pat s = Some (groups, rest) -> min <= length w ->
  match_here (Rep p min true capture :: pat) (w ++ s)
  = Some (if capture then w :: groups else groups, rest).
Proof.
  intros Hw Hs Hk Hmin; cbn [match_here].
  now rewrite (@rep_greedy_run _ p (match_here pat) w s (groups, rest) min Hw Hs Hk Hmin).
Qed.

(** A lazy repetition of any character, followed by a pattern that begins
    with [<], runs to the first [<] when what follows matches there. *)
Lemma rep_lazy_until {A} (k : str -> option A) (text s : str) (a : A) :
  (forall c s', N.eqb c lt_sign = false -> k (c :: s') = None) ->
  forallb (fun c => negb (N.eqb c lt_sign)) text = true ->
  k s = Some a ->
  rep_lazy any_char k 0 (text ++ s) = Some (text, a).
Proof.
  intros Hk Htext Hs; induction text as [|c text IH].
  - destruct s; simpl; now rewrite Hs.
  - simpl in Htext; apply andb_true_iff in Htext as [Hc Htext].
    apply negb_true_iff in Hc.
    cbn [app rep_lazy rep_stop]; rewrite (Hk _ _ Hc).
    cbn [any_char pred]; now rewrite IH.
Qed.

Lemma match_rep_lazy_until (capture : bool) (pat : pattern)
    (text s : str) (groups : list str) (rest : str) :
  forallb (fun c => negb (N.eqb c lt_sign)) text = true ->
  match_here (Lit lt_sign :: pat) s = Some (groups, rest) ->
  match_here (Rep any_char 0 false capture :: Lit lt_sign :: pat) (text ++ s)
  = Some (if capture then text :: groups else groups, rest).
Proof.
  intros Htext Hs.
  change (match_here (Rep any_char 0 false capture :: Lit lt_sign :: pat)
            (text ++ s))
    with (match rep_lazy any_char (match_here (Lit lt_sign :: pat)) 0
                  (text ++ s) with
          | Some (w, (groups, rest)) =>
              Some (if capture then w :: groups else groups, rest)
          | None => None
          end).
  rewrite (@rep_lazy_until _ (match_here (Lit lt_sign :: pat)) text s
             (groups, rest)); auto.
  intros c s' Hc; simpl; now rewrite Hc.
Qed.

Lemma sub_loop_skip (pat : pattern) (repl : list str -> str) (m rest : str) :
  sub_loop pat repl (m ++ rest) (length m) = sub_loop pat repl rest 0.
Proof.
  induction m as [|c m IH]; simpl; [|exact IH].
  destruct rest; reflexivity.
Qed.

(** A match that takes [m] is replaced, and the substitution goes on after
    it. *)
Lemma sub_loop_match (pat : pattern) (repl : list str -> str)
    (m rest : str) (groups : list str) :
  m <> [] -> match_here pat (m ++ rest) = Some (groups, rest) ->
  sub_loop pat repl (m ++ rest) 0 = repl groups ++ sub_loop pat repl rest 0.
Proof.
  intros Hm Hmatch; destruct m as [|c m]; [contradiction|].
  cbn [app sub_loop].
  change (c :: m ++ rest) with ((c :: m) ++ rest); rewrite Hmatch.
  assert (Hlen : length ((c :: m) ++ rest) - length rest = S (length m)).
  { rewrite length_app; cbn [length]; lia. }
  rewrite Hlen; now rewrite sub_loop_skip.
Qed.

Lemma re_sub_whole (pat : pattern) (repl : list str -> str) (s : str)
    (groups : list str) :
  s <> [] -> match_here pat s = Some (groups, []) ->
  re_sub pat repl s = repl groups.
Proof.
  intros Hs Hmatch; unfold re_sub.
  rewrite <- (app_nil_r s) at 1.
  rewrite (@sub_loop_match pat repl s [] groups Hs);
    [simpl; apply app_nil_r | now rewrite app_nil_r].
Qed.

(** No [<] in [s] is followed by [c]. *)
Lemma re_sub_no_open (c : N) (pat : pattern) (repl : list str -> str)
    (s : str) :
  no_open c s = true -> re_sub (Lit lt_sign :: Lit c :: pat) repl s = s.
Proof.
  unfold re_sub; induction s as [|a s IH]; intros H; [reflexivity|].
  cbn [no_open] in H; apply andb_true_iff in H as [Ha Hs].
  cbn [sub_loop].
  replace (match_here (Lit lt_sign :: Lit c :: pat) (a :: s)) with
    (@None (list str * str)); [now rewrite IH|].
  cbn [match_here].
  destruct (N.eqb a lt_sign); [|reflexivity].
  destruct s as [|b s]; [reflexivity|].
  apply negb_true_iff in Ha; now rewrite Ha.
Qed.

Lemma re_sub_no_lt (pat : pattern) (repl : list str -> str) (s : str) :
  forallb (fun c => negb (N.eqb c lt_sign)) s = true ->
  re_sub (Lit lt_sign :: pat) repl s = s.
Proof.
  unfold re_sub; induction s as [|a s IH]; intros H; [reflexivity|].
  simpl in H; apply andb_true_iff in H as [Ha Hs].
  apply negb_true_iff in Ha.
  cbn [sub_loop match_here]; rewrite Ha; now rewrite IH.
Qed.

Lemma no_open_app (c : N) (x y : str) :
  last x 0%N <> lt_sign -> no_open c (x ++ y) = no_open c x && no_open c y.
Proof.
  induction x as [|a x IH]; intros Hlast; [reflexivity|].
  destruct x as [|b x].
  - cbn [app no_open]; simpl in Hlast.
    apply N.eqb_neq in Hlast; rewrite Hlast; reflexivity.
  - change (last (a :: b :: x) 0%N) with (last (b :: x) 0%N) in Hlast.
    transitivity ((if N.eqb a lt_sign then negb (N.eqb b c) else true)
                  && no_open c ((b :: x) ++ y)); [reflexivity|].
    rewrite (IH Hlast).
    change (no_open c (a :: b :: x))
      with ((if N.eqb a lt_sign then negb (N.eqb b c) else true)
            && no_open c (b :: x)).
    now rewrite andb_assoc.
Qed.

Lemma no_open_plain (c : N) (x : str) :
  forallb (fun a => negb (N.eqb a lt_sign)) x = true -> no_open c x = true.
Proof.
  induction x as [|a x IH]; intros H; [reflexivity|].
  simpl in H; apply andb_true_iff in H as [Ha Hx].
  apply negb_true_iff in Ha; cbn [no_open]; rewrite Ha; simpl; auto.
Qed.

Lemma last_plain (x : str) :
  forallb (fun a => negb (N.eqb a lt_sign)) x = true -> last x 0%N <> lt_sign.
Proof.
  induction x as [|a x IH]; intros H; [discriminate|].
  simpl in H; apply andb_true_iff in H as [Ha Hx].
  destruct x as [|b x]; [|now apply IH].
  simpl; apply N.eqb_neq; now apply negb_true_iff.
Qed.

Lemma replace_char_absent (a b : N) (s : str) :
  forallb (fun c => negb (N.eqb c a)) s = true -> replace_char a b s = s.
Proof.
  unfold replace_char; induction s as [|c s IH]; intros H; [reflexivity|].
  simpl in H; apply andb_true_iff in H as [Hc Hs].
  apply negb_true_iff in Hc; simpl; rewrite Hc; now rewrite IH.
Qed.

Lemma forallb_weaken (p q : N -> bool) (s : str) :
  (forall c, p c = true -> q c = true) ->
  forallb p s = true -> forallb q s = true.
Proof.
  intros Hpq; induction s as [|c s IH]; simpl; [reflexivity|].
  intros H; apply andb_true_iff in H as [Hc Hs].
  now rewrite (Hpq c Hc), IH.
Qed.

(** ** Text normaliser *)

Section TextNormaliser.
Variable unicode_digit : N -> option N.

Abbreviation digit := (is_digit unicode_digit).
Abbreviation not_lt := (fun c => negb (N.eqb c lt_sign)).

Lemma digit_is_plain (c : N) :
  digit c = true ->
  negb (N.eqb c lt_sign) && negb (N.eqb c gt_sign) && negb (N.eqb c cr) = true.
Proof.
  intros H.
  destruct (N.eqb_spec c lt_sign) as [->|_]; [vm_compute in H; discriminate|].
  destruct (N.eqb_spec c gt_sign) as [->|_]; [vm_compute in H; discriminate|].
  destruct (N.eqb_spec c cr) as [->|_]; [vm_compute in H; discriminate|].
  reflexivity.
Qed.

Section Heading.
Variable title_hierarchy : dict str.
Variables n text : str.
Hypothesis n_digits : forallb digit n = true.
Hypothesis n_not_empty : n <> [].
Hypothesis text_plain : plain_text text = true.
Hypothesis parent_plain : no_bracket (parent_of title_hierarchy n) = true.

(** The heading element that step 4 of the normaliser writes. *)
Abbreviation title_element :=
  (u "<title id=" ++ n ++ u " parent=" ++ parent_of title_hierarchy n
     ++ u ">" ++ text ++ u "</title>").

Lemma n_no_lt : forallb not_lt n = true.
Proof.
  apply forallb_weaken with (2 := n_digits); intros c Hc.
  apply digit_is_plain in Hc.
  now apply andb_true_iff in Hc as [Hc _]; apply andb_true_iff in Hc as [Hc _].
Qed.

Lemma n_no_gt : forallb not_gt n = true.
Proof.
  apply forallb_weaken with (2 := n_digits); intros c Hc.
  apply digit_is_plain in Hc.
  now apply andb_true_iff in Hc as [Hc _]; apply andb_true_iff in Hc as [_ Hc].
Qed.

Lemma n_no_cr : forallb (fun c => negb (N.eqb c cr)) n = true.
Proof.
  apply forallb_weaken with (2 := n_digits); intros c Hc.
  apply digit_is_plain in Hc.
  now apply andb_true_iff in Hc as [_ Hc].
Qed.

Lemma text_no_lt : forallb not_lt text = true.
Proof.
  apply forallb_weaken with (2 := text_plain); intros c Hc.
  now apply andb_true_iff in Hc as [Hc _].
Qed.

Lemma text_no_cr : forallb (fun c => negb (N.eqb c cr)) text = true.
Proof.
  apply forallb_weaken with (2 := text_plain); intros c Hc.
  now apply andb_true_iff in Hc as [_ Hc].
Qed.

Lemma parent_no_lt : forallb not_lt (parent_of title_hierarchy n) = true.
Proof.
  apply forallb_weaken with (2 := parent_plain); intros c Hc.
  now apply andb_true_iff in Hc as [Hc _].
Qed.

Lemma parent_no_gt : forallb not_gt (parent_of title_hierarchy n) = true.
Proof.
  apply forallb_weaken with (2 := parent_plain); intros c Hc.
  now apply andb_true_iff in Hc as [_ Hc].
Qed.

Ltac pieces :=
  rewrite ?forallb_app;
  repeat (apply andb_true_intro; split);
  first [ reflexivity | exact n_no_lt | exact n_no_gt | exact n_no_cr
        | exact text_no_lt | exact text_no_cr
        | exact parent_no_lt | exact parent_no_gt ].

Ltac no_opens :=
  repeat (rewrite no_open_app;
          [| first [ apply last_plain; first [ exact n_no_lt | exact text_no_lt
                                              | exact parent_no_lt ]
                   | vm_compute; discriminate ] ]);
  repeat (apply andb_true_intro; split);
  first [ reflexivity
        | apply no_open_plain;
          first [ exact n_no_lt | exact text_no_lt | exact parent_no_lt ] ].

Lemma heading_keeps_returns :
  replace_char cr lf (heading_span n text) = heading_span n text.
Proof. apply replace_char_absent; unfold heading_span; pieces. Qed.

Lemma heading_has_no_image :
  re_sub img_pattern no_text (heading_span n text) = heading_span n text.
Proof.
  apply (@re_sub_no_open 105 (lits "mg" ++ [Rep not_gt 0 true false; Opt 47;
                                           Lit gt_sign])).
  unfold heading_span; no_opens.
Qed.

Lemma heading_span_matches :
  match_here (title_span_pattern unicode_digit) (heading_span n text)
  = Some ([n; text], []).
Proof.
  unfold title_span_pattern, heading_span, lits.
  rewrite match_lits; cbn [app].
  rewrite match_cls by reflexivity; rewrite match_lits; cbn [app].
  rewrite match_cls by reflexivity; rewrite match_lits; cbn [app].
  apply (@match_rep_greedy digit 1 true _ n _ [text] []).
  - exact n_digits.
  - vm_compute; reflexivity.
  - rewrite match_lit.
    change (map Lit (u "</span>")) with (Lit lt_sign :: map Lit (u "/span>")).
    apply (@match_rep_lazy_until true _ text (u "</span>") [] []);
      [exact text_no_lt | reflexivity].
  - destruct n; [contradiction | simpl; lia].
Qed.

Lemma heading_rewritten :
  re_sub (title_span_pattern unicode_digit)
    (replace_title_span title_hierarchy) (heading_span n text)
  = title_element.
Proof.
  rewrite (@re_sub_whole _ _ _ [n; text]);
    [reflexivity | discriminate | exact heading_span_matches].
Qed.

Lemma title_element_has_no_span :
  re_sub span_pattern group1 title_element = title_element.
Proof.
  apply (@re_sub_no_open 115
           (lits "pan" ++ [Rep any_char 0 false false; Lit gt_sign;
                           Rep any_char 0 false true] ++ lits "</span>")).
  no_opens.
Qed.

Lemma title_element_matches :
  match_here title_pattern title_element = Some ([text], []).
Proof.
  assert (Hshape : title_element
                   = u "<title"
                       ++ (u " id=" ++ n ++ u " parent="
                             ++ parent_of title_hierarchy n)
                       ++ gt_sign :: text ++ u "</title>").
  { rewrite <- !app_assoc; reflexivity. }
  rewrite Hshape; unfold title_pattern, lits.
  rewrite match_lits; cbn [app].
  apply (@match_rep_greedy not_gt 0 false _ _ _ [text] []).
  - pieces.
  - reflexivity.
  - rewrite match_lit.
    change (map Lit (u "</title>")) with (Lit lt_sign :: map Lit (u "/title>")).
    apply (@match_rep_lazy_until true _ text (u "</title>") [] []);
      [exact text_no_lt | reflexivity].
  - lia.
Qed.

Lemma title_element_stripped :
  re_sub title_pattern group1 title_element = text.
Proof.
  rewrite (@re_sub_whole _ _ _ [text]);
    [reflexivity | discriminate | exact title_element_matches].
Qed.

Lemma text_has_no_tag : re_sub tag_pattern no_text text = text.
Proof. apply re_sub_no_lt; exact text_no_lt. Qed.
End Heading.

(** C9, as the code has it: with the table-of-contents mode on, a heading
    span whose id is a run of digits, whose text holds neither [<] nor a
    carriage return, and whose resolved parent id holds no angle bracket,
    is normalised to its text, unchanged and without any tag. *)
Theorem heading_span_to_plain_text (self : builder)
    (title_hierarchy : dict str) (n text : str) :
  generate_toc self = true ->
  n <> [] ->
  forallb digit n = true ->
  plain_text text = true ->
  no_bracket (parent_of title_hierarchy n) = true ->
  process_text unicode_digit self (PyStr (heading_span n text)) title_hierarchy
  = text.
Proof.
  intros Htoc Hne Hn Htext Hparent; unfold process_text.
  assert (Hspan : py_truthy (PyStr (heading_span n text)) = true)
    by reflexivity.
  rewrite Hspan, Htoc; cbn [negb orb pd_isna py_str].
  rewrite heading_keeps_returns by assumption.
  rewrite heading_has_no_image by assumption.
  rewrite heading_rewritten by assumption.
  rewrite title_element_has_no_span by assumption.
  rewrite title_element_stripped by assumption.
  now apply text_has_no_tag.
Qed.
End TextNormaliser.

Lemma heading_span_to_plain_text_witness :
  process_text ascii_digits (bare_builder true)
    (PyStr (heading_span (u "12") (u "Chapter One"))) []
  = u "Chapter One".
Proof.
  apply (@heading_span_to_plain_text ascii_digits (bare_builder true) []
           (u "12") (u "Chapter One")).
  - reflexivity.
  - discriminate.
  - reflexivity.
  - reflexivity.
  - reflexivity.
Defined.

(** C9, as stated, fails: a carriage return in the text of the heading
    comes out as a line feed, and markup inside the text is removed, so the
    result is not the text of the span. *)
Lemma heading_text_is_altered :
  process_text ascii_digits (bare_builder true)
    (PyStr (heading_span (u "12") (u "A" ++ [cr] ++ u "B"))) []
  = u "A" ++ [lf] ++ u "B"
  /\ u "A" ++ [lf] ++ u "B" <> u "A" ++ [cr] ++ u "B"
  /\ process_text ascii_digits (bare_builder true)
       (PyStr (heading_span (u "12") (u "Chapter <b>One</b>"))) []
     = u "Chapter One"
  /\ u "Chapter One" <> u "Chapter <b>One</b>".
Proof. repeat split; vm_compute; discriminate. Qed.

(** * Further properties *)

(** ** Footnote separator, the other cases *)

Lemma strip_inside (s : str) :
  exists w1 w2, s = w1 ++ strip s ++ w2.
Proof.
  destruct (lstrip_split s) as (w1 & _ & Hs & _).
  destruct (rstrip_split (lstrip s)) as (w2 & _ & Hl & _).
  exists w1, w2; unfold strip; now rewrite <- Hl.
Qed.

Lemma strip_In (c : N) (s : str) : In c (strip s) -> In c s.
Proof.
  destruct (strip_inside s) as (w1 & w2 & Hs); intros H.
  rewrite Hs; apply in_or_app; right; apply in_or_app; now left.
Qed.

Lemma no_separator_strip (s : str) : no_separator s -> no_separator (strip s).
Proof.
  destruct (strip_inside s) as (w1 & w2 & Hs); intros H before after E.
  apply (H (w1 ++ before) (after ++ w2)).
  rewrite Hs at 1; rewrite E; now rewrite <- !app_assoc.
Qed.

Lemma search_no_separator (s : str) :
  no_separator s -> re_search separator_pattern s = None.
Proof.
  induction s as [|c s IH]; intros H.
  - reflexivity.
  - rewrite re_search_unfold, match_separator.
    destruct (Nat.leb_spec 5 (length (leading is_underscore (c :: s))))
      as [Hlong|_].
    + exfalso.
      apply (H [] (repeat underscore
                     (length (leading is_underscore (c :: s)) - 5)
                   ++ after_leading is_underscore (c :: s))).
      rewrite (leading_split is_underscore (c :: s)) at 1.
      rewrite (underscores_repeat _ (leading_all is_underscore (c :: s))) at 1.
      replace (length (leading is_underscore (c :: s)))
        with (5 + (length (leading is_underscore (c :: s)) - 5)) at 1 by lia.
      now rewrite repeat_app, <- app_assoc.
    + rewrite IH; [reflexivity | eapply no_separator_tail; eauto].
Qed.

(** With an empty body and a foot that holds no five underscores in a row,
    the whole foot, stripped, becomes the body and the footnote is
    empty. *)
Theorem separator_promotes_foot (raw_body raw_foot : pyval) :
  strip (text_of raw_body) = [] ->
  no_separator (text_of raw_foot) ->
  separate_body_footnote raw_body raw_foot = (strip (text_of raw_foot), []).
Proof.
  intros Hbody Hfoot; unfold separate_body_footnote; rewrite Hbody.
  destruct (strip (text_of raw_foot)) as [|c f] eqn:E; [reflexivity|].
  rewrite <- E, search_no_separator; [reflexivity|].
  now apply no_separator_strip.
Qed.

Lemma no_separator_check (s : str) :
  holds_separator s = false -> no_separator s.
Proof.
  intros H before after E; subst s.
  induction before as [|c before IH].
  - pose proof (leading_underscores 5 after) as Hrun.
    simpl app in H; cbn [holds_separator] in H.
    apply orb_false_iff in H as [H _].
    apply Nat.leb_gt in H; simpl app in Hrun; lia.
  - simpl app in H; cbn [holds_separator] in H.
    apply orb_false_iff in H as [_ H]; auto.
Qed.

Lemma separator_promotes_foot_witness :
  separate_body_footnote PyNaN (PyStr (u "  a note___here "))
  = (strip (text_of (PyStr (u "  a note___here "))), []).
Proof.
  apply (@separator_promotes_foot PyNaN (PyStr (u "  a note___here "))).
  - reflexivity.
  - apply no_separator_check; reflexivity.
Defined.

(** Whatever the inputs, the body and the footnote that come out have no
    whitespace left at either end. *)
Theorem separator_output_stripped (raw_body raw_foot : pyval) :
  strip (fst (separate_body_footnote raw_body raw_foot))
  = fst (separate_body_footnote raw_body raw_foot)
  /\ strip (snd (separate_body_footnote raw_body raw_foot))
     = snd (separate_body_footnote raw_body raw_foot).
Proof.
  unfold separate_body_footnote.
  pose proof (strip_idempotent (text_of raw_body)) as Hb.
  pose proof (strip_idempotent (text_of raw_foot)) as Hf.
  destruct (strip (text_of raw_body)) as [|b body].
  - destruct (strip (text_of raw_foot)) as [|c foot]; [split; reflexivity|].
    unfold re_split1.
    destruct (re_search separator_pattern (c :: foot)) as [[[before g] after]|];
      simpl; [|split; [exact Hf | reflexivity]].
    split; apply strip_idempotent.
  - simpl; split; assumption.
Qed.

(** ** Text normaliser, other inputs *)

Lemma miss_without_lt (pat : pattern) (c : N) (s : str) :
  opens_with_lt pat = true -> N.eqb c lt_sign = false ->
  match_here pat (c :: s) = None.
Proof.
  destruct pat as [|[l| | |] pat]; simpl; try discriminate.
  intros Hl Hc; apply N.eqb_eq in Hl; subst l; now rewrite Hc.
Qed.

Lemma sub_loop_miss (pat : pattern) (repl : list str -> str) (c : N) (s : str) :
  match_here pat (c :: s) = None ->
  sub_loop pat repl (c :: s) 0 = c :: sub_loop pat repl s 0.
Proof. intros H; cbn [sub_loop]; now rewrite H. Qed.

(** Text without [<] is passed over. *)
Lemma sub_loop_pass (pat : pattern) (repl : list str -> str) (x s : str) :
  opens_with_lt pat = true ->
  forallb (fun c => negb (N.eqb c lt_sign)) x = true ->
  sub_loop pat repl (x ++ s) 0 = x ++ sub_loop pat repl s 0.
Proof.
  intros Hpat; induction x as [|c x IH]; intros Hx; [reflexivity|].
  simpl in Hx; apply andb_true_iff in Hx as [Hc Hx].
  apply negb_true_iff in Hc.
  cbn [app]; rewrite sub_loop_miss by now apply miss_without_lt.
  now rewrite IH.
Qed.

Lemma re_sub_plain (pat : pattern) (repl : list str -> str) (s : str) :
  opens_with_lt pat = true ->
  forallb (fun c => negb (N.eqb c lt_sign)) s = true ->
  re_sub pat repl s = s.
Proof.
  intros Hpat Hs; unfold re_sub.
  rewrite <- (app_nil_r s) at 1.
  rewrite sub_loop_pass by assumption; simpl; apply app_nil_r.
Qed.

Lemma replace_char_keeps (p : N -> bool) (a b : N) (s : str) :
  p b = true -> forallb p s = true -> forallb p (replace_char a b s) = true.
Proof.
  intros Hb; unfold replace_char; induction s as [|c s IH]; simpl;
    [reflexivity|].
  intros H; apply andb_true_iff in H as [Hc Hs].
  rewrite (IH Hs), andb_true_r.
  now destruct (N.eqb c a).
Qed.

Lemma replace_char_app (a b : N) (x y : str) :
  replace_char a b (x ++ y) = replace_char a b x ++ replace_char a b y.
Proof. apply map_app. Qed.

Section PlainText.
Variable unicode_digit : N -> option N.

(** Text that holds no [<] comes out of the normaliser as it is, but for
    its carriage returns, which become line feeds; this holds in both
    modes. *)
Theorem text_without_markup_kept (self : builder) (text : str)
    (title_hierarchy : dict str) :
  forallb (fun c => negb (N.eqb c lt_sign)) text = true ->
  process_text unicode_digit self (PyStr text) title_hierarchy
  = replace_char cr lf text.
Proof.
  intros Htext; unfold process_text.
  destruct text as [|c text]; [reflexivity|].
  cbn [py_truthy negb pd_isna orb py_str].
  assert (Hkept : forallb (fun c => negb (N.eqb c lt_sign))
                    (replace_char cr lf (c :: text)) = true)
    by (apply replace_char_keeps; [reflexivity | exact Htext]).
  rewrite (re_sub_plain img_pattern) by (reflexivity || exact Hkept).
  rewrite (re_sub_plain (title_span_pattern unicode_digit))
    by (reflexivity || exact Hkept).
  rewrite (re_sub_plain span_pattern) by (reflexivity || exact Hkept).
  destruct (generate_toc self); [|reflexivity].
  rewrite (re_sub_plain title_pattern) by (reflexivity || exact Hkept).
  now rewrite (re_sub_plain tag_pattern) by (reflexivity || exact Hkept).
Qed.
End PlainText.

Lemma text_without_markup_kept_witness :
  process_text ascii_digits (bare_builder false)
    (PyStr (u "a > b" ++ [cr] ++ u "c")) []
  = replace_char cr lf (u "a > b" ++ [cr] ++ u "c").
Proof.
  apply (@text_without_markup_kept ascii_digits (bare_builder false)
           (u "a > b" ++ [cr] ++ u "c") []).
  reflexivity.
Defined.

(** *** What a match consumes *)

Lemma rep_greedy_sound {A} (p : N -> bool) (k : str -> option A)
    (min : nat) (s w : str) (a : A) :
  rep_greedy p k min s = Some (w, a) ->
  exists s', s = w ++ s' /\ k s' = Some a.
Proof.
  revert min w; induction s as [|c s IH]; intros min w; simpl.
  - destruct min; simpl; [|discriminate].
    destruct (k []) eqn:E; [|discriminate].
    intros [= <- <-]; exists []; auto.
  - assert (Hstop : rep_stop k min (c :: s) = Some (w, a) ->
                    exists s', c :: s = w ++ s' /\ k s' = Some a).
    { destruct min; simpl; [|discriminate].
      destruct (k (c :: s)) eqn:E; [|discriminate].
      intros [= <- <-]; exists (c :: s); auto. }
    destruct (p c); [|exact Hstop].
    destruct (rep_greedy p k (pred min) s) as [[w' a']|] eqn:E; [|exact Hstop].
    intros [= <- <-].
    destruct (IH _ _ E) as (s' & -> & Hk); exists s'; auto.
Qed.

Lemma rep_lazy_sound {A} (p : N -> bool) (k : str -> option A)
    (min : nat) (s w : str) (a : A) :
  rep_lazy p k min s = Some (w, a) ->
  exists s', s = w ++ s' /\ k s' = Some a.
Proof.
  revert min w; induction s as [|c s IH]; intros min w.
  - cbn [rep_lazy]; destruct min; simpl.
    + destruct (k []) eqn:E; [|discriminate].
      intros [= <- <-]; exists []; auto.
    + discriminate.
  - cbn [rep_lazy].
    destruct (rep_stop k min (c :: s)) as [[w0 a0]|] eqn:Estop.
    + intros [= <- <-]; destruct min; simpl in Estop; [|discriminate].
      destruct (k (c :: s)) eqn:E; [|discriminate].
      injection Estop as <- <-; exists (c :: s); auto.
    + destruct (p c); [|discriminate].
      destruct (rep_lazy p k (pred min) s) as [[w' a']|] eqn:E; [|discriminate].
      intros [= <- <-].
      destruct (IH _ _ E) as (s' & -> & Hk); exists s'; auto.
Qed.

(** What is left after a match is the end of the input. *)
Lemma match_here_rest (pat : pattern) (s : str) (groups : list str)
    (rest : str) :
  match_here pat s = Some (groups, rest) -> exists m, s = m ++ rest.
Proof.
  revert s groups rest; induction pat as [|[c|p|c|p min greedy capture] pat IH];
    intros s groups rest; cbn [match_here].
  - intros [= _ <-]; exists []; reflexivity.
  - destruct s as [|x s]; [discriminate|].
    destruct (N.eqb x c); [|discriminate].
    intros H; destruct (IH _ _ _ H) as (m & ->); now exists (x :: m).
  - destruct s as [|x s]; [discriminate|].
    destruct (p x); [|discriminate].
    intros H; destruct (IH _ _ _ H) as (m & ->); now exists (x :: m).
  - destruct s as [|x s]; [apply IH|].
    destruct (N.eqb x c); [|apply IH].
    destruct (match_here pat s) as [[g r]|] eqn:E; [|apply IH].
    intros [= <- <-]; destruct (IH _ _ _ E) as (m & ->); now exists (x :: m).
  - destruct greedy.
    + destruct (rep_greedy p (match_here pat) min s) as [[w [g r]]|] eqn:E;
        [|discriminate].
      intros [= _ <-].
      destruct (rep_greedy_sound _ _ _ _ E) as (s' & -> & Hk).
      destruct (IH _ _ _ Hk) as (m & ->); exists (w ++ m).
      now rewrite app_assoc.
    + destruct (rep_lazy p (match_here pat) min s) as [[w [g r]]|] eqn:E;
        [|discriminate].
      intros [= _ <-].
      destruct (rep_lazy_sound _ _ _ _ E) as (s' & -> & Hk).
      destruct (IH _ _ _ Hk) as (m & ->); exists (w ++ m).
      now rewrite app_assoc.
Qed.

Lemma match_here_lit_rest (c : N) (pat : pattern) (s : str)
    (groups : list str) (rest : str) :
  match_here (Lit c :: pat) s = Some (groups, rest) ->
  exists m, s = (c :: m) ++ rest.
Proof.
  cbn [match_here]; destruct s as [|x s]; [discriminate|].
  destruct (N.eqb_spec x c) as [->|_]; [|discriminate].
  intros H; destruct (match_here_rest _ _ H) as (m & ->); now exists m.
Qed.

Lemma rep_greedy_none {A} (p : N -> bool) (k : str -> option A)
    (min : nat) (s : str) :
  (forall c s', p c = true -> k (c :: s') = None) ->
  k (after_leading p s) = None ->
  rep_greedy p k min s = None.
Proof.
  intros Hk; revert min; induction s as [|c s IH]; intros min Hend; simpl in *.
  - destruct min; simpl; [now rewrite Hend | reflexivity].
  - destruct (p c) eqn:Hc.
    + rewrite (IH _ Hend).
      destruct min; simpl; [now rewrite (Hk c s Hc) | reflexivity].
    + destruct min; simpl; [now rewrite Hend | reflexivity].
Qed.

Lemma after_leading_all (p : N -> bool) (s : str) :
  forallb p s = true -> after_leading p s = [].
Proof.
  induction s as [|c s IH]; simpl; [reflexivity|].
  intros H; apply andb_true_iff in H as [Hc Hs]; rewrite Hc; auto.
Qed.

Lemma re_search_later (pat : pattern) (a s : str) :
  re_search pat (a ++ s) = None -> re_search pat s = None.
Proof.
  induction a as [|c a IH]; [trivial|].
  cbn [app]; rewrite re_search_unfold.
  destruct (match_here pat (c :: a ++ s)) as [[g r]|]; [discriminate|].
  destruct (re_search pat (a ++ s)) as [[[b g] r]|]; [discriminate|].
  intros _; now apply IH.
Qed.

(** *** No tag is left in table-of-contents mode *)

Lemma not_gt_false (c : N) : not_gt c = false -> c = gt_sign.
Proof. unfold not_gt; intros H; apply negb_false_iff in H; now apply N.eqb_eq. Qed.

Lemma tag_match_unfold (t : str) :
  match_here tag_pattern (lt_sign :: t)
  = match rep_greedy not_gt (match_here [Lit gt_sign]) 1 t with
    | Some (w, (groups, rest)) => Some (groups, rest)
    | None => None
    end.
Proof. reflexivity. Qed.

Lemma tag_needs_gt (s : str) :
  forallb not_gt s = true -> match_here tag_pattern s = None.
Proof.
  destruct s as [|c t]; [reflexivity|]; intros H.
  destruct (N.eqb_spec c lt_sign) as [->|Hc].
  - simpl in H; rewrite tag_match_unfold, rep_greedy_none; auto.
    + intros c s' Hc; simpl.
      destruct (N.eqb_spec c gt_sign) as [->|_]; [discriminate | reflexivity].
    + now rewrite after_leading_all.
  - apply miss_without_lt; [reflexivity | now apply N.eqb_neq].
Qed.

Lemma tag_free_kept (s : str) :
  forallb not_gt s = true -> sub_loop tag_pattern no_text s 0 = s.
Proof.
  induction s as [|c s IH]; [reflexivity|]; intros H.
  rewrite sub_loop_miss by now apply tag_needs_gt.
  simpl in H; apply andb_true_iff in H as [_ H]; now rewrite IH.
Qed.

(** A [<] that opens no tag although a character other than [>] follows
    it is followed by no [>] at all. *)
Lemma unclosed_tag (d : N) (t : str) :
  not_gt d = true ->
  match_here tag_pattern (lt_sign :: d :: t) = None ->
  forallb not_gt (d :: t) = true.
Proof.
  intros Hd Hnone.
  pose proof (leading_split not_gt (d :: t)) as Hsplit.
  pose proof (leading_all not_gt (d :: t)) as Hall.
  destruct (after_leading not_gt (d :: t)) as [|x r] eqn:Er.
  - rewrite app_nil_r in Hsplit; now rewrite Hsplit.
  - exfalso.
    apply after_leading_stops in Er as Hx; apply not_gt_false in Hx; subst x.
    rewrite tag_match_unfold, Hsplit in Hnone.
    rewrite (@rep_greedy_run _ not_gt (match_here [Lit gt_sign])
               (leading not_gt (d :: t)) (gt_sign :: r) ([], r) 1) in Hnone;
      [discriminate | exact Hall | reflexivity | reflexivity |].
    simpl; rewrite Hd; simpl; lia.
Qed.

Lemma no_tag_left_bounded (n : nat) (s : str) :
  length s <= n ->
  re_search tag_pattern (sub_loop tag_pattern no_text s 0) = None.
Proof.
  revert s; induction n as [|n IH]; intros s Hlen.
  - destruct s; [reflexivity | simpl in Hlen; lia].
  - destruct s as [|c s]; [reflexivity|].
    destruct (match_here tag_pattern (c :: s)) as [[g rest]|] eqn:Ematch.
    + destruct (match_here_lit_rest _ _ _ Ematch) as (m & Hs).
      rewrite Hs in Ematch |- *.
      rewrite (@sub_loop_match tag_pattern no_text (lt_sign :: m) rest g)
        by (discriminate || exact Ematch).
      apply IH.
      apply (f_equal (@length N)) in Hs; rewrite length_app in Hs.
      simpl in *; lia.
    + rewrite sub_loop_miss by exact Ematch.
      rewrite re_search_unfold.
      assert (Htail : re_search tag_pattern (sub_loop tag_pattern no_text s 0)
                      = None) by (apply IH; simpl in Hlen; lia).
      rewrite Htail.
      replace (match_here tag_pattern (c :: sub_loop tag_pattern no_text s 0))
        with (@None (list str * str)); [reflexivity|].
      symmetry.
      destruct (N.eqb_spec c lt_sign) as [->|Hc];
        [|apply miss_without_lt; [reflexivity | now apply N.eqb_neq]].
      destruct s as [|d t]; [reflexivity|].
      destruct (not_gt d) eqn:Hd.
      * pose proof (@unclosed_tag d t Hd Ematch) as Hfree.
        now rewrite tag_free_kept.
      * apply not_gt_false in Hd; subst d.
        rewrite sub_loop_miss by (apply miss_without_lt; reflexivity).
        reflexivity.
Qed.

Lemma found_from_here (pat : pattern) (a s : str) (groups : list str)
    (rest : str) :
  match_here pat s = Some (groups, rest) -> re_search pat (a ++ s) <> None.
Proof.
  intros Hmatch H; apply re_search_later in H.
  rewrite re_search_unfold, Hmatch in H; discriminate.
Qed.

Section NoTag.
Variable unicode_digit : N -> option N.

(** In table-of-contents mode the normalised text holds no tag: nowhere in
    it is a [<] followed by one character or more, none of them [>], and
    then a [>]. *)
Theorem toc_mode_leaves_no_tag (self : builder) (text : pyval)
    (title_hierarchy : dict str) (before inside after : str) :
  generate_toc self = true ->
  inside <> [] ->
  forallb not_gt inside = true ->
  process_text unicode_digit self text title_hierarchy
  <> before ++ [lt_sign] ++ inside ++ [gt_sign] ++ after.
Proof.
  intros Htoc Hinside Hfree Hout.
  assert (Hnone : re_search tag_pattern
                    (process_text unicode_digit self text title_hierarchy)
                  = None).
  { unfold process_text; rewrite Htoc.
    destruct (negb (py_truthy text) || pd_isna text); [reflexivity|].
    unfold re_sub at 1; eapply no_tag_left_bounded; apply Nat.le_refl. }
  rewrite Hout in Hnone; revert Hnone.
  apply (@found_from_here tag_pattern before _ [] after).
  cbn [app]; rewrite tag_match_unfold.
  rewrite (@rep_greedy_run _ not_gt (match_here [Lit gt_sign]) inside
             (gt_sign :: after) ([], after) 1);
    [reflexivity | exact Hfree | reflexivity | reflexivity |].
  destruct inside; [contradiction | simpl; lia].
Qed.
End NoTag.

Lemma toc_mode_leaves_no_tag_witness :
  process_text ascii_digits (bare_builder true)
    (PyStr (u "a <b>bold</b> < c")) []
  <> u "a " ++ [lt_sign] ++ u "b" ++ [gt_sign] ++ u "bold</b> < c".
Proof.
  apply (@toc_mode_leaves_no_tag ascii_digits (bare_builder true)
           (PyStr (u "a <b>bold</b> < c")) [] (u "a ") (u "b")
           (u "bold</b> < c")).
  - reflexivity.
  - discriminate.
  - reflexivity.
Defined.

(** *** Heading spans and image tags *)

Section Rewriting.
Variable unicode_digit : N -> option N.

(** Without table-of-contents mode, a heading span becomes a heading
    element that carries its id and the parent id the hierarchy gives for
    it, ["0"] when it gives none; the text is kept as it is. *)
Theorem heading_span_becomes_title_element (self : builder)
    (title_hierarchy : dict str) (n text : str) :
  generate_toc self = false ->
  n <> [] ->
  forallb (is_digit unicode_digit) n = true ->
  plain_text text = true ->
  no_bracket (parent_of title_hierarchy n) = true ->
  process_text unicode_digit self (PyStr (heading_span n text)) title_hierarchy
  = u "<title id=" ++ n ++ u " parent=" ++ parent_of title_hierarchy n
      ++ u ">" ++ text ++ u "</title>"
  /\ (~ In n (keys title_hierarchy) -> parent_of title_hierarchy n = u "0").
Proof.
  intros Htoc Hne Hn Htext Hparent; split; [|apply parent_of_unmapped].
  unfold process_text.
  assert (Hspan : py_truthy (PyStr (heading_span n text)) = true)
    by reflexivity.
  rewrite Hspan, Htoc; cbn [negb orb pd_isna py_str].
  rewrite (@heading_keeps_returns unicode_digit) by assumption.
  rewrite (@heading_has_no_image unicode_digit) by assumption.
  rewrite heading_rewritten by assumption.
  now apply (@title_element_has_no_span unicode_digit).
Qed.

(** An image tag is removed whole, whatever its attributes, and the text
    around it is kept. *)
Theorem image_tag_removed (self : builder) (title_hierarchy : dict str)
    (before attributes after : str) :
  forallb (fun c => negb (N.eqb c lt_sign)) before = true ->
  forallb not_gt attributes = true ->
  forallb (fun c => negb (N.eqb c lt_sign)) after = true ->
  process_text unicode_digit self
    (PyStr (before ++ u "<img" ++ attributes ++ [gt_sign] ++ after))
    title_hierarchy
  = replace_char cr lf (before ++ after).
Proof.
  intros Hbefore Hattr Hafter; unfold process_text.
  assert (Hfull : py_truthy
                    (PyStr (before ++ u "<img" ++ attributes ++ [gt_sign] ++ after))
                  = true).
  { destruct before; reflexivity. }
  rewrite Hfull; cbn [negb orb pd_isna py_str].
  rewrite !replace_char_app.
  set (b := replace_char cr lf before).
  set (a := replace_char cr lf after).
  set (w := replace_char cr lf attributes).
  assert (Hb : forallb (fun c => negb (N.eqb c lt_sign)) b = true)
    by (apply replace_char_keeps; [reflexivity | exact Hbefore]).
  assert (Ha : forallb (fun c => negb (N.eqb c lt_sign)) a = true)
    by (apply replace_char_keeps; [reflexivity | exact Hafter]).
  assert (Hw : forallb not_gt w = true)
    by (apply replace_char_keeps; [reflexivity | exact Hattr]).
  assert (Himg : re_sub img_pattern no_text
                   (b ++ replace_char cr lf (u "<img") ++ w
                      ++ replace_char cr lf [gt_sign] ++ a)
                 = b ++ a).
  { unfold re_sub; rewrite sub_loop_pass by (reflexivity || exact Hb).
    f_equal.
    change (replace_char cr lf (u "<img") ++ w ++ replace_char cr lf [gt_sign] ++ a)
      with (u "<img" ++ w ++ gt_sign :: a).
    replace (u "<img" ++ w ++ gt_sign :: a)
      with ((u "<img" ++ w ++ [gt_sign]) ++ a)
      by (rewrite <- !app_assoc; reflexivity).
    rewrite (@sub_loop_match img_pattern no_text (u "<img" ++ w ++ [gt_sign]) a []);
      [ | destruct w; discriminate | ].
    - simpl; fold (re_sub img_pattern no_text a).
      apply re_sub_plain; [reflexivity | exact Ha].
    - rewrite <- !app_assoc; unfold img_pattern, lits.
      rewrite match_lits.
      apply (@match_rep_greedy not_gt 0 false _ w (gt_sign :: a) [] a);
        [exact Hw | reflexivity | reflexivity | lia]. }
  rewrite Himg.
  assert (Hplain : forallb (fun c => negb (N.eqb c lt_sign)) (b ++ a) = true)
    by (rewrite forallb_app, Hb, Ha; reflexivity).
  rewrite (re_sub_plain (title_span_pattern unicode_digit))
    by (reflexivity || exact Hplain).
  rewrite (re_sub_plain span_pattern) by (reflexivity || exact Hplain).
  destruct (generate_toc self); [|reflexivity].
  rewrite (re_sub_plain title_pattern) by (reflexivity || exact Hplain).
  now rewrite (re_sub_plain tag_pattern) by (reflexivity || exact Hplain).
Qed.
End Rewriting.

Lemma heading_span_becomes_title_element_witness :
  process_text ascii_digits (bare_builder false)
    (PyStr (heading_span (u "12") (u "Chapter One"))) [(u "12", u "3")]
  = u "<title id=" ++ u "12" ++ u " parent="
      ++ parent_of [(u "12", u "3")] (u "12")
      ++ u ">" ++ u "Chapter One" ++ u "</title>"
  /\ (~ In (u "12") (keys [(u "12", u "3")]) ->
      parent_of [(u "12", u "3")] (u "12") = u "0").
Proof.
  apply (@heading_span_becomes_title_element ascii_digits (bare_builder false)
           [(u "12", u "3")] (u "12") (u "Chapter One")).
  - reflexivity.
  - discriminate.
  - reflexivity.
  - reflexivity.
  - reflexivity.
Defined.

Lemma image_tag_removed_witness :
  process_text ascii_digits (bare_builder false)
    (PyStr (u "see " ++ u "<img" ++ u " src='a.png' /" ++ [gt_sign] ++ u " here"))
    []
  = replace_char cr lf (u "see " ++ u " here").
Proof.
  apply (@image_tag_removed ascii_digits (bare_builder false) []
           (u "see ") (u " src='a.png' /") (u " here"));
    reflexivity.
Defined.

(** *** Other spans *)

Lemma rep_lazy_until_char {A} (k : str -> option A) (stop : N)
    (text s : str) (a : A) :
  (forall c s', N.eqb c stop = false -> k (c :: s') = None) ->
  forallb (fun c => negb (N.eqb c stop)) text = true ->
  k s = Some a ->
  rep_lazy any_char k 0 (text ++ s) = Some (text, a).
Proof.
  intros Hk Htext Hs; induction text as [|c text IH].
  - destruct s; simpl; now rewrite Hs.
  - simpl in Htext; apply andb_true_iff in Htext as [Hc Htext].
    apply negb_true_iff in Hc.
    cbn [app rep_lazy rep_stop]; rewrite (Hk _ _ Hc).
    cbn [any_char pred]; now rewrite IH.
Qed.

Lemma lits_mismatch (prefix : str) (pat : pattern) (x rest : str) :
  forallb not_gt prefix = true ->
  starts_with prefix x = false ->
  match_here (map Lit prefix ++ pat) (x ++ gt_sign :: rest) = None.
Proof.
  revert x; induction prefix as [|c prefix IH]; intros x Hfree Hx;
    [discriminate|].
  simpl in Hfree; apply andb_true_iff in Hfree as [Hc Hfree].
  destruct x as [|d x]; cbn [app map match_here].
  - unfold not_gt in Hc; apply negb_true_iff in Hc.
    rewrite N.eqb_sym in Hc; now rewrite Hc.
  - simpl in Hx; rewrite N.eqb_sym.
    destruct (N.eqb c d); [|reflexivity].
    apply IH; assumption.
Qed.

Lemma sub_loop_step (pat : pattern) (repl : list str -> str) (x s : str) :
  opens_with_lt pat = true ->
  match_here pat (lt_sign :: x ++ s) = None ->
  forallb (fun c => negb (N.eqb c lt_sign)) x = true ->
  sub_loop pat repl (lt_sign :: x ++ s) 0
  = lt_sign :: x ++ sub_loop pat repl s 0.
Proof.
  intros Hpat Hmiss Hx.
  rewrite sub_loop_miss by exact Hmiss.
  now rewrite sub_loop_pass.
Qed.

Lemma match_rep_lazy_until_char (stop : N) (capture : bool) (pat : pattern)
    (text s : str) (groups : list str) (rest : str) :
  forallb (fun c => negb (N.eqb c stop)) text = true ->
  match_here (Lit stop :: pat) s = Some (groups, rest) ->
  match_here (Rep any_char 0 false capture :: Lit stop :: pat) (text ++ s)
  = Some (if capture then text :: groups else groups, rest).
Proof.
  intros Htext Hs.
  change (match_here (Rep any_char 0 false capture :: Lit stop :: pat)
            (text ++ s))
    with (match rep_lazy any_char (match_here (Lit stop :: pat)) 0
                  (text ++ s) with
          | Some (w, (groups, rest)) =>
              Some (if capture then w :: groups else groups, rest)
          | None => None
          end).
  rewrite (@rep_lazy_until_char _ (match_here (Lit stop :: pat)) stop text s
             (groups, rest)); auto.
  intros c s' Hc; simpl; now rewrite Hc.
Qed.

Section OtherSpans.
Variables before attributes inner after : str.
Hypothesis before_plain : plain_text before = true.
Hypothesis attributes_plain : no_bracket attributes = true.
Hypothesis attributes_no_cr :
  forallb (fun c => negb (N.eqb c cr)) attributes = true.
Hypothesis inner_plain : plain_text inner = true.
Hypothesis after_plain : plain_text after = true.
Hypothesis no_heading :
  starts_with (u " data-type=") attributes = false.

Abbreviation not_lt := (fun c => negb (N.eqb c lt_sign)).
Abbreviation not_cr := (fun c => negb (N.eqb c cr)).

(** The text with its span, cut at each [<]. *)
Abbreviation wrapped :=
  (before ++ lt_sign :: (u "span" ++ attributes ++ [gt_sign] ++ inner)
     ++ lt_sign :: (u "/span>" ++ after)).

Ltac from_plain H :=
  apply forallb_weaken with (2 := H); intros c Hc;
  apply andb_true_iff in Hc as [Hc1 Hc2]; assumption.

Lemma before_no_lt : forallb not_lt before = true.
Proof. from_plain before_plain. Qed.
Lemma before_no_cr : forallb not_cr before = true.
Proof. from_plain before_plain. Qed.
Lemma inner_no_lt : forallb not_lt inner = true.
Proof. from_plain inner_plain. Qed.
Lemma inner_no_cr : forallb not_cr inner = true.
Proof. from_plain inner_plain. Qed.
Lemma after_no_lt : forallb not_lt after = true.
Proof. from_plain after_plain. Qed.
Lemma after_no_cr : forallb not_cr after = true.
Proof. from_plain after_plain. Qed.
Lemma attributes_no_lt : forallb not_lt attributes = true.
Proof. from_plain attributes_plain. Qed.
Lemma attributes_no_gt : forallb not_gt attributes = true.
Proof. from_plain attributes_plain. Qed.

Ltac parts :=
  repeat (first [rewrite forallb_app | progress cbn [forallb]]);
  repeat (apply andb_true_intro; split);
  first [ reflexivity | exact before_no_lt | exact before_no_cr
        | exact inner_no_lt | exact inner_no_cr
        | exact after_no_lt | exact after_no_cr
        | exact attributes_no_lt | exact attributes_no_gt
        | exact attributes_no_cr ].

Lemma wrapped_keeps_returns : replace_char cr lf wrapped = wrapped.
Proof. apply replace_char_absent; parts. Qed.

Lemma inside_no_lt :
  forallb not_lt (u "span" ++ attributes ++ [gt_sign] ++ inner) = true.
Proof. parts. Qed.

Lemma closing_no_lt : forallb not_lt (u "/span>" ++ after) = true.
Proof. parts. Qed.

(** A pattern that matches at neither [<] leaves the text as it is. *)
Lemma wrapped_kept (pat : pattern) (repl : list str -> str) :
  opens_with_lt pat = true ->
  match_here pat
    (lt_sign :: (u "span" ++ attributes ++ [gt_sign] ++ inner)
       ++ lt_sign :: (u "/span>" ++ after)) = None ->
  match_here pat (lt_sign :: u "/span>" ++ after) = None ->
  re_sub pat repl wrapped = wrapped.
Proof.
  intros Hpat Hopen Hclose; unfold re_sub.
  rewrite sub_loop_pass by (exact Hpat || exact before_no_lt).
  rewrite sub_loop_step by (exact Hpat || exact Hopen || exact inside_no_lt).
  rewrite (@sub_loop_step pat repl (u "/span>") after Hpat Hclose eq_refl).
  fold (re_sub pat repl after).
  now rewrite re_sub_plain by (exact Hpat || exact after_no_lt).
Qed.

Lemma wrapped_has_no_image : re_sub img_pattern no_text wrapped = wrapped.
Proof. apply wrapped_kept; reflexivity. Qed.

Lemma wrapped_is_no_heading (unicode_digit : N -> option N)
    (title_hierarchy : dict str) :
  re_sub (title_span_pattern unicode_digit)
    (replace_title_span title_hierarchy) wrapped = wrapped.
Proof.
  apply wrapped_kept; [reflexivity | | reflexivity].
  change (title_span_pattern unicode_digit)
    with (map Lit (u "<span") ++ map Lit (u " data-type=")
            ++ [Cls is_quote] ++ lits "title" ++ [Cls is_quote]
            ++ lits " id=toc-"
            ++ [Rep (is_digit unicode_digit) 1 true true; Lit gt_sign;
                Rep any_char 0 false true]
            ++ lits "</span>").
  replace (lt_sign :: (u "span" ++ attributes ++ [gt_sign] ++ inner)
             ++ lt_sign :: u "/span>" ++ after)
    with (u "<span" ++ attributes
            ++ gt_sign :: (inner ++ lt_sign :: u "/span>" ++ after))
    by (rewrite <- !app_assoc; reflexivity).
  rewrite match_lits.
  apply lits_mismatch; [reflexivity | exact no_heading].
Qed.

Lemma wrapped_unwrapped :
  re_sub span_pattern group1 wrapped = before ++ inner ++ after.
Proof.
  unfold re_sub; rewrite sub_loop_pass by (reflexivity || exact before_no_lt).
  f_equal.
  replace (lt_sign :: (u "span" ++ attributes ++ [gt_sign] ++ inner)
             ++ lt_sign :: u "/span>" ++ after)
    with ((u "<span" ++ attributes ++ gt_sign :: inner ++ u "</span>") ++ after)
    by (repeat (rewrite <- app_assoc || rewrite <- app_comm_cons);
        reflexivity).
  rewrite (@sub_loop_match span_pattern group1 _ after [inner]).
  - cbn [group1 nth]; f_equal.
    fold (re_sub span_pattern group1 after).
    apply re_sub_plain; [reflexivity | exact after_no_lt].
  - discriminate.
  - repeat (rewrite <- app_assoc || rewrite <- app_comm_cons).
    unfold span_pattern, lits.
    rewrite match_lits; cbn [app].
    apply (@match_rep_lazy_until_char gt_sign false _ attributes
             (gt_sign :: inner ++ u "</span>" ++ after) [inner] after).
    + exact attributes_no_gt.
    + rewrite match_lit.
      change (map Lit (u "</span>")) with (Lit lt_sign :: map Lit (u "/span>")).
      apply (@match_rep_lazy_until true _ inner (u "</span>" ++ after) [] after);
        [exact inner_no_lt|].
      change (Lit lt_sign :: map Lit (u "/span>"))
        with (map Lit (u "</span>") ++ []).
      now rewrite match_lits.
Qed.

Lemma unwrapped_no_lt : forallb not_lt (before ++ inner ++ after) = true.
Proof. parts. Qed.
End OtherSpans.

Section SpanWrapper.
Variable unicode_digit : N -> option N.

(** A span that is no heading span (its attributes do not begin with
    [ data-type=]) is replaced by the text it wraps, in both modes; the
    text before and after it is kept.  The text holds no [<] and no
    carriage return, the attributes no angle bracket and no carriage
    return. *)
Theorem span_wrapper_removed (self : builder) (title_hierarchy : dict str)
    (before attributes inner after : str) :
  plain_text before = true ->
  no_bracket attributes = true ->
  forallb (fun c => negb (N.eqb c cr)) attributes = true ->
  plain_text inner = true ->
  plain_text after = true ->
  starts_with (u " data-type=") attributes = false ->
  process_text unicode_digit self
    (PyStr (before ++ u "<span" ++ attributes ++ [gt_sign] ++ inner
              ++ u "</span>" ++ after))
    title_hierarchy
  = before ++ inner ++ after.
Proof.
  intros Hb Ha Hacr Hi Haf Hno.
  replace (before ++ u "<span" ++ attributes ++ [gt_sign] ++ inner
             ++ u "</span>" ++ after)
    with (before ++ lt_sign :: (u "span" ++ attributes ++ [gt_sign] ++ inner)
            ++ lt_sign :: (u "/span>" ++ after))
    by (rewrite <- !app_assoc; reflexivity).
  unfold process_text.
  assert (Hfull :
    py_truthy
      (PyStr (before ++ lt_sign :: (u "span" ++ attributes ++ [gt_sign] ++ inner)
                ++ lt_sign :: (u "/span>" ++ after))) = true)
    by (destruct before; reflexivity).
  rewrite Hfull; cbn [negb orb pd_isna py_str].
  rewrite wrapped_keeps_returns by assumption.
  rewrite wrapped_has_no_image by assumption.
  rewrite wrapped_is_no_heading by assumption.
  rewrite wrapped_unwrapped by assumption.
  pose proof (@unwrapped_no_lt before inner after Hb Hi Haf) as Hplain.
  destruct (generate_toc self); [|reflexivity].
  rewrite (re_sub_plain title_pattern) by (reflexivity || exact Hplain).
  now rewrite (re_sub_plain tag_pattern) by (reflexivity || exact Hplain).
Qed.
End SpanWrapper.

Lemma span_wrapper_removed_witness :
  process_text ascii_digits (bare_builder false)
    (PyStr (u "He said " ++ u "<span" ++ u " class='quote'" ++ [gt_sign]
              ++ u "peace" ++ u "</span>" ++ u " twice."))
    []
  = u "He said " ++ u "peace" ++ u " twice.".
Proof.
  apply (@span_wrapper_removed ascii_digits (bare_builder false) []
           (u "He said ") (u " class='quote'") (u "peace") (u " twice."));
    reflexivity.
Defined.

(** ** The shape of the forest *)

Section ForestShape.
Variable title_hierarchy : dict str.
Variable title_data : dict pyval.
Variable title_page_mapping : dict str.
Variable book_id : str.

Abbreviation parent := (parent_of title_hierarchy).
Abbreviation collect :=
  (collect_children title_hierarchy title_page_mapping book_id).
Abbreviation find :=
  (find_title_children title_hierarchy title_data title_page_mapping book_id).
Abbreviation mark := (mark_children_processed title_hierarchy).
Abbreviation loop :=
  (toc_loop title_hierarchy title_data title_page_mapping book_id).
Abbreviation forest :=
  (toc_forest title_hierarchy title_data title_page_mapping book_id).

(** The entry built for a title, its title being the stripped text of
    the cell and its chapters what [descend] returns for it. *)
Abbreviation entry_of descend :=
  (fun (kv : str * pyval) (c : toc_item) =>
     toc_page c = page_locator book_id title_page_mapping (fst kv)
     /\ strip_cell (snd kv) = Ok (toc_title c)
     /\ descend (fst kv) = Ok (toc_chapters c)).

Abbreviation child_of p :=
  (fun kv : str * pyval => str_eqb (parent (fst kv)) p).

(** The chapters found for a parent are the entries of the titles that
    have that parent, all of them and no other, in the order of the title
    data; the chapters of each are those found for it in turn. *)
Theorem children_are_the_titles_of_the_parent (depth : nat) (p : str)
    (children : list toc_item) :
  find (S depth) p = Ok children ->
  Forall2 (entry_of (find depth)) (filter (child_of p) title_data) children.
Proof.
  change (find (S depth) p) with (collect (find depth) p title_data).
  generalize (find depth) as descend; intros descend.
  revert children; induction title_data as [|[t text] items IH];
    intros children; simpl.
  - intros [= <-]; constructor.
  - destruct (str_eqb (parent t) p); [|apply IH].
    destruct (strip_cell text) as [title|] eqn:Etitle; simpl;
      [|discriminate].
    destruct (descend t) as [gs|] eqn:Egs; simpl; [|discriminate].
    destruct (collect descend p items) as [cs|]; simpl; [|discriminate].
    intros [= <-]; constructor; [|now apply IH].
    simpl; auto.
Qed.

(** More frames change no result. *)
Lemma collect_children_more (descend descend' : str -> res (list toc_item))
    (p : str) (items : dict pyval) (children : list toc_item) :
  (forall t cs, descend t = Ok cs -> descend' t = Ok cs) ->
  collect descend p items = Ok children ->
  collect descend' p items = Ok children.
Proof.
  intros Hmore; revert children; induction items as [|[t text] items IH];
    intros children; simpl; [trivial|].
  destruct (str_eqb (parent t) p); [|apply IH].
  destruct (strip_cell text) as [title|]; simpl; [|discriminate].
  destruct (descend t) as [gs|] eqn:Egs; simpl; [|discriminate].
  rewrite (Hmore _ _ Egs); simpl.
  destruct (collect descend p items) as [cs|]; simpl; [|discriminate].
  now rewrite (IH cs eq_refl).
Qed.

Lemma find_title_children_more (depth : nat) (p : str)
    (children : list toc_item) :
  find depth p = Ok children -> find (S depth) p = Ok children.
Proof.
  revert p children; induction depth as [|d IH]; intros p children;
    [discriminate|].
  intros H; change (find (S (S d)) p) with (collect (find (S d)) p title_data).
  eapply collect_children_more; [|exact H]; apply IH.
Qed.

Lemma mark_loop_more (descend descend' : str -> list str -> res (list str))
    (p : str) (ids : list str) :
  (forall t s s', descend t s = Ok s' -> descend' t s = Ok s') ->
  forall processed s',
    mark_loop title_hierarchy descend p ids processed = Ok s' ->
    mark_loop title_hierarchy descend' p ids processed = Ok s'.
Proof.
  intros Hmore; induction ids as [|t ids IH]; intros processed s'; simpl;
    [trivial|].
  destruct (str_eqb (parent t) p); [|apply IH].
  destruct (descend t (set_add t processed)) as [s1|] eqn:E; simpl;
    [|discriminate].
  rewrite (Hmore _ _ _ E); simpl; apply IH.
Qed.

Lemma mark_children_processed_more (depth : nat) (p : str)
    (processed s' : list str) :
  mark depth p processed = Ok s' -> mark (S depth) p processed = Ok s'.
Proof.
  revert p processed s'; induction depth as [|d IH]; intros p processed s';
    [discriminate|].
  intros H.
  change (mark (S (S d)) p processed)
    with (mark_loop title_hierarchy (mark (S d)) p (keys title_hierarchy)
            processed).
  eapply mark_loop_more; [|exact H]; apply IH.
Qed.

Lemma toc_loop_more (depth : nat) (items : dict pyval) :
  forall processed f,
    loop depth items processed = Ok f -> loop (S depth) items processed = Ok f.
Proof.
  induction items as [|[t text] items IH]; intros processed f;
    cbn [toc_loop]; [trivial|].
  destruct (mem t processed); [apply IH|].
  destruct (str_eqb (parent t) root_id); [|apply IH].
  destruct (strip_cell text) as [title|]; cbn [bind]; [|discriminate].
  destruct (find depth t) as [cs|] eqn:Ecs; [|discriminate].
  rewrite (find_title_children_more _ _ Ecs).
  cbn [bind].
  destruct (mark depth t (set_add t processed)) as [s|] eqn:Es; [|discriminate].
  rewrite (mark_children_processed_more _ _ _ Es).
  cbn [bind].
  destruct (loop depth items s) as [f'|] eqn:Ef; [|discriminate].
  now rewrite (IH _ _ Ef).
Qed.

(** A forest built within some number of frames is the forest built with
    any larger stack: the result does not depend on the recursion limit
    once the limit is not hit. *)
Theorem more_frames_same_forest (depth depth' : nat) (f : list toc_item) :
  depth <= depth' -> forest depth = Ok f -> forest depth' = Ok f.
Proof.
  intros Hle Hf; induction Hle as [|d Hle IH]; [exact Hf|].
  now apply toc_loop_more.
Qed.

Lemma set_add_In (x t : str) (s : list str) :
  In x (set_add t s) <-> x = t \/ In x s.
Proof.
  unfold set_add; destruct (mem t s) eqn:E; simpl.
  - apply mem_In in E; split; [auto | intros [->|H]; auto].
  - split; intros [H|H]; auto.
Qed.

Lemma mark_loop_adds (descend : str -> list str -> res (list str))
    (p : str) (ids : list str) :
  p <> root_id ->
  (forall t processed s, In t ids -> descend t processed = Ok s ->
     forall x, In x s -> In x processed \/ parent x <> root_id) ->
  forall processed s,
    mark_loop title_hierarchy descend p ids processed = Ok s ->
    forall x, In x s -> In x processed \/ parent x <> root_id.
Proof.
  intros Hp; induction ids as [|t ids IH]; intros Hd processed s; simpl.
  - intros [= <-]; auto.
  - assert (Hd' : forall t0 processed0 s0, In t0 ids ->
              descend t0 processed0 = Ok s0 ->
              forall x, In x s0 -> In x processed0 \/ parent x <> root_id)
      by (intros; eapply Hd; eauto; now right).
    destruct (str_eqb_spec (parent t) p) as [Ept|_]; [|now apply IH].
    destruct (descend t (set_add t processed)) as [s1|] eqn:E; simpl;
      [|discriminate].
    intros Hloop x Hx.
    destruct (IH Hd' _ _ Hloop x Hx) as [Hx1|Hx1]; [|now right].
    destruct (Hd t _ _ (or_introl eq_refl) E x Hx1) as [Hx2|Hx2]; [|now right].
    apply set_add_In in Hx2 as [->|Hx2]; [right; congruence | now left].
Qed.

(** Marking adds only titles that have a parent other than the
    sentinel. *)
Lemma mark_children_processed_adds (depth : nat) (p : str)
    (processed s : list str) :
  ~ In root_id (keys title_hierarchy) -> p <> root_id ->
  mark depth p processed = Ok s ->
  forall x, In x s -> In x processed \/ parent x <> root_id.
Proof.
  intros Hfree; revert p processed s; induction depth as [|d IH];
    intros p processed s Hp; [discriminate|].
  simpl; apply mark_loop_adds; [exact Hp|].
  intros t processed0 s0 Ht; apply IH.
  intros ->; contradiction.
Qed.

Lemma toc_loop_roots (depth : nat) (items : dict pyval) :
  ~ In root_id (keys title_hierarchy) ->
  ~ In root_id (keys items) ->
  NoDup (keys items) ->
  forall processed f,
    (forall x, In x processed -> In x (keys items) -> parent x <> root_id) ->
    loop depth items processed = Ok f ->
    Forall2 (entry_of (find depth)) (filter (child_of root_id) items) f.
Proof.
  intros Hth; induction items as [|[t text] items IH];
    intros Hfree Hnd processed f Hinv; cbn [toc_loop filter].
  - intros [= <-]; constructor.
  - inversion Hnd as [|? ? Ht Hnd']; subst.
    assert (Hfree' : ~ In root_id (keys items)) by (intros H; apply Hfree; now right).
    assert (Htr : t <> root_id) by (intros ->; apply Hfree; now left).
    cbn [fst].
    destruct (mem t processed) eqn:Emem.
    + apply mem_In in Emem.
      destruct (str_eqb_spec (parent t) root_id) as [E|_].
      * now contradiction (Hinv t Emem (or_introl eq_refl)).
      * apply IH; auto. intros x Hx Hk; apply Hinv; [exact Hx | now right].
    + destruct (str_eqb_spec (parent t) root_id) as [E|_].
      * destruct (strip_cell text) as [title|] eqn:Etitle; cbn [bind];
          [|discriminate].
        destruct (find depth t) as [cs|] eqn:Ecs; [|discriminate].
        cbn [bind].
        destruct (mark depth t (set_add t processed)) as [s|] eqn:Es;
          [|discriminate].
        cbn [bind].
        destruct (loop depth items s) as [f'|] eqn:Ef; [|discriminate].
        intros [= <-]; constructor; [simpl; auto|].
        apply (IH Hfree' Hnd' s f'); [|exact Ef].
        intros x Hx Hk.
        destruct (@mark_children_processed_adds depth t (set_add t processed) s
                    Hth Htr Es x Hx)
          as [Hx1|Hx1]; [|exact Hx1].
        apply set_add_In in Hx1 as [->|Hx1]; [contradiction|].
        apply Hinv; [exact Hx1 | now right].
      * apply IH; auto. intros x Hx Hk; apply Hinv; [exact Hx | now right].
Qed.

(** When the sentinel is neither a title id nor a key of the hierarchy,
    the roots of the forest are the entries of the titles whose parent is
    the sentinel, all of them and no other, in the order of the title data;
    the chapters of each are those found for it. *)
Theorem roots_are_the_top_level_titles (depth : nat) (f : list toc_item) :
  ~ In root_id (keys title_hierarchy) ->
  ~ In root_id (keys title_data) ->
  NoDup (keys title_data) ->
  forest depth = Ok f ->
  Forall2 (entry_of (find depth)) (filter (child_of root_id) title_data) f.
Proof.
  intros Hth Htd Hnd Hf.
  apply (@toc_loop_roots depth title_data Hth Htd Hnd [] f); [|exact Hf].
  intros x [].
Qed.
End ForestShape.

Lemma children_are_the_titles_of_the_parent_witness :
  Forall2
    (fun (kv : str * pyval) (c : toc_item) =>
       toc_page c = page_locator (u "7") [] (fst kv)
       /\ strip_cell (snd kv) = Ok (toc_title c)
       /\ find_title_children [(u "2", u "1"); (u "3", u "1")]
            [(u "1", PyStr (u "A")); (u "2", PyStr (u "B"));
             (u "3", PyStr (u "C"))] [] (u "7") 3
            (fst kv)
          = Ok (toc_chapters c))
    (filter
       (fun kv : str * pyval =>
          str_eqb (parent_of [(u "2", u "1"); (u "3", u "1")] (fst kv)) (u "1"))
       [(u "1", PyStr (u "A")); (u "2", PyStr (u "B")); (u "3", PyStr (u "C"))])
    [TocItem (u "7/1") (u "B") []; TocItem (u "7/1") (u "C") []].
Proof.
  apply (@children_are_the_titles_of_the_parent
           [(u "2", u "1"); (u "3", u "1")]
           [(u "1", PyStr (u "A")); (u "2", PyStr (u "B"));
            (u "3", PyStr (u "C"))] [] (u "7") 3
           (u "1")).
  reflexivity.
Defined.

Lemma more_frames_same_forest_witness :
  toc_forest [(u "2", u "1")] [(u "1", PyStr (u "A"));
                               (u "2", PyStr (u "B"))] [] (u "7") 40
  = Ok [TocItem (u "7/1") (u "A") [TocItem (u "7/1") (u "B") []]].
Proof.
  apply (@more_frames_same_forest [(u "2", u "1")]
           [(u "1", PyStr (u "A")); (u "2", PyStr (u "B"))] [] (u "7") 3 40).
  - repeat constructor.
  - reflexivity.
Defined.

Lemma roots_are_the_top_level_titles_witness :
  Forall2
    (fun (kv : str * pyval) (c : toc_item) =>
       toc_page c = page_locator (u "7") [] (fst kv)
       /\ strip_cell (snd kv) = Ok (toc_title c)
       /\ find_title_children [(u "2", u "1")]
            [(u "1", PyStr (u "A")); (u "2", PyStr (u "B"));
             (u "3", PyStr (u "C"))] [] (u "7") 3
            (fst kv)
          = Ok (toc_chapters c))
    (filter
       (fun kv : str * pyval =>
          str_eqb (parent_of [(u "2", u "1")] (fst kv)) root_id)
       [(u "1", PyStr (u "A")); (u "2", PyStr (u "B")); (u "3", PyStr (u "C"))])
    [TocItem (u "7/1") (u "A") [TocItem (u "7/1") (u "B") []];
     TocItem (u "7/1") (u "C") []].
Proof.
  apply (@roots_are_the_top_level_titles [(u "2", u "1")]
           [(u "1", PyStr (u "A")); (u "2", PyStr (u "B"));
            (u "3", PyStr (u "C"))] [] (u "7") 3).
  - vm_compute; intros [H|[]]; discriminate.
  - vm_compute; intros [H|[H|[H|[]]]]; discriminate.
  - repeat constructor; vm_compute; intuition discriminate.
  - reflexivity.
Defined.

Section FlatForest.
Variable title_data : dict pyval.
Variable title_page_mapping : dict str.
Variable book_id : str.

(** The entry of a title that has no chapter, for a cell that holds
    text. *)
Abbreviation leaf :=
  (fun kv : str * pyval =>
     TocItem (page_locator book_id title_page_mapping (fst kv))
       (strip (py_str (snd kv))) []).

Lemma no_children_without_hierarchy
    (descend : str -> res (list toc_item)) (t : str) (items : dict pyval) :
  t <> root_id ->
  collect_children [] title_page_mapping book_id descend t items = Ok [].
Proof.
  intros Ht; induction items as [|[t' text] items IH];
    cbn [collect_children]; [reflexivity|].
  change (parent_of [] t') with root_id.
  destruct (str_eqb_spec root_id t) as [E|_]; [congruence | exact IH].
Qed.

(** One turn of the loop on a title that is not yet processed. *)
Lemma flat_turn (depth : nat) (t : str) (text : pyval) (items : dict pyval)
    (processed : list str) :
  t <> root_id -> ~ In t processed ->
  toc_loop [] title_data title_page_mapping book_id (S depth)
    ((t, text) :: items) processed
  = title <- strip_cell text ;;
    toc_items <- toc_loop [] title_data title_page_mapping book_id (S depth)
                   items (set_add t processed) ;;
    Ok (TocItem (page_locator book_id title_page_mapping t) title []
          :: toc_items).
Proof.
  intros Ht Hnew; cbn [toc_loop].
  assert (Emem : mem t processed = false) by now apply mem_not_In.
  rewrite Emem.
  change (parent_of [] t) with root_id; rewrite str_eqb_refl.
  destruct (strip_cell text) as [title|]; cbn [bind]; [|reflexivity].
  change (find_title_children [] title_data title_page_mapping book_id
            (S depth) t)
    with (collect_children [] title_page_mapping book_id
            (find_title_children [] title_data title_page_mapping book_id depth)
            t title_data).
  rewrite no_children_without_hierarchy by exact Ht.
  reflexivity.
Qed.

Lemma flat_loop (depth : nat) (items : dict pyval) :
  ~ In root_id (keys items) -> NoDup (keys items) ->
  Forall (fun kv => is_text (snd kv)) items ->
  forall processed,
    (forall x, In x (keys items) -> ~ In x processed) ->
    toc_loop [] title_data title_page_mapping book_id (S depth) items processed
    = Ok (map leaf items).
Proof.
  induction items as [|[t text] items IH];
    intros Hfree Hnd Htext processed Hinv; [reflexivity|].
  inversion Hnd as [|? ? Ht Hnd']; subst.
  inversion Htext as [|? ? Hcell Htext']; subst; simpl in Hcell.
  rewrite flat_turn;
    [|intros ->; apply Hfree; now left | apply Hinv; now left].
  destruct text; try contradiction; cbn [strip_cell bind].
  rewrite IH; [reflexivity | | exact Hnd' | exact Htext' |].
  - intros H; apply Hfree; now right.
  - intros x Hx Hin; apply set_add_In in Hin as [->|Hin]; [contradiction|].
    apply (Hinv x); [now right | exact Hin].
Qed.

Lemma flat_loop_raises (depth : nat) (items : dict pyval) :
  ~ In root_id (keys items) -> NoDup (keys items) ->
  Exists (fun kv => ~ is_text (snd kv)) items ->
  forall processed,
    (forall x, In x (keys items) -> ~ In x processed) ->
    toc_loop [] title_data title_page_mapping book_id (S depth) items processed
    = Raise AttributeError.
Proof.
  induction items as [|[t text] items IH];
    intros Hfree Hnd Hcell processed Hinv; [inversion Hcell|].
  inversion Hnd as [|? ? Ht Hnd']; subst.
  rewrite flat_turn;
    [|intros ->; apply Hfree; now left | apply Hinv; now left].
  destruct text as [| |z|f|s]; try reflexivity.
  cbn [strip_cell bind].
  rewrite IH; [reflexivity | | exact Hnd' | |].
  - intros H; apply Hfree; now right.
  - inversion Hcell as [? ? H|? ? H]; subst; [|exact H].
    simpl in H; now contradiction H.
  - intros x Hx Hin; apply set_add_In in Hin as [->|Hin]; [contradiction|].
    apply (Hinv x); [now right | exact Hin].
Qed.

(** With an empty title hierarchy, which is what a book without a
    database gets, every title is a root and none has chapters.  When
    every cell of the title data holds text, the forest is the list of the
    titles, in the order of the title data; when some cell holds no text,
    the builder raises [AttributeError]. *)
Theorem flat_forest_without_hierarchy (depth : nat) :
  ~ In root_id (keys title_data) ->
  NoDup (keys title_data) ->
  1 <= depth ->
  (Forall (fun kv => is_text (snd kv)) title_data ->
   toc_forest [] title_data title_page_mapping book_id depth
   = Ok (map leaf title_data))
  /\ (Exists (fun kv => ~ is_text (snd kv)) title_data ->
      toc_forest [] title_data title_page_mapping book_id depth
      = Raise AttributeError).
Proof.
  intros Hfree Hnd Hdepth; destruct depth as [|d]; [lia|].
  split; intros Hcells.
  - apply flat_loop; auto.
  - apply flat_loop_raises; auto.
Qed.
End FlatForest.

Lemma flat_forest_without_hierarchy_witness :
  toc_forest [] [(u "1", PyStr (u " A ")); (u "2", PyStr (u "B"))]
    [(u "2", u "20")] (u "7") 1
  = Ok [TocItem (u "7/1") (u "A") []; TocItem (u "7/20") (u "B") []]
  /\ toc_forest [] [(u "1", PyInt 1); (u "2", PyInt 2)] [] (u "7") 1
     = Raise AttributeError.
Proof.
  split.
  - apply (@flat_forest_without_hierarchy
             [(u "1", PyStr (u " A ")); (u "2", PyStr (u "B"))]
             [(u "2", u "20")] (u "7") 1).
    + vm_compute; intros [H|[H|[]]]; discriminate.
    + repeat constructor; vm_compute; intuition discriminate.
    + lia.
    + repeat constructor.
  - apply (@flat_forest_without_hierarchy
             [(u "1", PyInt 1); (u "2", PyInt 2)] [] (u "7") 1).
    + vm_compute; intros [H|[H|[]]]; discriminate.
    + repeat constructor; vm_compute; intuition discriminate.
    + lia.
    + left; simpl; tauto.
Defined.

(** ** Integers and their text *)

Lemma int_strip_no_space (s : str) :
  forallb (fun c => negb (is_int_space c)) s = true -> int_strip s = s.
Proof.
  intros H.
  assert (Hsolid : forall t,
             forallb (fun c => negb (is_int_space c)) t = true ->
             int_lstrip t = t).
  { intros [|c t]; simpl; [trivial|].
    intros E; apply andb_true_iff in E as [E _].
    apply negb_true_iff in E; now rewrite E. }
  unfold int_strip; rewrite (Hsolid s H), Hsolid by now rewrite forallb_rev.
  apply rev_involutive.
Qed.

Lemma uint_text_no_space (d : Decimal.uint) :
  forallb (fun c => negb (is_int_space c)) (u (NilEmpty.string_of_uint d))
  = true.
Proof. induction d; simpl; auto. Qed.

Section IntegerText.
Variable unicode_digit : N -> option N.

Abbreviation digits := (digits_value unicode_digit).
Abbreviation int_of := (py_int unicode_digit).

Lemma digits_of_uint_acc (d : Decimal.uint) (p : positive) :
  digits (Z.pos p) true (u (NilEmpty.string_of_uint d))
  = Some (Z.pos (Pos.of_uint_acc d p)).
Proof.
  revert p; induction d; intros p; [reflexivity| ..];
    cbn [NilEmpty.string_of_uint];
    change (u (String ?c ?s)) with (N_of_ascii c :: u s);
    cbn [digits_value];
    match goal with
    | |- context [digit_value _ ?c] =>
        let v := eval cbv in (c - 48)%N in
        change (digit_value unicode_digit c) with (Some v)
    end;
    cbn [Pos.of_uint_acc]; rewrite <- IHd; f_equal; lia.
Qed.

Lemma digits_of_uint (d : Decimal.uint) (after_digit : bool) :
  d <> Decimal.Nil \/ after_digit = true ->
  digits 0 after_digit (u (NilEmpty.string_of_uint d))
  = Some (Z.of_N (Pos.of_uint d)).
Proof.
  revert after_digit; induction d; intros b Hb.
  - destruct Hb as [Hb| ->]; [congruence | reflexivity].
  - cbn [NilEmpty.string_of_uint];
      change (u (String ?c ?s)) with (N_of_ascii c :: u s).
    cbn [digits_value].
    change (digit_value unicode_digit (N_of_ascii "0")) with (Some 0%N).
    cbn [Pos.of_uint]; apply IHd; now right.
  - apply (digits_of_uint_acc d 1).
  - apply (digits_of_uint_acc d 2).
  - apply (digits_of_uint_acc d 3).
  - apply (digits_of_uint_acc d 4).
  - apply (digits_of_uint_acc d 5).
  - apply (digits_of_uint_acc d 6).
  - apply (digits_of_uint_acc d 7).
  - apply (digits_of_uint_acc d 8).
  - apply (digits_of_uint_acc d 9).
Qed.

Lemma uint_text_unsigned (d : Decimal.uint) :
  d <> Decimal.Nil ->
  int_of (u (NilEmpty.string_of_uint d))
  = digits 0 false (u (NilEmpty.string_of_uint d)).
Proof.
  intros Hd; unfold py_int.
  rewrite int_strip_no_space by apply uint_text_no_space.
  destruct d; [congruence| ..]; reflexivity.
Qed.

(** [int(str(z)) == z]: the text of an integer reads back as that
    integer, whatever digits the runtime knows beyond ASCII. *)
Lemma int_of_str_round_trip (z : Z) : int_of (str_of_Z z) = Some z.
Proof.
  unfold str_of_Z; destruct z as [|p|p]; cbn [Z.to_int NilEmpty.string_of_int].
  - reflexivity.
  - rewrite uint_text_unsigned by apply DecimalPos.Unsigned.to_uint_nonnil.
    rewrite digits_of_uint by (left; apply DecimalPos.Unsigned.to_uint_nonnil).
    now rewrite DecimalPos.Unsigned.of_to.
  - change (u (String ?c ?s)) with (N_of_ascii c :: u s).
    unfold py_int; rewrite int_strip_no_space
      by (cbn [forallb]; rewrite uint_text_no_space; reflexivity).
    change (N_of_ascii "-") with 45%N; cbv iota beta.
    rewrite digits_of_uint by (left; apply DecimalPos.Unsigned.to_uint_nonnil).
    now rewrite DecimalPos.Unsigned.of_to.
Qed.

Lemma str_of_Z_inj (a b : Z) : str_of_Z a = str_of_Z b -> a = b.
Proof.
  intros E; generalize (int_of_str_round_trip a); rewrite E.
  rewrite int_of_str_round_trip; congruence.
Qed.

End IntegerText.

(** ** Pieces of a split text *)

Lemma split_on_no_sep (sep : N) (s p : str) :
  In p (split_on sep s) -> ~ In sep p.
Proof.
  revert p; induction s as [|c s IH]; intros p; simpl.
  - intros [<-|[]] [].
  - destruct (N.eqb_spec c sep) as [->|Hc].
    + intros [<-|H]; [intros [] | now apply IH].
    + destruct (split_on sep s) as [|q qs]; simpl.
      * intros [<-|[]] [H|[]]; congruence.
      * intros [<-|H].
        -- intros [E|E]; [congruence|]. apply (IH q); [now left | exact E].
        -- apply IH; now right.
Qed.

(** The lines kept from a meta entry are not empty, carry no white space
    at either end and hold no carriage return. *)
Lemma meta_lines_clean (text : str) :
  Forall (fun l => l <> [] /\ strip l = l /\ ~ In cr l) (meta_lines text).
Proof.
  apply Forall_forall; intros l Hl; unfold meta_lines in Hl.
  apply in_map_iff in Hl as (line & <- & Hline).
  apply filter_In in Hline as [Hline Hkeep].
  split; [|split].
  - destruct (strip line); [discriminate | discriminate].
  - apply strip_idempotent.
  - intros H; apply strip_In in H.
    exact (split_on_no_sep _ _ _ Hline H).
Qed.

(** ** The document, field by field *)

Lemma list_sum_add {A} (f g : A -> nat) (l : list A) :
  list_sum (map (fun x => f x + g x) l)
  = list_sum (map f l) + list_sum (map g l).
Proof. induction l as [|x l IH]; simpl; [reflexivity | rewrite IH; lia]. Qed.

Lemma one_label_matches (k : str) (labels : list str) :
  NoDup labels -> In k labels ->
  list_sum (map (fun l => if str_eqb k l then 1 else 0) labels) = 1.
Proof.
  induction labels as [|l labels IH]; intros Hnd Hin; [contradiction|].
  inversion Hnd as [|? ? Hl Hnd']; subst; simpl.
  destruct (str_eqb_spec k l) as [->|Hkl].
  - f_equal. clear - Hl.
    induction labels as [|l' labels IH]; [reflexivity|]; simpl.
    destruct (str_eqb_spec l l') as [->|_]; [exfalso; apply Hl; now left|].
    apply IH; intros H; apply Hl; now right.
  - destruct Hin as [->|Hin]; [congruence | now apply IH].
Qed.

(** Filed under pairwise distinct labels that cover them, the items are
    as many as before. *)
Lemma filed_total {V} (labels : list str) (items : list (str * V)) :
  NoDup labels ->
  (forall kv, In kv items -> In (fst kv) labels) ->
  list_sum (map (fun l => length (filed_under l items)) labels)
  = length items.
Proof.
  intros Hnd; induction items as [|kv items IH]; intros Hcover.
  - clear; induction labels; simpl; auto.
  - rewrite (map_ext _ (fun l => (if str_eqb (fst kv) l then 1 else 0)
                                 + length (filed_under l items))).
    + rewrite list_sum_add, one_label_matches, IH; auto.
      * intros kv' H; apply Hcover; now right.
      * apply Hcover; now left.
    + intros l; unfold filed_under; simpl.
      destruct (str_eqb (fst kv) l); reflexivity.
Qed.

Section DocumentFields.
Variable unicode_digit : N -> option N.
Variable json : Type.
Variable json_loads : str -> option json.
Variable json_truthy : json -> bool.
Variable empty_object : json.

Abbreviation build :=
  (build_book_json unicode_digit json_loads json_truthy empty_object).
Abbreviation process :=
  (process_single_book unicode_digit json_loads json_truthy empty_object).
Abbreviation parse := (parse_json_field json_loads).
Abbreviation or_object := (or_empty_object json_truthy empty_object).

(** What a returned document is made of. *)
Lemma doc_built (self : builder) (book_id : str) (book_data : row)
    (book_content : list page_row) (page_structure : dict page_info)
    (title_hierarchy : dict str) (md : metadata)
    (book_meta_content author_meta_content : list str) (doc : book_json json) :
  build self book_id book_data book_content page_structure title_hierarchy md
    book_meta_content author_meta_content = Ok doc ->
  exists pdf_links meta_data,
    parse (row_get_or book_data "pdf_links" (PyStr [])) = Ok pdf_links
    /\ parse (row_get_or book_data "meta_data" (PyStr [])) = Ok meta_data
    /\ doc_pdf_links doc = or_object pdf_links
    /\ doc_meta_data doc = or_object meta_data
    /\ doc_book_id doc = book_id
    /\ doc_title doc = row_get_or book_data "book_name" (PyStr [])
    /\ doc_book_meta doc = book_meta_content
    /\ doc_author_meta doc = author_meta_content
    /\ doc_authors doc
       = authors_info_of unicode_digit (authors_lookup md)
           (row_get_or book_data "main_author" (PyStr []))
           (author_id_list book_data).
Proof.
  unfold build_book_json.
  destruct (build_table_of_contents _ _ _ _ _); simpl; [|discriminate].
  destruct (parse_json_field _ (row_get_or book_data "pdf_links" _))
    as [pdf|]; simpl; [|discriminate].
  destruct (parse_json_field _ (row_get_or book_data "meta_data" _))
    as [meta|]; simpl; [|discriminate].
  intros [= <-]; exists pdf, meta; repeat split.
Qed.

(** Every record gives one page: the parts of a document have pairwise
    distinct labels and together hold as many pages as there are page
    records. *)
Theorem every_record_gives_one_page (self : builder) (book_id : str)
    (book_data : row) (book_content : list page_row)
    (page_structure : dict page_info) (title_hierarchy : dict str)
    (md : metadata) (book_meta_content author_meta_content : list str)
    (doc : book_json json) :
  build self book_id book_data book_content page_structure title_hierarchy md
    book_meta_content author_meta_content = Ok doc ->
  list_sum (map (fun p => length (part_pages p)) (doc_parts doc))
  = length book_content
  /\ NoDup (map part_name (doc_parts doc)).
Proof.
  intros Hdoc; rewrite (doc_parts_built _ _ _ _ _ _ _ _ _ _ _ _ _ Hdoc).
  rewrite parts_list_grouped; unfold clean_parts; rewrite !map_map; simpl.
  split.
  - rewrite (map_ext _ (fun l =>
               length (filed_under l
                         (map (page_data_of unicode_digit self title_hierarchy
                                 page_structure) book_content))))
      by (intros l; apply length_map).
    rewrite filed_total.
    + apply length_map.
    + apply first_seen_NoDup.
    + intros kv Hkv; apply first_seen_In.
      apply in_map_iff in Hkv as (r & <- & Hr).
      apply in_map_iff; exists r; split; [reflexivity | exact Hr].
  - rewrite map_id; apply first_seen_NoDup.
Qed.

(** A JSON field that is missing, blank, or text that [json.loads]
    rejects, shows as the empty object in the document. *)
Theorem malformed_json_gives_empty_object (self : builder) (book_id : str)
    (book_data : row) (book_content : list page_row)
    (page_structure : dict page_info) (title_hierarchy : dict str)
    (md : metadata) (book_meta_content author_meta_content : list str)
    (doc : book_json json) :
  build self book_id book_data book_content page_structure title_hierarchy md
    book_meta_content author_meta_content = Ok doc ->
  (row_get book_data "pdf_links" = None -> doc_pdf_links doc = empty_object)
  /\ (row_get book_data "meta_data" = None -> doc_meta_data doc = empty_object)
  /\ (forall text,
        row_get book_data "pdf_links" = Some (PyStr text) ->
        strip text = [] \/ json_loads (strip text) = None ->
        doc_pdf_links doc = empty_object)
  /\ (forall text,
        row_get book_data "meta_data" = Some (PyStr text) ->
        strip text = [] \/ json_loads (strip text) = None ->
        doc_meta_data doc = empty_object).
Proof.
  intros Hdoc.
  destruct (doc_built _ _ _ _ _ _ _ _ _ Hdoc)
    as (pdf & meta & Epdf & Emeta & -> & -> & _).
  unfold row_get_or in Epdf, Emeta.
  assert (Hfield : forall s parsed,
            parse (PyStr s) = Ok parsed ->
            strip s = [] \/ json_loads (strip s) = None ->
            or_object parsed = empty_object).
  { intros s parsed E Hbad; unfold parse_json_field in E.
    destruct s as [|c s]; simpl in E; [now injection E as <-|].
    destruct (strip (c :: s)) as [|d t] eqn:Es.
    - now injection E as <-.
    - destruct Hbad as [Hbad|Hbad]; [discriminate|].
      injection E as <-; now rewrite Hbad. }
  split; [|split; [|split]].
  - intros H; rewrite H in Epdf; now injection Epdf as <-.
  - intros H; rewrite H in Emeta; now injection Emeta as <-.
  - intros text H Hbad; rewrite H in Epdf; eapply Hfield; eauto.
  - intros text H Hbad; rewrite H in Emeta; eapply Hfield; eauto.
Qed.

(** A JSON field that holds a number other than zero makes the assembly
    fail with [AttributeError], once the table of contents is built. *)
Theorem numeric_json_field_raises (self : builder) (book_id : str)
    (book_data : row) (book_content : list page_row)
    (page_structure : dict page_info) (title_hierarchy : dict str)
    (md : metadata) (book_meta_content author_meta_content : list str)
    (toc : option (list toc_item)) (z : Z) :
  build_table_of_contents self book_id title_hierarchy book_content
    page_structure = Ok toc ->
  row_get book_data "pdf_links" = Some (PyInt z) ->
  z <> 0%Z ->
  build self book_id book_data book_content page_structure title_hierarchy md
    book_meta_content author_meta_content = Raise AttributeError.
Proof.
  intros Htoc Hcell Hz; unfold build_book_json; rewrite Htoc; simpl.
  unfold row_get_or; rewrite Hcell; unfold parse_json_field; simpl.
  apply Z.eqb_neq in Hz; now rewrite Hz.
Qed.

(** *** Authors *)

Abbreviation authors_info := (authors_info_of unicode_digit).
Abbreviation int_of := (py_int unicode_digit).

Abbreviation author_entry r z main :=
  {| author_id := str_of_Z z;
     author_name := row_get_or r "author_name" (PyStr []);
     death_number := row_get_or r "death_number" (PyStr []);
     death_text := or_empty (row_get_or r "death_text" (PyStr []));
     is_main_author := int_eq z main |}.

Lemma authors_info_step (authors : table) (main : pyval) (s : str)
    (ids : list str) :
  authors_info authors main (s :: ids)
  = match int_of s with
    | Some z =>
        match table_get authors z with
        | Some (c :: r) => [author_entry (c :: r) z main]
        | _ => []
        end
    | None => []
    end ++ authors_info authors main ids.
Proof.
  cbn [authors_info_of]; destruct s as [|c s]; [reflexivity|].
  destruct (int_of (c :: s)) as [z|]; [|reflexivity].
  unfold table_get_cell; destruct (table_get authors z) as [[|c' r]|];
    reflexivity.
Qed.

Lemma authors_info_In (authors : table) (main : pyval)
    (ids : list str) (a : author_info) :
  In a (authors_info authors main ids)
  <-> exists s z r,
        In s ids /\ int_of s = Some z /\ table_get authors z = Some r
        /\ r <> [] /\ a = author_entry r z main.
Proof.
  induction ids as [|s ids IH].
  - split; [intros [] | intros (s & _ & _ & [] & _)].
  - rewrite authors_info_step, in_app_iff, IH; split.
    + intros [H|(s' & z & r & Hs & H)].
      * destruct (int_of s) as [z|] eqn:Ez; [|destruct H].
        destruct (table_get authors z) as [[|c r]|] eqn:Er; try destruct H as [H|[]];
          try destruct H.
        exists s, z, (c :: r); repeat split; auto; [now left | discriminate].
      * exists s', z, r; split; [now right | exact H].
    + intros (s' & z & r & [->|Hs] & Ez & Er & Hr & ->).
      * left; rewrite Ez, Er; destruct r as [|c r]; [congruence | now left].
      * right; exists s', z, r; auto.
Qed.

Lemma main_author_in_ids (book_data : row) (m : Z) :
  row_get book_data "main_author" = Some (PyInt m) -> m <> 0%Z ->
  In (str_of_Z m) (author_id_list book_data).
Proof.
  intros Hm Hz; unfold author_id_list, row_get_or; rewrite Hm.
  cbn [py_truthy py_str]; apply Z.eqb_neq in Hz; rewrite Hz; cbn [negb andb].
  destruct (mem _ _) eqn:E; cbn [negb].
  - now apply mem_In.
  - apply in_or_app; right; now left.
Qed.

(** A main author given by a number is listed when the authors table has
    a row for it, and the entries flagged as main author are the ones
    that bear its id. *)
Theorem main_author_listed_and_flagged (self : builder) (book_id : str)
    (book_data : row) (book_content : list page_row)
    (page_structure : dict page_info) (title_hierarchy : dict str)
    (md : metadata) (book_meta_content author_meta_content : list str)
    (doc : book_json json) (m : Z) (r : row) :
  build self book_id book_data book_content page_structure title_hierarchy md
    book_meta_content author_meta_content = Ok doc ->
  row_get book_data "main_author" = Some (PyInt m) ->
  m <> 0%Z ->
  table_get (authors_lookup md) m = Some r ->
  r <> [] ->
  (exists a, In a (doc_authors doc)
             /\ author_id a = str_of_Z m
             /\ author_name a = row_get_or r "author_name" (PyStr []))
  /\ (forall a, In a (doc_authors doc) ->
                is_main_author a = true <-> author_id a = str_of_Z m).
Proof.
  intros Hdoc Hm Hz Hr Hne.
  destruct (doc_built _ _ _ _ _ _ _ _ _ Hdoc) as (_ & _ & _ & _ & _ & _ & _ & _ & _ & _ & ->).
  assert (Hmain : row_get_or book_data "main_author" (PyStr []) = PyInt m)
    by (unfold row_get_or; now rewrite Hm).
  rewrite Hmain; split.
  - exists (author_entry r m (PyInt m)); repeat split.
    apply authors_info_In.
    exists (str_of_Z m), m, r; repeat split; auto.
    + now apply main_author_in_ids.
    + apply int_of_str_round_trip.
  - intros a Ha; apply authors_info_In in Ha
      as (s & z & r' & _ & _ & _ & _ & ->).
    change (Z.eqb z m = true <-> str_of_Z z = str_of_Z m).
    rewrite Z.eqb_eq; split; [now intros -> | apply str_of_Z_inj with (1 := unicode_digit)].
Qed.

(** A main author given by text, or not given, flags nobody: an integer
    never equals a text. *)
Theorem textual_main_author_flags_nobody (self : builder) (book_id : str)
    (book_data : row) (book_content : list page_row)
    (page_structure : dict page_info) (title_hierarchy : dict str)
    (md : metadata) (book_meta_content author_meta_content : list str)
    (doc : book_json json) :
  build self book_id book_data book_content page_structure title_hierarchy md
    book_meta_content author_meta_content = Ok doc ->
  text_or_null (row_get_or book_data "main_author" (PyStr [])) ->
  Forall (fun a => is_main_author a = false) (doc_authors doc).
Proof.
  intros Hdoc Htext.
  destruct (doc_built _ _ _ _ _ _ _ _ _ Hdoc) as (_ & _ & _ & _ & _ & _ & _ & _ & _ & _ & ->).
  apply Forall_forall; intros a Ha.
  apply authors_info_In in Ha as (s & z & r & _ & _ & _ & _ & ->).
  cbn [is_main_author].
  destruct (row_get_or book_data "main_author" (PyStr [])); simpl in *;
    try reflexivity; contradiction.
Qed.

(** The authors of a document are those of the author ids that read as
    an integer with a non-empty row in the authors table, and nothing
    else: any other id is passed over without an error. *)
Theorem authors_come_from_the_table (self : builder) (book_id : str)
    (book_data : row) (book_content : list page_row)
    (page_structure : dict page_info) (title_hierarchy : dict str)
    (md : metadata) (book_meta_content author_meta_content : list str)
    (doc : book_json json) :
  build self book_id book_data book_content page_structure title_hierarchy md
    book_meta_content author_meta_content = Ok doc ->
  forall a,
    In a (doc_authors doc)
    <-> exists s z r,
          In s (author_id_list book_data)
          /\ int_of s = Some z
          /\ table_get (authors_lookup md) z = Some r
          /\ r <> []
          /\ a = author_entry r z
                   (row_get_or book_data "main_author" (PyStr [])).
Proof.
  intros Hdoc a.
  destruct (doc_built _ _ _ _ _ _ _ _ _ Hdoc) as (_ & _ & _ & _ & _ & _ & _ & _ & _ & _ & ->).
  apply authors_info_In.
Qed.

(** *** One book *)

(** A document is returned only for a book id that reads as an integer,
    has a non-empty row in the books table and has a content file; the
    document bears the id as it was given and the title of that row. *)
Theorem document_only_for_known_book (self : builder) (book_id : str)
    (md : metadata) (doc : book_json json) :
  process self book_id md = Ok (Some doc) ->
  exists n book_row book_content,
    int_of book_id = Some n
    /\ table_get (books_lookup md) n = Some book_row
    /\ book_row <> []
    /\ book_content_csv self book_id = Some book_content
    /\ doc_book_id doc = book_id
    /\ doc_title doc = row_get_or book_row "book_name" (PyStr []).
Proof.
  unfold process_single_book.
  destruct (int_of book_id) as [n|]; [|discriminate].
  destruct (table_get (books_lookup md) n) as [[|c book_row]|] eqn:Hrow;
    try discriminate.
  destruct (book_content_csv self book_id) as [book_content|]; [|discriminate].
  destruct (build _ _ _ _ _ _ _ _ _) as [doc'|] eqn:Hdoc; simpl; [|discriminate].
  intros [= <-].
  destruct (doc_built _ _ _ _ _ _ _ _ _ Hdoc)
    as (_ & _ & _ & _ & _ & _ & Hid & Htitle & _).
  exists n, (c :: book_row), book_content.
  split; [reflexivity|]; split; [exact Hrow|]; split; [discriminate|].
  split; [reflexivity|]; split; assumption.
Qed.

(** The lines of [book_meta] and [author_meta] in a document are not
    empty, carry no white space at either end and hold no carriage
    return. *)
Theorem meta_lines_are_clean (self : builder) (book_id : str)
    (md : metadata) (doc : book_json json) :
  process self book_id md = Ok (Some doc) ->
  Forall (fun l => l <> [] /\ strip l = l /\ ~ In cr l) (doc_book_meta doc)
  /\ Forall (fun l => l <> [] /\ strip l = l /\ ~ In cr l)
       (doc_author_meta doc).
Proof.
  unfold process_single_book.
  destruct (int_of book_id) as [n|]; [|discriminate].
  destruct (table_get (books_lookup md) n) as [[|c book_row]|];
    try discriminate.
  destruct (book_content_csv self book_id) as [book_content|]; [|discriminate].
  destruct (build _ _ _ _ _ _ _ _ _) as [doc'|] eqn:Hdoc; simpl; [|discriminate].
  intros [= <-].
  destruct (doc_built _ _ _ _ _ _ _ _ _ Hdoc)
    as (_ & _ & _ & _ & _ & _ & _ & _ & -> & -> & _).
  split.
  - destruct (dict_get (book_meta_lookup md) book_id);
      [apply meta_lines_clean | constructor].
  - destruct (py_str _); [constructor|].
    destruct (dict_get (author_meta_lookup md) _);
      [apply meta_lines_clean | constructor].
Qed.
End DocumentFields.

Lemma every_record_gives_one_page_witness :
  exists doc,
    build_book_json ascii_digits no_json unit_truthy tt (hello_builder false)
      (u "1") [] [hello_page; second_page] two_parts [] no_metadata [] []
    = Ok doc
    /\ list_sum (map (fun p => length (part_pages p)) (doc_parts doc)) = 2
    /\ NoDup (map part_name (doc_parts doc)).
Proof.
  eexists; split; [reflexivity|].
  apply (@every_record_gives_one_page ascii_digits unit no_json unit_truthy tt
           (hello_builder false) (u "1") [] [hello_page; second_page]
           two_parts [] no_metadata [] []).
  reflexivity.
Defined.

Lemma malformed_json_gives_empty_object_witness :
  exists doc,
    build_book_json ascii_digits no_json unit_truthy tt (hello_builder false)
      (u "1") cited_book [hello_page] [] [] cited_metadata [] [] = Ok doc
    /\ (row_get cited_book "pdf_links" = None -> doc_pdf_links doc = tt)
    /\ (row_get cited_book "meta_data" = None -> doc_meta_data doc = tt)
    /\ (forall text,
          row_get cited_book "pdf_links" = Some (PyStr text) ->
          strip text = [] \/ no_json (strip text) = None ->
          doc_pdf_links doc = tt)
    /\ (forall text,
          row_get cited_book "meta_data" = Some (PyStr text) ->
          strip text = [] \/ no_json (strip text) = None ->
          doc_meta_data doc = tt).
Proof.
  eexists; split; [reflexivity|].
  apply (@malformed_json_gives_empty_object ascii_digits unit no_json
           unit_truthy tt (hello_builder false) (u "1") cited_book
           [hello_page] [] [] cited_metadata [] []).
  reflexivity.
Defined.

Lemma numeric_json_field_raises_witness :
  build_table_of_contents (hello_builder false) (u "1") [] [hello_page] []
  = Ok None
  /\ build_book_json ascii_digits no_json unit_truthy tt (hello_builder false)
       (u "1") [("pdf_links"%string, PyInt 3)] [hello_page] [] []
       no_metadata [] []
     = Raise AttributeError.
Proof.
  split; [reflexivity|].
  apply (@numeric_json_field_raises ascii_digits unit no_json unit_truthy tt
           (hello_builder false) (u "1") [("pdf_links"%string, PyInt 3)]
           [hello_page] [] [] no_metadata [] [] None 3);
    [reflexivity | reflexivity | discriminate].
Defined.

Lemma authors_come_from_the_table_witness :
  exists doc,
    build_book_json ascii_digits no_json unit_truthy tt (hello_builder false)
      (u "1") cited_book [hello_page] [] [] cited_metadata [] [] = Ok doc
    /\ forall a,
         In a (doc_authors doc)
         <-> exists s z r,
               In s (author_id_list cited_book)
               /\ py_int ascii_digits s = Some z
               /\ table_get (authors_lookup cited_metadata) z = Some r
               /\ r <> []
               /\ a = {| author_id := str_of_Z z;
                         author_name := row_get_or r "author_name" (PyStr []);
                         death_number := row_get_or r "death_number" (PyStr []);
                         death_text :=
                           or_empty (row_get_or r "death_text" (PyStr []));
                         is_main_author :=
                           int_eq z (row_get_or cited_book "main_author"
                                       (PyStr [])) |}.
Proof.
  eexists; split; [reflexivity|].
  apply (@authors_come_from_the_table ascii_digits unit no_json unit_truthy tt
           (hello_builder false) (u "1") cited_book [hello_page] [] []
           cited_metadata [] []).
  reflexivity.
Defined.

Lemma main_author_listed_and_flagged_witness :
  exists doc,
    build_book_json ascii_digits no_json unit_truthy tt (hello_builder false)
      (u "1") cited_book [hello_page] [] [] cited_metadata [] [] = Ok doc
    /\ (exists a, In a (doc_authors doc)
                  /\ author_id a = u "5"
                  /\ author_name a = PyStr (u "Author"))
    /\ (forall a, In a (doc_authors doc) ->
                  is_main_author a = true <-> author_id a = u "5").
Proof.
  eexists; split; [reflexivity|].
  apply (@main_author_listed_and_flagged ascii_digits unit no_json unit_truthy
           tt (hello_builder false) (u "1") cited_book [hello_page] [] []
           cited_metadata [] [] _ 5
           [("author_name"%string, PyStr (u "Author"))]);
    [reflexivity | reflexivity | discriminate | reflexivity | discriminate].
Defined.

Lemma textual_main_author_flags_nobody_witness :
  exists doc,
    build_book_json ascii_digits no_json unit_truthy tt (hello_builder false)
      (u "1") texted_book [hello_page] [] [] cited_metadata [] [] = Ok doc
    /\ doc_authors doc <> []
    /\ Forall (fun a => is_main_author a = false) (doc_authors doc).
Proof.
  eexists; split; [reflexivity|]; split; [discriminate|].
  apply (@textual_main_author_flags_nobody ascii_digits unit no_json
           unit_truthy tt (hello_builder false) (u "1") texted_book
           [hello_page] [] [] cited_metadata [] []);
    [reflexivity | exact I].
Defined.

Lemma document_only_for_known_book_witness :
  exists doc,
    process_single_book ascii_digits no_json unit_truthy tt
      (hello_builder false) (u "1") cited_metadata = Ok (Some doc)
    /\ exists n book_row book_content,
         py_int ascii_digits (u "1") = Some n
         /\ table_get (books_lookup cited_metadata) n = Some book_row
         /\ book_row <> []
         /\ book_content_csv (hello_builder false) (u "1") = Some book_content
         /\ doc_book_id doc = u "1"
         /\ doc_title doc = row_get_or book_row "book_name" (PyStr []).
Proof.
  eexists; split; [reflexivity|].
  apply (@document_only_for_known_book ascii_digits unit no_json unit_truthy
           tt (hello_builder false) (u "1") cited_metadata).
  reflexivity.
Defined.

Lemma meta_lines_are_clean_witness :
  exists doc,
    process_single_book ascii_digits no_json unit_truthy tt
      (hello_builder false) (u "1") cited_metadata = Ok (Some doc)
    /\ doc_book_meta doc = [u "first"; u "second"]
    /\ Forall (fun l => l <> [] /\ strip l = l /\ ~ In cr l) (doc_book_meta doc)
    /\ Forall (fun l => l <> [] /\ strip l = l /\ ~ In cr l)
         (doc_author_meta doc).
Proof.
  eexists; split; [reflexivity|]; split; [reflexivity|].
  apply (@meta_lines_are_clean ascii_digits unit no_json unit_truthy tt
           (hello_builder false) (u "1") cited_metadata).
  reflexivity.
Defined.

(** ** Lookups filled row by row *)

Lemma dict_get_set {V} (d : dict V) (k k' : str) (v : V) :
  dict_get (dict_set d k v) k'
  = if str_eqb k k' then Some v else dict_get d k'.
Proof.
  induction d as [|[k0 v0] d IH]; simpl; [reflexivity|].
  destruct (str_eqb_spec k0 k) as [->|Hk0]; simpl.
  - destruct (str_eqb k k'); reflexivity.
  - rewrite IH.
    destruct (str_eqb_spec k0 k') as [<-|_]; [|reflexivity].
    destruct (str_eqb_spec k k0) as [->|_]; [congruence | reflexivity].
Qed.

Lemma keys_dict_set {V} (d : dict V) (k : str) (v : V) (x : str) :
  In x (keys (dict_set d k v)) <-> x = k \/ In x (keys d).
Proof.
  induction d as [|[k0 v0] d IH]; simpl.
  - split; intros [H|H]; auto.
  - destruct (str_eqb_spec k0 k) as [->|Hk0]; simpl.
    + split; [intros [H|H]; auto | intros [H|[H|H]]; auto].
    + rewrite IH; split; [intros [H|[H|H]]; auto | intros [H|[H|H]]; auto].
Qed.

Lemma dict_set_NoDup {V} (d : dict V) (k : str) (v : V) :
  NoDup (keys d) -> NoDup (keys (dict_set d k v)).
Proof.
  induction d as [|[k0 v0] d IH]; simpl; intros Hnd.
  - repeat constructor; intros [].
  - inversion Hnd as [|? ? Hk0 Hd]; subst.
    destruct (str_eqb_spec k0 k) as [->|Hne]; simpl; [now constructor|].
    constructor; [|now apply IH].
    intros H; apply keys_dict_set in H as [H|H]; [congruence | contradiction].
Qed.

Lemma find_snoc {A} (p : A -> bool) (l : list A) (x : A) :
  find p (l ++ [x])
  = match find p l with
    | Some y => Some y
    | None => if p x then Some x else None
    end.
Proof.
  induction l as [|y l IH]; simpl; [reflexivity|].
  destruct (p y); [reflexivity | exact IH].
Qed.

Section Filling.
Variables R V : Type.
Variable keep : R -> bool.
Variable key : R -> str.
Variable val : R -> V.

Abbreviation fill :=
  (fold_left (fun d r => if keep r then dict_set d (key r) (val r) else d)).

(** The value under a key is that of the last row kept for it. *)
Lemma fill_get (rows : list R) (d : dict V) (k : str) :
  dict_get (fill rows d) k
  = match find (fun r => keep r && str_eqb (key r) k) (rev rows) with
    | Some r => Some (val r)
    | None => dict_get d k
    end.
Proof.
  revert d; induction rows as [|r rows IH]; intros d; simpl; [reflexivity|].
  rewrite IH, find_snoc.
  destruct (find _ (rev rows)); [reflexivity|].
  destruct (keep r); simpl; [|reflexivity].
  rewrite dict_get_set; destruct (str_eqb (key r) k); reflexivity.
Qed.

Lemma fill_NoDup (rows : list R) (d : dict V) :
  NoDup (keys d) -> NoDup (keys (fill rows d)).
Proof.
  revert d; induction rows as [|r rows IH]; intros d Hd; simpl; [exact Hd|].
  apply IH; destruct (keep r); [now apply dict_set_NoDup | exact Hd].
Qed.

Lemma fill_keys (rows : list R) (d : dict V) (x : str) :
  In x (keys (fill rows d))
  <-> In x (keys d) \/ exists r, In r rows /\ keep r = true /\ key r = x.
Proof.
  revert d; induction rows as [|r rows IH]; intros d; simpl.
  - split; [auto | intros [H|(r & [] & _)]; exact H].
  - rewrite IH; split.
    + intros [H|(r' & Hr' & H)].
      * destruct (keep r) eqn:Hk; [|auto].
        apply keys_dict_set in H as [->|H]; [|auto].
        right; exists r; auto.
      * right; exists r'; auto.
    + intros [H|(r' & [<-|Hr'] & Hk & Hx)].
      * left; destruct (keep r); [|exact H].
        apply keys_dict_set; now right.
      * left; rewrite Hk; apply keys_dict_set; now left.
      * right; exists r'; auto.
Qed.
End Filling.

Lemma fold_left_same {A B} (f g : A -> B -> A) (l : list B) (a : A) :
  (forall x y, f x y = g x y) -> fold_left f l a = fold_left g l a.
Proof.
  intros H; revert a; induction l as [|y l IH]; intros a; simpl;
    [reflexivity | now rewrite H, IH].
Qed.

Lemma find_same {A} (p q : A -> bool) (l : list A) :
  (forall x, p x = q x) -> find p l = find q l.
Proof.
  intros H; induction l as [|x l IH]; simpl; [reflexivity|].
  now rewrite H, IH.
Qed.

(** *** The lookups read from the per-book database *)

(** Each of the three lookups read from the per-book database has one
    entry per id, and the entry of an id comes from the last row that
    bears it. *)
Theorem structure_lookups_keep_last_row (self : builder) (book_id : str)
    (db : database) :
  book_db self book_id = Some db ->
  (forall rows,
     page_table db = Some rows ->
     NoDup (keys (load_page_structure self book_id))
     /\ forall k,
          dict_get (load_page_structure self book_id) k
          = option_map snd
              (find (fun r => str_eqb (py_str (fst r)) k) (rev rows)))
  /\ (forall rows,
        title_table db = Some rows ->
        NoDup (keys (load_title_hierarchy self book_id))
        /\ (forall k,
              dict_get (load_title_hierarchy self book_id) k
              = option_map
                  (fun r => py_str (match title_row_parent r with
                                    | Some v => v
                                    | None => PyStr root_id
                                    end))
                  (find (fun r => str_eqb (py_str (title_row_id r)) k)
                     (rev rows)))
        /\ (forall page_structure k,
              dict_get
                (build_title_page_mapping_from_sqlite self book_id
                   page_structure) k
              = option_map (fun r => py_str (title_row_page r))
                  (find (fun r => str_eqb (py_str (title_row_id r)) k)
                     (rev rows)))).
Proof.
  intros Hdb; split.
  - intros rows Hrows; unfold load_page_structure; rewrite Hdb.
    destruct db as [pages titles]; simpl in Hrows; subst pages.
    split.
    + apply (fill_NoDup (fun _ => true) (fun r => py_str (fst r)) snd rows).
      constructor.
    + intros k.
      rewrite (fill_get (fun _ => true) (fun r => py_str (fst r)) snd rows []).
      simpl; destruct (find _ (rev rows)); reflexivity.
  - intros rows Hrows; split; [|split].
    + unfold load_title_hierarchy; rewrite Hdb.
      destruct db as [pages titles]; simpl in Hrows; subst titles.
      apply (fill_NoDup (fun _ => true) (fun r => py_str (title_row_id r))
               (fun r => py_str (match title_row_parent r with
                                 | Some v => v
                                 | None => PyStr root_id
                                 end)) rows).
      constructor.
    + intros k; unfold load_title_hierarchy; rewrite Hdb.
      destruct db as [pages titles]; simpl in Hrows; subst titles.
      rewrite (fill_get (fun _ => true) (fun r => py_str (title_row_id r))
                 (fun r => py_str (match title_row_parent r with
                                   | Some v => v
                                   | None => PyStr root_id
                                   end)) rows []).
      simpl; destruct (find _ (rev rows)); reflexivity.
    + intros page_structure k.
      unfold build_title_page_mapping_from_sqlite; rewrite Hdb, Hrows.
      rewrite (fill_get (fun _ => true) (fun r => py_str (title_row_id r))
                 (fun r => py_str (title_row_page r)) rows []).
      simpl; destruct (find _ (rev rows)); reflexivity.
Qed.

(** *** The titles file *)

(** [_load_title_data] has one entry per key, no key holds a dash, and
    the cell under a key is the body of the last row that has a body and
    an id with a dash whose second piece is the key. *)
Theorem title_data_keeps_last_dashed_row (self : builder) (book_id : str)
    (rows : list (pyval * pyval)) :
  title_csv self book_id = Some rows ->
  NoDup (keys (load_title_data self book_id))
  /\ Forall (fun k => ~ In 45%N k) (keys (load_title_data self book_id))
  /\ forall k,
       dict_get (load_title_data self book_id) k
       = match
           find (fun r =>
                   negb (pd_isna (snd r))
                   && (existsb (N.eqb 45) (py_str (fst r))
                       && str_eqb (nth 1 (split_on 45 (py_str (fst r))) []) k))
             (rev rows)
         with
         | Some r => Some (snd r)
         | None => None
         end.
Proof.
  intros Hrows; unfold load_title_data; rewrite Hrows.
  set (keep := fun r : pyval * pyval =>
                 negb (pd_isna (snd r))
                 && existsb (N.eqb 45) (py_str (fst r))).
  set (key := fun r : pyval * pyval =>
                nth 1 (split_on 45 (py_str (fst r))) []).
  match goal with
  | |- context [fold_left ?f rows []] =>
      rewrite (@fold_left_same _ _ f
                 (fun d r => if keep r then dict_set d (key r) (snd r) else d)
                 rows [])
        by (intros d [id body]; unfold keep; simpl;
            destruct (pd_isna body); reflexivity)
  end.
  split; [|split].
  - apply fill_NoDup; constructor.
  - apply Forall_forall; intros k Hk.
    apply fill_keys in Hk as [[]|(r & _ & _ & <-)].
    unfold key.
    destruct (split_on 45 (py_str (fst r))) as [|p0 [|p1 ps]] eqn:E;
      simpl; auto.
    apply (@split_on_no_sep 45%N (py_str (fst r))); rewrite E; simpl; auto.
  - intros k.
    rewrite (find_same _ (fun r => keep r && str_eqb (key r) k))
      by (intros [id body]; unfold keep, key; apply andb_assoc).
    rewrite fill_get.
    destruct (find _ (rev rows)); reflexivity.
Qed.

Lemma structure_lookups_keep_last_row_witness :
  book_db twice_builder (u "1") = Some twice_database
  /\ dict_get (load_page_structure twice_builder (u "1")) (u "12")
     = Some {| info_part := Some (u "2"); info_page := Some (PyInt 2) |}
  /\ dict_get (load_title_hierarchy twice_builder (u "1")) (u "8")
     = Some (u "7")
  /\ (forall rows,
        page_table twice_database = Some rows ->
        NoDup (keys (load_page_structure twice_builder (u "1")))
        /\ forall k,
             dict_get (load_page_structure twice_builder (u "1")) k
             = option_map snd
                 (find (fun r => str_eqb (py_str (fst r)) k) (rev rows)))
  /\ (forall rows,
        title_table twice_database = Some rows ->
        NoDup (keys (load_title_hierarchy twice_builder (u "1")))
        /\ (forall k,
              dict_get (load_title_hierarchy twice_builder (u "1")) k
              = option_map
                  (fun r => py_str (match title_row_parent r with
                                    | Some v => v
                                    | None => PyStr root_id
                                    end))
                  (find (fun r => str_eqb (py_str (title_row_id r)) k)
                     (rev rows)))
        /\ (forall page_structure k,
              dict_get
                (build_title_page_mapping_from_sqlite twice_builder (u "1")
                   page_structure) k
              = option_map (fun r => py_str (title_row_page r))
                  (find (fun r => str_eqb (py_str (title_row_id r)) k)
                     (rev rows)))).
Proof.
  split; [reflexivity|]; split; [reflexivity|]; split; [reflexivity|].
  apply (@structure_lookups_keep_last_row twice_builder (u "1")
           twice_database).
  reflexivity.
Defined.

Lemma title_data_keeps_last_dashed_row_witness :
  load_title_data twice_builder (u "1") = [(u "8", PyStr (u "New"))]
  /\ NoDup (keys (load_title_data twice_builder (u "1")))
  /\ Forall (fun k => ~ In 45%N k) (keys (load_title_data twice_builder (u "1")))
  /\ forall k,
       dict_get (load_title_data twice_builder (u "1")) k
       = match
           find (fun r =>
                   negb (pd_isna (snd r))
                   && (existsb (N.eqb 45) (py_str (fst r))
                       && str_eqb (nth 1 (split_on 45 (py_str (fst r))) []) k))
             (rev twice_titles)
         with
         | Some r => Some (snd r)
         | None => None
         end.
Proof.
  split; [reflexivity|].
  apply (@title_data_keeps_last_dashed_row twice_builder (u "1") twice_titles).
  reflexivity.
Defined.

(** ** The metadata files *)

(** [_load_meta_csv] has one entry per id, and the text under an id is
    the [body_store] of the last row that bears it and has one. *)
Theorem meta_lookup_keeps_last_row (rows : list (pyval * option str)) :
  NoDup (keys (load_meta_csv (Some rows)))
  /\ forall k,
       dict_get (load_meta_csv (Some rows)) k
       = match
           find (fun r =>
                   match snd r with
                   | Some _ => str_eqb (py_str (fst r)) k
                   | None => false
                   end)
             (rev rows)
         with
         | Some r => snd r
         | None => None
         end.
Proof.
  unfold load_meta_csv.
  set (keep := fun r : pyval * option str =>
                 match snd r with Some _ => true | None => false end).
  set (key := fun r : pyval * option str => py_str (fst r)).
  set (val := fun r : pyval * option str =>
                match snd r with Some body => body | None => [] end).
  match goal with
  | |- context [fold_left ?f rows []] =>
      rewrite (@fold_left_same _ _ f
                 (fun d r => if keep r then dict_set d (key r) (val r) else d)
                 rows [])
        by (intros d [id [body|]]; reflexivity)
  end.
  split.
  - apply fill_NoDup; constructor.
  - intros k.
    rewrite (find_same _ (fun r => keep r && str_eqb (key r) k))
      by (intros [id [body|]]; reflexivity).
    rewrite fill_get.
    destruct (find _ (rev rows)) as [[id body]|] eqn:Ef; [|reflexivity].
    apply find_some in Ef as [_ Ef]; unfold keep, val in *; simpl in *.
    destruct body; [reflexivity | discriminate].
Qed.

(** [_get_field_name] names a column of the frame exactly when the frame
    has the column under its plain name or behind a byte-order mark; it
    returns one of these two names, the plain one whenever that is a
    column. *)
Theorem field_name_finds_the_column (columns : list str) (base_name : str) :
  (In (get_field_name columns base_name) columns
   <-> In base_name columns \/ In (bom :: base_name) columns)
  /\ (get_field_name columns base_name = base_name
      \/ get_field_name columns base_name = bom :: base_name)
  /\ (In base_name columns -> get_field_name columns base_name = base_name).
Proof.
  unfold get_field_name.
  destruct (mem base_name columns) eqn:Eb.
  - apply mem_In in Eb; repeat split; auto.
  - apply mem_not_In in Eb.
    destruct (mem (bom :: base_name) columns) eqn:Em.
    + apply mem_In in Em; repeat split; auto; contradiction.
    + apply mem_not_In in Em; repeat split; auto; try contradiction.
      intros [H|H]; contradiction.
Qed.

(** ** What a substitution can bring in *)

(** The groups of a match are pieces of the input. *)
Lemma match_here_groups (pat : pattern) (s : str) (groups : list str)
    (rest : str) :
  match_here pat s = Some (groups, rest) ->
  Forall (fun g => incl g s) groups.
Proof.
  revert s groups rest; induction pat as [|[c|p|c|p min greedy capture] pat IH];
    intros s groups rest; cbn [match_here].
  - intros [= <- _]; constructor.
  - destruct s as [|x s]; [discriminate|].
    destruct (N.eqb x c); [|discriminate].
    intros H; apply IH in H; revert H; apply Forall_impl.
    intros g Hg; now apply incl_tl.
  - destruct s as [|x s]; [discriminate|].
    destruct (p x); [|discriminate].
    intros H; apply IH in H; revert H; apply Forall_impl.
    intros g Hg; now apply incl_tl.
  - destruct s as [|x s]; [apply IH|].
    destruct (N.eqb x c); [|apply IH].
    destruct (match_here pat s) as [[g r]|] eqn:E; [|apply IH].
    intros [= <- <-]; apply IH in E; revert E; apply Forall_impl.
    intros g' Hg; now apply incl_tl.
  - assert (Hrun : forall w g r s',
              s = w ++ s' -> match_here pat s' = Some (g, r) ->
              Forall (fun g => incl g s)
                (if capture then w :: g else g)).
    { intros w g r s' -> Hk.
      assert (Hg : Forall (fun g0 => incl g0 (w ++ s')) g).
      { apply IH in Hk; revert Hk; apply Forall_impl.
        intros g0 Hg0; now apply incl_appr. }
      destruct capture; [constructor|]; auto.
      apply incl_appl, incl_refl. }
    destruct greedy.
    + destruct (rep_greedy p (match_here pat) min s) as [[w [g r]]|] eqn:E;
        [|discriminate].
      intros [= <- _].
      destruct (rep_greedy_sound _ _ _ _ E) as (s' & Hs & Hk); eauto.
    + destruct (rep_lazy p (match_here pat) min s) as [[w [g r]]|] eqn:E;
        [|discriminate].
      intros [= <- _].
      destruct (rep_lazy_sound _ _ _ _ E) as (s' & Hs & Hk); eauto.
Qed.

Section Kept.
(** A class of characters that the replacement keeps to, whenever the
    groups it is given do. *)
Variable P : N -> bool.
Variable pat : pattern.
Variable repl : list str -> str.
Hypothesis repl_keeps :
  forall groups,
    Forall (fun g => forallb P g = true) groups ->
    forallb P (repl groups) = true.

Lemma sub_loop_keeps (s : str) (skip : nat) :
  forallb P s = true -> forallb P (sub_loop pat repl s skip) = true.
Proof.
  revert skip; induction s as [|c s IH]; intros skip Hs; [reflexivity|].
  pose proof Hs as Hcs.
  cbn [forallb] in Hs; apply andb_true_iff in Hs as [Hc Hs].
  cbn [sub_loop]; destruct skip as [|n]; [|now apply IH].
  destruct (match_here pat (c :: s)) as [[groups rest]|] eqn:E.
  - assert (Hrepl : forallb P (repl groups) = true).
    { apply repl_keeps.
      apply match_here_groups in E; revert E; apply Forall_impl.
      intros g Hg; apply forallb_forall; intros x Hx.
      rewrite forallb_forall in Hcs; apply Hcs, Hg, Hx. }
    destruct (length (c :: s) - length rest);
      rewrite forallb_app, Hrepl; cbn [forallb andb];
      [rewrite Hc|]; now apply IH.
  - cbn [forallb]; rewrite Hc; now apply IH.
Qed.

Lemma re_sub_keeps (s : str) :
  forallb P s = true -> forallb P (re_sub pat repl s) = true.
Proof. apply sub_loop_keeps. Qed.
End Kept.

Lemma nth_keeps (P : N -> bool) (n : nat) (groups : list str) :
  Forall (fun g => forallb P g = true) groups ->
  forallb P (nth n groups []) = true.
Proof.
  intros H; revert n; induction H as [|g groups Hg _ IH]; intros [|n]; simpl;
    auto.
Qed.

Lemma replace_char_removes (a b : N) (s : str) :
  a <> b -> forallb (fun c => negb (N.eqb c a)) (replace_char a b s) = true.
Proof.
  intros Hab; induction s as [|c s IH]; simpl; [reflexivity|].
  rewrite IH, andb_true_r.
  destruct (N.eqb_spec c a) as [->|Hc]; apply negb_true_iff, N.eqb_neq; congruence.
Qed.

Section NoCarriageReturn.
Variable unicode_digit : N -> option N.

Abbreviation not_cr := (fun c => negb (N.eqb c cr)).

(** The normaliser leaves no carriage return, whatever the cell and the
    mode, when no parent id of the hierarchy holds one. *)
Lemma process_text_no_cr (self : builder) (text : pyval)
    (title_hierarchy : dict str) :
  Forall (fun kv => forallb not_cr (snd kv) = true) title_hierarchy ->
  forallb not_cr (process_text unicode_digit self text title_hierarchy) = true.
Proof.
  intros Hth; unfold process_text.
  destruct (negb (py_truthy text) || pd_isna text); [reflexivity|].
  assert (Hparent : forall t, forallb not_cr (parent_of title_hierarchy t) = true).
  { intros t; unfold parent_of, dict_get_or.
    induction Hth as [|[k v] d Hv _ IH]; simpl; [reflexivity|].
    destruct (str_eqb k t); [exact Hv | exact IH]. }
  assert (H3 : forallb not_cr
                 (re_sub span_pattern group1
                    (re_sub (title_span_pattern unicode_digit)
                       (replace_title_span title_hierarchy)
                       (re_sub img_pattern no_text
                          (replace_char cr lf (py_str text))))) = true).
  { apply re_sub_keeps; [intros groups Hg; now apply nth_keeps|].
    apply re_sub_keeps.
    - intros groups Hg; unfold replace_title_span.
      repeat (rewrite forallb_app; apply andb_true_intro; split);
        first [reflexivity | now apply nth_keeps | apply Hparent].
    - apply re_sub_keeps; [reflexivity|].
      apply replace_char_removes; discriminate. }
  destruct (generate_toc self); [|exact H3].
  apply re_sub_keeps; [reflexivity|].
  apply re_sub_keeps; [intros groups Hg; now apply nth_keeps | exact H3].
Qed.
End NoCarriageReturn.

Section CleanPages.
Variable unicode_digit : N -> option N.
Variable json : Type.
Variable json_loads : str -> option json.
Variable json_truthy : json -> bool.
Variable empty_object : json.

Abbreviation build :=
  (build_book_json unicode_digit json_loads json_truthy empty_object).

(** No body and no footnote of a document holds a carriage return, in
    either mode and whatever the cells of the page records, when no
    parent id of the hierarchy holds one. *)
Theorem pages_hold_no_carriage_return (self : builder) (book_id : str)
    (book_data : row) (book_content : list page_row)
    (page_structure : dict page_info) (title_hierarchy : dict str)
    (md : metadata) (book_meta_content author_meta_content : list str)
    (doc : book_json json) :
  build self book_id book_data book_content page_structure title_hierarchy md
    book_meta_content author_meta_content = Ok doc ->
  Forall (fun kv => ~ In cr (snd kv)) title_hierarchy ->
  Forall
    (fun part =>
       Forall (fun p => forall text,
                 page_field p "body" = Some text
                 \/ page_field p "footnote" = Some text ->
                 ~ In cr text)
              (part_pages part))
    (doc_parts doc).
Proof.
  intros Hdoc Hth.
  assert (Hth' : Forall (fun kv => forallb (fun c => negb (N.eqb c cr)) (snd kv)
                                   = true) title_hierarchy).
  { revert Hth; apply Forall_impl; intros [k v] Hv; simpl in *.
    apply forallb_forall; intros c Hc.
    apply negb_true_iff, N.eqb_neq; intros ->; contradiction. }
  assert (Hclean : forall text,
            ~ In cr (process_text unicode_digit self text title_hierarchy)).
  { intros text Hin.
    pose proof (process_text_no_cr unicode_digit self text Hth') as H.
    rewrite forallb_forall in H; apply H in Hin.
    now rewrite N.eqb_refl in Hin. }
  rewrite (doc_parts_built _ _ _ _ _ _ _ _ _ _ _ _ _ Hdoc).
  rewrite parts_list_grouped.
  unfold clean_parts; rewrite map_map.
  apply Forall_forall; intros part Hpart.
  apply in_map_iff in Hpart as (l & <- & _); simpl.
  apply Forall_forall; intros p Hp.
  apply in_map_iff in Hp as (q & <- & Hq).
  unfold filed_under in Hq.
  apply in_map_iff in Hq as (kv & <- & Hkv).
  apply filter_In in Hkv as [Hkv _].
  apply in_map_iff in Hkv as (r & <- & _).
  intros text [H|H]; injection H as <-; apply Hclean.
Qed.
End CleanPages.

Lemma pages_hold_no_carriage_return_witness :
  exists doc,
    build_book_json ascii_digits no_json unit_truthy tt (hello_builder false)
      (u "1") [] [crlf_page] [] [] no_metadata [] [] = Ok doc
    /\ doc_parts doc
       = [{| part_name := [];
             part_pages :=
               [[("page_id"%string, u "14"); ("page_number"%string, u "14");
                 ("body"%string, u "one" ++ [lf; lf] ++ u "<b>two</b>");
                 ("footnote"%string, u "note")]] |}]
    /\ Forall
         (fun part =>
            Forall (fun p => forall text,
                      page_field p "body" = Some text
                      \/ page_field p "footnote" = Some text ->
                      ~ In cr text)
                   (part_pages part))
         (doc_parts doc).
Proof.
  eexists; split; [reflexivity|]; split; [reflexivity|].
  apply (@pages_hold_no_carriage_return ascii_digits unit no_json unit_truthy
           tt (hello_builder false) (u "1") [] [crlf_page] [] [] no_metadata
           [] []);
    [reflexivity | constructor].
Defined.
